(** * FitRes: collation of MRS fit results (fsl_mrs/utils/results.py)

    A shallow embedding of the [FitRes] class and a verification of the
    properties its specification states about it.

    - numbers are numpy [float64]: Rocq's primitive binary64 floats, with
      NaN, the two infinities and the two zeros;
    - a pandas [DataFrame] is an ordered list of named columns over a row
      count; a column assignment replaces the column of that name in place
      or appends a new one;
    - the object is a record [FitRes]; a method is a computation in a small
      state-and-exception monad [M]: a raised exception keeps every mutation
      made before it, as in Python;
    - an array obtained as [df[name].values] shares its memory with the
      table (pandas without copy-on-write, which the code was written for),
      so an in-place operation on it writes to the table;
    - code of other modules (quantify, models, misc, pandas statistics, the
      inner product behind numpy's [@]) is taken as parameters of the
      section [Results].

    Modelled: [__init__], [fill_names], [loadResults],
    [calculateConcScaling], [combine], [predictedFID], [to_file], [getConc],
    [getPhaseParams], [getShiftParams], [getLineShapeParams],
    [getBaselineParams] (complex arithmetic being a parameter). Left out:
    [__str__], which formats arrays as text, and [getQCParams], which reads
    the attributes [SNR] and [FWHM]. *)

From Stdlib Require Import Floats ZArith List String Ascii Bool Lia.
From stdpp Require Import base list strings pretty.

Open Scope string_scope.
Open Scope list_scope.

(** ** Exceptions and outcomes *)

Inductive exn : Type :=
| ValueError (msg : string)
| KeyError (key : string)
| IndexError (msg : string)
| PyException (msg : string).

Inductive outcome (A : Type) : Type :=
| Ok (a : A)
| Raise (e : exn).
Arguments Ok {A} a.
Arguments Raise {A} e.

Definition is_Ok {A} (o : outcome A) : bool :=
  match o with Ok _ => true | Raise _ => false end.

(** ** Strings: [in], [index], [lower], ['+'.join] *)

(** [x in l] on a list of strings. *)
Fixpoint inb (x : string) (l : list string) : bool :=
  match l with
  | [] => false
  | y :: r => if String.eqb y x then true else inb x r
  end.

(** [l.index(x)]: position of the first occurrence. *)
Fixpoint index_of (x : string) (l : list string) : option nat :=
  match l with
  | [] => None
  | y :: r => if String.eqb y x then Some 0
              else match index_of x r with Some i => Some (S i) | None => None end
  end.

(** [str.lower()] on the ASCII letters, the only ones that can lower to
    the letters of the mode and unit keywords. *)
Definition lower_ascii (c : ascii) : ascii :=
  let n := nat_of_ascii c in
  if (65 <=? n)%nat && (n <=? 90)%nat then ascii_of_nat (n + 32) else c.

Fixpoint lower (s : string) : string :=
  match s with
  | EmptyString => EmptyString
  | String c r => String (lower_ascii c) (lower r)
  end.

Definition join_plus (l : list string) : string := String.concat "+" l.

(** ** float64 vectors and matrices

    The operations are those of IEEE binary64, as numpy's. The matrix
    product [@] is numpy's own: see the code of other modules below. *)

Definition fzero : float := 0%float.
Definition fone : float := 1%float.
Definition f999 : float := 999%float.
Definition f100 : float := 100%float.
Definition np_pi : float := 0x1.921fb54442d18p+1%float.

(** [np.zeros(n)] *)
Definition np_zeros (n : nat) : list float := replicate n fzero.

(** Element-wise binary operation on two 1-D arrays under numpy's
    broadcasting: equal lengths, or one operand of length one. *)
Definition broadcast2 (f : float -> float -> float) (a b : list float)
  : outcome (list float) :=
  if (length a =? length b)%nat then Ok (zip_with f a b)
  else match a, b with
       | [x], _ => Ok (map (f x) b)
       | _, [y] => Ok (map (fun x => f x y) a)
       | _, _ => Raise (ValueError "operands could not be broadcast together")
       end.

(** [a[i] = v] on a 1-D array, for a non-negative index. *)
Definition np_setitem (a : list float) (i : nat) (v : float) : outcome (list float) :=
  if (i <? length a)%nat then Ok (<[i := v]> a)
  else Raise (IndexError "index out of bounds").

(** Number of columns of a 2-D array given by its rows. *)
Definition ncols (m : list (list float)) : nat :=
  match m with [] => 0 | r :: _ => length r end.

(** [np.diagonal(m)]: the entries [m[i][i]] for [i] below both dimensions. *)
Definition np_diagonal (m : list (list float)) : list float :=
  map (fun i => nth i (nth i m []) fzero) (seq 0 (Nat.min (length m) (ncols m))).

(** ** The percent-SD computation shared by loadResults and combine *)

(** [np.sqrt(crlb) / params * 100], before any clipping. *)
Definition raw_perc_SD (crlb params : list float) : outcome (list float) :=
  match broadcast2 PrimFloat.div (map PrimFloat.sqrt crlb) params with
  | Ok q => Ok (map (fun x => PrimFloat.mul x f100) q)
  | Raise e => Raise e
  end.

(** [a[a > 999] = 999] then [a[np.isnan(a)] = 999] *)
Definition clip_gt999 (v : float) : float :=
  if PrimFloat.ltb f999 v then f999 else v.
Definition nan_to_999 (v : float) : float :=
  if PrimFloat.is_nan v then f999 else v.
Definition clip_perc_SD (a : list float) : list float :=
  map nan_to_999 (map clip_gt999 a).

Definition compute_perc_SD (crlb params : list float) : outcome (list float) :=
  match raw_perc_SD crlb params with
  | Ok a => Ok (clip_perc_SD a)
  | Raise e => Raise e
  end.

(** Python's [min(a, b)]: [b] when [b < a], else [a]. *)
Definition py_min (a b : float) : float :=
  if PrimFloat.ltb b a then b else a.

(** ** DataFrame

    The column names of a frame are taken to be distinct, as the schema's
    are: [df[name]] is the one column of that name. *)

Record DataFrame : Type := mkDF {
  nrows : nat;
  columns : list (string * list float)
}.

Fixpoint assoc_get (name : string) (cols : list (string * list float))
  : option (list float) :=
  match cols with
  | [] => None
  | (n, c) :: r => if String.eqb n name then Some c else assoc_get name r
  end.

Fixpoint assoc_set (name : string) (c : list float) (cols : list (string * list float))
  : list (string * list float) :=
  match cols with
  | [] => [(name, c)]
  | (n, c0) :: r => if String.eqb n name then (n, c) :: r
                    else (n, c0) :: assoc_set name c r
  end.

(** [df[name]] *)
Definition df_getitem (name : string) (df : DataFrame) : outcome (list float) :=
  match assoc_get name (columns df) with
  | Some c => Ok c
  | None => Raise (KeyError name)
  end.

(** [df[name] = series], the series carrying the frame's index. *)
Definition df_setitem (name : string) (c : list float) (df : DataFrame) : DataFrame :=
  mkDF (nrows df) (assoc_set name c (columns df)).

Definition df_names (df : DataFrame) : list string := map fst (columns df).

(** [pd.DataFrame(data=rows, columns=names)] for a 2-D array given by its
    rows (a 1-D vector is passed as its one row): every row must have one
    entry per name. *)
Definition DataFrame_of_rows (rows : list (list float)) (names : list string)
  : outcome DataFrame :=
  if forallb (fun r => (length r =? length names)%nat) rows
  then Ok (mkDF (length rows)
                (imap (fun j n => (n, map (fun r => nth j r fzero) rows)) names))
  else Raise (ValueError "Shape of passed values does not match the columns").

(** ** Values returned by the accessors *)

(** What a per-column summary gives: a scalar, or a 1-D array. *)
Inductive ndval : Type :=
| Scalar (x : float)
| Arr (a : list float).

(** [np.asarray] of one summary, or of the list of them. *)
Inductive ndarray : Type :=
| Item (v : ndval)
| Stack (vs : list ndval).

Definition ndval_mul (v : ndval) (k : float) : ndval :=
  match v with
  | Scalar x => Scalar (PrimFloat.mul x k)
  | Arr a => Arr (map (fun x => PrimFloat.mul x k) a)
  end.

Definition ndarray_mul (a : ndarray) (k : float) : ndarray :=
  match a with
  | Item v => Item (ndval_mul v k)
  | Stack vs => Stack (map (fun v => ndval_mul v k) vs)
  end.

(** The [function] argument of the accessors: [None] asks for the sample
    array itself ([.values]); otherwise [Series.apply(function)]. *)
Definition summary : Type := option (list float -> ndval).

(** ** The concentration-scaling set *)

Record ConcScalings : Type := mkCS {
  internal : option float;
  internalRef : option string;
  molarity : option float;
  molality : option float
}.

Definition concScalings_unset : ConcScalings := mkCS None None None None.

(** ** Requests to the model module *)

(** The keyword arguments [predictedFID] passes to [models.getFittedModel]:
    [noBaseline=nb]; [baselineOnly=True]; or [basisSelect=name,
    baselineOnly=False, noBaseline=nb]. *)
Inductive fit_request : Type :=
| FullModel (noBaseline : bool)
| BaselineOnly
| BasisSelect (name : string) (noBaseline : bool).

(** The raw samples handed to [loadResults]: a 1-D vector (one fit) or a
    2-D array given by its rows (one row per sample). *)
Inductive FitInput : Type :=
| Fit1D (v : list float)
| Fit2D (rows : list (list float)).

(** Cells and frames written by [to_file]. *)
Inductive cell : Type :=
| CStr (s : string)
| CVal (v : ndval).

Record OutFrame : Type := mkOut {
  out_index : nat;
  out_columns : list (string * list cell)
}.

Section Results.

Set Default Proof Using "Type".

(** Types owned by the acquisition, model and quantification modules. *)
Variables MRS FID Spectrum BasePoly PpmLim TissueFractions T2Info QuantInfo : Type.

(** ** The result object

    The attributes [residuals], [corr], [mse], [FWHM] and [SNR], which
    [loadResults] obtains from other modules and no method below writes, are
    left out. Attributes that Python leaves undefined until [loadResults]
    runs hold an empty placeholder before it. *)
Record FitRes : Type := mkFitRes {
  metabs : list string;
  original_metabs : list string;
  numMetabs : nat;
  params_names : list string;
  g : nat;
  metab_groups : option (list nat);
  model : string;
  method : string;
  ppmlim : PpmLim;
  baseline_order : nat;
  base_poly : BasePoly;
  concScalings : ConcScalings;
  fitResults : DataFrame;
  params : list float;
  pred : option FID;
  baseline : option FID;
  cov : list (list float);
  crlb : list float;
  perc_SD : list float;
  mcmc_cov : option (list (list float));
  mcmc_cor : option (list (list float));
  mcmc_var : option (list float);
  hzperppm : float;
  intrefstr : option string;
  referenceMetab : option (list string);
  waterReferenceMetab : option string;
  waterReferenceMetabProtons : option Z
}.

Definition set_metabs (v : list string) (s : FitRes) : FitRes :=
  {| metabs := v; original_metabs := original_metabs s;
     numMetabs := numMetabs s; params_names := params_names s; g := g s;
     metab_groups := metab_groups s; model := model s; method := method s;
     ppmlim := ppmlim s; baseline_order := baseline_order s;
     base_poly := base_poly s; concScalings := concScalings s;
     fitResults := fitResults s; params := params s; pred := pred s;
     baseline := baseline s; cov := cov s; crlb := crlb s;
     perc_SD := perc_SD s; mcmc_cov := mcmc_cov s; mcmc_cor := mcmc_cor s;
     mcmc_var := mcmc_var s; hzperppm := hzperppm s;
     intrefstr := intrefstr s; referenceMetab := referenceMetab s;
     waterReferenceMetab := waterReferenceMetab s;
     waterReferenceMetabProtons := waterReferenceMetabProtons s |}.

Definition set_original_metabs (v : list string) (s : FitRes) : FitRes :=
  {| metabs := metabs s; original_metabs := v; numMetabs := numMetabs s;
     params_names := params_names s; g := g s;
     metab_groups := metab_groups s; model := model s; method := method s;
     ppmlim := ppmlim s; baseline_order := baseline_order s;
     base_poly := base_poly s; concScalings := concScalings s;
     fitResults := fitResults s; params := params s; pred := pred s;
     baseline := baseline s; cov := cov s; crlb := crlb s;
     perc_SD := perc_SD s; mcmc_cov := mcmc_cov s; mcmc_cor := mcmc_cor s;
     mcmc_var := mcmc_var s; hzperppm := hzperppm s;
     intrefstr := intrefstr s; referenceMetab := referenceMetab s;
     waterReferenceMetab := waterReferenceMetab s;
     waterReferenceMetabProtons := waterReferenceMetabProtons s |}.

Definition set_numMetabs (v : nat) (s : FitRes) : FitRes :=
  {| metabs := metabs s; original_metabs := original_metabs s;
     numMetabs := v; params_names := params_names s; g := g s;
     metab_groups := metab_groups s; model := model s; method := method s;
     ppmlim := ppmlim s; baseline_order := baseline_order s;
     base_poly := base_poly s; concScalings := concScalings s;
     fitResults := fitResults s; params := params s; pred := pred s;
     baseline := baseline s; cov := cov s; crlb := crlb s;
     perc_SD := perc_SD s; mcmc_cov := mcmc_cov s; mcmc_cor := mcmc_cor s;
     mcmc_var := mcmc_var s; hzperppm := hzperppm s;
     intrefstr := intrefstr s; referenceMetab := referenceMetab s;
     waterReferenceMetab := waterReferenceMetab s;
     waterReferenceMetabProtons := waterReferenceMetabProtons s |}.

Definition set_params_names (v : list string) (s : FitRes) : FitRes :=
  {| metabs := metabs s; original_metabs := original_metabs s;
     numMetabs := numMetabs s; params_names := v; g := g s;
     metab_groups := metab_groups s; model := model s; method := method s;
     ppmlim := ppmlim s; baseline_order := baseline_order s;
     base_poly := base_poly s; concScalings := concScalings s;
     fitResults := fitResults s; params := params s; pred := pred s;
     baseline := baseline s; cov := cov s; crlb := crlb s;
     perc_SD := perc_SD s; mcmc_cov := mcmc_cov s; mcmc_cor := mcmc_cor s;
     mcmc_var := mcmc_var s; hzperppm := hzperppm s;
     intrefstr := intrefstr s; referenceMetab := referenceMetab s;
     waterReferenceMetab := waterReferenceMetab s;
     waterReferenceMetabProtons := waterReferenceMetabProtons s |}.

Definition set_g (v : nat) (s : FitRes) : FitRes :=
  {| metabs := metabs s; original_metabs := original_metabs s;
     numMetabs := numMetabs s; params_names := params_names s; g := v;
     metab_groups := metab_groups s; model := model s; method := method s;
     ppmlim := ppmlim s; baseline_order := baseline_order s;
     base_poly := base_poly s; concScalings := concScalings s;
     fitResults := fitResults s; params := params s; pred := pred s;
     baseline := baseline s; cov := cov s; crlb := crlb s;
     perc_SD := perc_SD s; mcmc_cov := mcmc_cov s; mcmc_cor := mcmc_cor s;
     mcmc_var := mcmc_var s; hzperppm := hzperppm s;
     intrefstr := intrefstr s; referenceMetab := referenceMetab s;
     waterReferenceMetab := waterReferenceMetab s;
     waterReferenceMetabProtons := waterReferenceMetabProtons s |}.

Definition set_metab_groups (v : option (list nat)) (s : FitRes) : FitRes :=
  {| metabs := metabs s; original_metabs := original_metabs s;
     numMetabs := numMetabs s; params_names := params_names s; g := g s;
     metab_groups := v; model := model s; method := method s;
     ppmlim := ppmlim s; baseline_order := baseline_order s;
     base_poly := base_poly s; concScalings := concScalings s;
     fitResults := fitResults s; params := params s; pred := pred s;
     baseline := baseline s; cov := cov s; crlb := crlb s;
     perc_SD := perc_SD s; mcmc_cov := mcmc_cov s; mcmc_cor := mcmc_cor s;
     mcmc_var := mcmc_var s; hzperppm := hzperppm s;
     intrefstr := intrefstr s; referenceMetab := referenceMetab s;
     waterReferenceMetab := waterReferenceMetab s;
     waterReferenceMetabProtons := waterReferenceMetabProtons s |}.

Definition set_concScalings (v : ConcScalings) (s : FitRes) : FitRes :=
  {| metabs := metabs s; original_metabs := original_metabs s;
     numMetabs := numMetabs s; params_names := params_names s; g := g s;
     metab_groups := metab_groups s; model := model s; method := method s;
     ppmlim := ppmlim s; baseline_order := baseline_order s;
     base_poly := base_poly s; concScalings := v; fitResults := fitResults s;
     params := params s; pred := pred s; baseline := baseline s;
     cov := cov s; crlb := crlb s; perc_SD := perc_SD s;
     mcmc_cov := mcmc_cov s; mcmc_cor := mcmc_cor s; mcmc_var := mcmc_var s;
     hzperppm := hzperppm s; intrefstr := intrefstr s;
     referenceMetab := referenceMetab s;
     waterReferenceMetab := waterReferenceMetab s;
     waterReferenceMetabProtons := waterReferenceMetabProtons s |}.

Definition set_fitResults (v : DataFrame) (s : FitRes) : FitRes :=
  {| metabs := metabs s; original_metabs := original_metabs s;
     numMetabs := numMetabs s; params_names := params_names s; g := g s;
     metab_groups := metab_groups s; model := model s; method := method s;
     ppmlim := ppmlim s; baseline_order := baseline_order s;
     base_poly := base_poly s; concScalings := concScalings s;
     fitResults := v; params := params s; pred := pred s;
     baseline := baseline s; cov := cov s; crlb := crlb s;
     perc_SD := perc_SD s; mcmc_cov := mcmc_cov s; mcmc_cor := mcmc_cor s;
     mcmc_var := mcmc_var s; hzperppm := hzperppm s;
     intrefstr := intrefstr s; referenceMetab := referenceMetab s;
     waterReferenceMetab := waterReferenceMetab s;
     waterReferenceMetabProtons := waterReferenceMetabProtons s |}.

Definition set_params (v : list float) (s : FitRes) : FitRes :=
  {| metabs := metabs s; original_metabs := original_metabs s;
     numMetabs := numMetabs s; params_names := params_names s; g := g s;
     metab_groups := metab_groups s; model := model s; method := method s;
     ppmlim := ppmlim s; baseline_order := baseline_order s;
     base_poly := base_poly s; concScalings := concScalings s;
     fitResults := fitResults s; params := v; pred := pred s;
     baseline := baseline s; cov := cov s; crlb := crlb s;
     perc_SD := perc_SD s; mcmc_cov := mcmc_cov s; mcmc_cor := mcmc_cor s;
     mcmc_var := mcmc_var s; hzperppm := hzperppm s;
     intrefstr := intrefstr s; referenceMetab := referenceMetab s;
     waterReferenceMetab := waterReferenceMetab s;
     waterReferenceMetabProtons := waterReferenceMetabProtons s |}.

Definition set_pred (v : option FID) (s : FitRes) : FitRes :=
  {| metabs := metabs s; original_metabs := original_metabs s;
     numMetabs := numMetabs s; params_names := params_names s; g := g s;
     metab_groups := metab_groups s; model := model s; method := method s;
     ppmlim := ppmlim s; baseline_order := baseline_order s;
     base_poly := base_poly s; concScalings := concScalings s;
     fitResults := fitResults s; params := params s; pred := v;
     baseline := baseline s; cov := cov s; crlb := crlb s;
     perc_SD := perc_SD s; mcmc_cov := mcmc_cov s; mcmc_cor := mcmc_cor s;
     mcmc_var := mcmc_var s; hzperppm := hzperppm s;
     intrefstr := intrefstr s; referenceMetab := referenceMetab s;
     waterReferenceMetab := waterReferenceMetab s;
     waterReferenceMetabProtons := waterReferenceMetabProtons s |}.

Definition set_baseline (v : option FID) (s : FitRes) : FitRes :=
  {| metabs := metabs s; original_metabs := original_metabs s;
     numMetabs := numMetabs s; params_names := params_names s; g := g s;
     metab_groups := metab_groups s; model := model s; method := method s;
     ppmlim := ppmlim s; baseline_order := baseline_order s;
     base_poly := base_poly s; concScalings := concScalings s;
     fitResults := fitResults s; params := params s; pred := pred s;
     baseline := v; cov := cov s; crlb := crlb s; perc_SD := perc_SD s;
     mcmc_cov := mcmc_cov s; mcmc_cor := mcmc_cor s; mcmc_var := mcmc_var s;
     hzperppm := hzperppm s; intrefstr := intrefstr s;
     referenceMetab := referenceMetab s;
     waterReferenceMetab := waterReferenceMetab s;
     waterReferenceMetabProtons := waterReferenceMetabProtons s |}.

Definition set_cov (v : list (list float)) (s : FitRes) : FitRes :=
  {| metabs := metabs s; original_metabs := original_metabs s;
     numMetabs := numMetabs s; params_names := params_names s; g := g s;
     metab_groups := metab_groups s; model := model s; method := method s;
     ppmlim := ppmlim s; baseline_order := baseline_order s;
     base_poly := base_poly s; concScalings := concScalings s;
     fitResults := fitResults s; params := params s; pred := pred s;
     baseline := baseline s; cov := v; crlb := crlb s; perc_SD := perc_SD s;
     mcmc_cov := mcmc_cov s; mcmc_cor := mcmc_cor s; mcmc_var := mcmc_var s;
     hzperppm := hzperppm s; intrefstr := intrefstr s;
     referenceMetab := referenceMetab s;
     waterReferenceMetab := waterReferenceMetab s;
     waterReferenceMetabProtons := waterReferenceMetabProtons s |}.

Definition set_crlb (v : list float) (s : FitRes) : FitRes :=
  {| metabs := metabs s; original_metabs := original_metabs s;
     numMetabs := numMetabs s; params_names := params_names s; g := g s;
     metab_groups := metab_groups s; model := model s; method := method s;
     ppmlim := ppmlim s; baseline_order := baseline_order s;
     base_poly := base_poly s; concScalings := concScalings s;
     fitResults := fitResults s; params := params s; pred := pred s;
     baseline := baseline s; cov := cov s; crlb := v; perc_SD := perc_SD s;
     mcmc_cov := mcmc_cov s; mcmc_cor := mcmc_cor s; mcmc_var := mcmc_var s;
     hzperppm := hzperppm s; intrefstr := intrefstr s;
     referenceMetab := referenceMetab s;
     waterReferenceMetab := waterReferenceMetab s;
     waterReferenceMetabProtons := waterReferenceMetabProtons s |}.

Definition set_perc_SD (v : list float) (s : FitRes) : FitRes :=
  {| metabs := metabs s; original_metabs := original_metabs s;
     numMetabs := numMetabs s; params_names := params_names s; g := g s;
     metab_groups := metab_groups s; model := model s; method := method s;
     ppmlim := ppmlim s; baseline_order := baseline_order s;
     base_poly := base_poly s; concScalings := concScalings s;
     fitResults := fitResults s; params := params s; pred := pred s;
     baseline := baseline s; cov := cov s; crlb := crlb s; perc_SD := v;
     mcmc_cov := mcmc_cov s; mcmc_cor := mcmc_cor s; mcmc_var := mcmc_var s;
     hzperppm := hzperppm s; intrefstr := intrefstr s;
     referenceMetab := referenceMetab s;
     waterReferenceMetab := waterReferenceMetab s;
     waterReferenceMetabProtons := waterReferenceMetabProtons s |}.

Definition set_hzperppm (v : float) (s : FitRes) : FitRes :=
  {| metabs := metabs s; original_metabs := original_metabs s;
     numMetabs := numMetabs s; params_names := params_names s; g := g s;
     metab_groups := metab_groups s; model := model s; method := method s;
     ppmlim := ppmlim s; baseline_order := baseline_order s;
     base_poly := base_poly s; concScalings := concScalings s;
     fitResults := fitResults s; params := params s; pred := pred s;
     baseline := baseline s; cov := cov s; crlb := crlb s;
     perc_SD := perc_SD s; mcmc_cov := mcmc_cov s; mcmc_cor := mcmc_cor s;
     mcmc_var := mcmc_var s; hzperppm := v; intrefstr := intrefstr s;
     referenceMetab := referenceMetab s;
     waterReferenceMetab := waterReferenceMetab s;
     waterReferenceMetabProtons := waterReferenceMetabProtons s |}.

Definition set_mcmc (c r : option (list (list float))) (v : option (list float))
  (s : FitRes) : FitRes :=
  {| metabs := metabs s; original_metabs := original_metabs s;
     numMetabs := numMetabs s; params_names := params_names s; g := g s;
     metab_groups := metab_groups s; model := model s; method := method s;
     ppmlim := ppmlim s; baseline_order := baseline_order s;
     base_poly := base_poly s; concScalings := concScalings s;
     fitResults := fitResults s; params := params s; pred := pred s;
     baseline := baseline s; cov := cov s; crlb := crlb s;
     perc_SD := perc_SD s; mcmc_cov := c; mcmc_cor := r; mcmc_var := v;
     hzperppm := hzperppm s; intrefstr := intrefstr s;
     referenceMetab := referenceMetab s;
     waterReferenceMetab := waterReferenceMetab s;
     waterReferenceMetabProtons := waterReferenceMetabProtons s |}.

Definition set_reference (i : string) (r : list string) (w : string) (p : Z)
  (s : FitRes) : FitRes :=
  {| metabs := metabs s; original_metabs := original_metabs s;
     numMetabs := numMetabs s; params_names := params_names s; g := g s;
     metab_groups := metab_groups s; model := model s; method := method s;
     ppmlim := ppmlim s; baseline_order := baseline_order s;
     base_poly := base_poly s; concScalings := concScalings s;
     fitResults := fitResults s; params := params s; pred := pred s;
     baseline := baseline s; cov := cov s; crlb := crlb s;
     perc_SD := perc_SD s; mcmc_cov := mcmc_cov s; mcmc_cor := mcmc_cor s;
     mcmc_var := mcmc_var s; hzperppm := hzperppm s; intrefstr := Some i;
     referenceMetab := Some r; waterReferenceMetab := Some w;
     waterReferenceMetabProtons := Some p |}.

(** ** Methods as computations over the object *)

Definition M (A : Type) : Type := FitRes -> outcome A * FitRes.

Definition ret {A} (a : A) : M A := fun s => (Ok a, s).
Definition raise {A} (e : exn) : M A := fun s => (Raise e, s).
Definition bind {A B} (m : M A) (k : A -> M B) : M B :=
  fun s => match m s with
           | (Ok a, s') => k a s'
           | (Raise e, s') => (Raise e, s')
           end.
Definition get : M FitRes := fun s => (Ok s, s).
Definition modify (f : FitRes -> FitRes) : M unit := fun s => (Ok tt, f s).
Definition lift {A} (o : outcome A) : M A := fun s => (o, s).

Notation "x <- m ;; k" := (bind m (fun x => k))
  (at level 100, m at next level, right associativity, only parsing).
Notation "m ;;; k" := (bind m (fun _ => k))
  (at level 100, right associativity, only parsing).

(** [for x in l: body(x)] *)
Fixpoint for_each {A} (body : A -> M unit) (l : list A) : M unit :=
  match l with
  | [] => ret tt
  | x :: r => body x ;;; for_each body r
  end.

(** A loop that threads local variables [b] through its iterations. *)
Fixpoint for_fold {A B} (body : B -> A -> M B) (l : list A) (b : B) : M B :=
  match l with
  | [] => ret b
  | x :: r => b' <- body b x ;; for_fold body r b'
  end.

(** [[f(x) for x in l]] *)
Fixpoint for_list {A B} (f : A -> M B) (l : list A) : M (list B) :=
  match l with
  | [] => ret []
  | x :: r => y <- f x ;; ys <- for_list f r ;; ret (y :: ys)
  end.

(** ** Code of other modules *)

(** pandas: [Series.mean], [DataFrame.cov/corr/var]. *)
Variable series_mean : list float -> float.
Variables df_cov df_corr : DataFrame -> list (list float).
Variable df_var : DataFrame -> list float.
(** misc: [calculate_lap_cov(params, forward_lim, data)], the forward model
    and the data being fixed by the model kind, the baseline basis, the
    groups, the ppm window and the acquisition. *)
Variable calculate_lap_cov :
  string -> BasePoly -> option (list nat) -> nat -> PpmLim -> MRS ->
  list float -> list (list float).
(** models and misc: [getFittedModel], [SpecToFID]. *)
Variable getFittedModel :
  string -> list float -> BasePoly -> option (list nat) -> MRS ->
  fit_request -> Spectrum.
Variable SpecToFID : Spectrum -> FID.
Variable centralFrequency : MRS -> float.
(** quantify *)
Variable quantifyInternal : list string -> ndarray -> list string -> outcome float.
Variable loadDefaultQuantificationInfo : float -> TissueFractions -> float -> QuantInfo.
Variable QuantificationInfo : float -> T2Info -> TissueFractions -> QuantInfo.
Variable quantifyWater :
  MRS -> FID -> FID -> string -> ndarray -> list string -> Z -> QuantInfo ->
  float * float -> bool -> outcome (float * float).
(** numpy: the inner product behind [@], the sum of the products of the
    entries of two float64 sequences of the same length. In which order and
    grouping the products are added up, and where the sum is rounded, is the
    linear-algebra routine's own, and [vector @ matrix] and
    [vector @ vector] go through different routines: one parameter each. *)
Variable np_matmul_inner : list float -> list float -> float.
Variable np_dot_inner : list float -> list float -> float.

(** [v @ m] for a vector and a matrix whose row count is [length v]: entry
    [k] is the inner product of [v] with column [k] of [m]. *)
Definition vecmat (v : list float) (m : list (list float)) : list float :=
  map (fun k => np_matmul_inner v (map (fun row => nth k row fzero) m))
      (seq 0 (ncols m)).

(** [a @ b] for two vectors. *)
Definition vdot (a b : list float) : outcome float :=
  if (length a =? length b)%nat then Ok (np_dot_inner a b)
  else Raise (ValueError "matmul: mismatch in core dimension").

(** [j @ cov @ j]: numpy evaluates [(j @ cov) @ j]. *)
Definition quad_form (j : list float) (cov : list (list float)) : outcome float :=
  vdot (vecmat j cov) j.

(** [df.mean().values]: one mean per column, in column order. *)
Definition df_mean (df : DataFrame) : list float :=
  map (fun c => series_mean (snd c)) (columns df).

(** [function='mean'], the accessors' default. *)
Definition fn_mean : summary := Some (fun c => Scalar (series_mean c)).

(** ** fill_names *)

(** [max(l)] of a list of group indices; the empty list raises. *)
Definition py_max (l : list nat) : outcome nat :=
  match l with
  | [] => Raise (ValueError "max() arg is an empty sequence")
  | x :: r => Ok (fold_left Nat.max r x)
  end.

Definition fill_names (names : list string) (baseline_order : nat)
  (metab_groups : option (list nat)) : M unit :=
  modify (set_metabs names) ;;;
  modify (set_original_metabs names) ;;;
  modify (set_numMetabs (length names)) ;;;
  modify (set_params_names names) ;;;
  g <- match metab_groups with
       | None => ret 1
       | Some l => m <- lift (py_max l) ;; ret (m + 1)
       end ;;
  modify (set_g g) ;;;
  modify (set_metab_groups metab_groups) ;;;
  for_each (fun i => s <- get ;;
              modify (set_params_names (params_names s ++ ["gamma_" +:+ pretty i])))
           (seq 0 g) ;;;
  for_each (fun i => s <- get ;;
              modify (set_params_names (params_names s ++ ["eps_" +:+ pretty i])))
           (seq 0 g) ;;;
  s <- get ;;
  modify (set_params_names (params_names s ++ ["Phi0"; "Phi1"])) ;;;
  for_each (fun i => s <- get ;;
              modify (set_params_names (params_names s ++ ["B_real_" +:+ pretty i])) ;;;
              s <- get ;;
              modify (set_params_names (params_names s ++ ["B_imag_" +:+ pretty i])))
           (seq 0 (baseline_order + 1)).

(** [__init__]: the object before it is initialised has no attribute; the
    placeholder below stands for it. *)
Definition blank (model method : string) (ppmlim : PpmLim) (B : BasePoly) : FitRes :=
  {| metabs := []; original_metabs := []; numMetabs := 0; params_names := [];
     g := 0; metab_groups := None; model := model; method := method;
     ppmlim := ppmlim; baseline_order := 0; base_poly := B;
     concScalings := concScalings_unset;
     fitResults := mkDF 0 []; params := []; pred := None; baseline := None;
     cov := []; crlb := []; perc_SD := [];
     mcmc_cov := None; mcmc_cor := None; mcmc_var := None; hzperppm := fzero;
     intrefstr := None; referenceMetab := None; waterReferenceMetab := None;
     waterReferenceMetabProtons := None |}.

Definition set_baseline_order (v : nat) (s : FitRes) : FitRes :=
  {| metabs := metabs s; original_metabs := original_metabs s;
     numMetabs := numMetabs s; params_names := params_names s; g := g s;
     metab_groups := metab_groups s; model := model s; method := method s;
     ppmlim := ppmlim s; baseline_order := v; base_poly := base_poly s;
     concScalings := concScalings s; fitResults := fitResults s;
     params := params s; pred := pred s; baseline := baseline s;
     cov := cov s; crlb := crlb s; perc_SD := perc_SD s;
     mcmc_cov := mcmc_cov s; mcmc_cor := mcmc_cor s; mcmc_var := mcmc_var s;
     hzperppm := hzperppm s; intrefstr := intrefstr s;
     referenceMetab := referenceMetab s;
     waterReferenceMetab := waterReferenceMetab s;
     waterReferenceMetabProtons := waterReferenceMetabProtons s |}.

Definition init (model method : string) (names : list string)
  (metab_groups : option (list nat)) (baseline_order : nat) (B : BasePoly)
  (ppmlim : PpmLim) : outcome unit * FitRes :=
  (fill_names names baseline_order metab_groups ;;;
   modify (set_baseline_order baseline_order) ;;;
   modify (set_concScalings concScalings_unset))
    (blank model method ppmlim B).

(** ** predictedFID *)

Definition invalid_mode : exn :=
  ValueError "Unknown mode, must be one of: Full, baseline or a metabolite name.".

(** The [if/elif] chain of [predictedFID]: which reconstruction a mode
    string asks for. *)
Definition select_mode (mode : string) (noBaseline : bool) (metabs : list string)
  : outcome fit_request :=
  if String.eqb (lower mode) "full" then Ok (FullModel noBaseline)
  else if String.eqb (lower mode) "baseline" then Ok BaselineOnly
  else if inb mode metabs then Ok (BasisSelect mode noBaseline)
  else Raise invalid_mode.

Definition predictedFID (mrs : MRS) (mode : string) (noBaseline : bool) : M FID :=
  s <- get ;;
  req <- lift (select_mode mode noBaseline (metabs s)) ;;
  ret (SpecToFID (getFittedModel (model s) (params s) (base_poly s)
                                 (metab_groups s) mrs req)).

(** ** getConc *)

Definition dfFunc (function : summary) (m : string) : M ndval :=
  s <- get ;;
  col <- lift (df_getitem m (fitResults s)) ;;
  ret (match function with
       | None => Arr col
       | Some f => f col
       end).

Definition not_recognised (metab : string) : exn :=
  ValueError (metab +:+ " is not a recognised metabolite.").
Definition internal_not_calculated : exn :=
  ValueError "Internal concetration scaling not calculated, run calculateConcScaling method.".
Definition molality_not_calculated : exn :=
  ValueError "Molality concetration scaling not calculated, run calculateConcScaling method.".
Definition molarity_not_calculated : exn :=
  ValueError "Molarity concetration scaling not calculated, run calculateConcScaling method.".
Definition unrecognised_scaling (scaling : string) : exn :=
  ValueError ("Unrecognised scaling value " +:+ scaling +:+ ".").

Definition scaled (rawConc : ndarray) (k : option float) (e : exn) : M ndarray :=
  match k with
  | None => raise e
  | Some x => ret (ndarray_mul rawConc x)
  end.

Definition getConc (scaling : string) (metab : option string) (function : summary)
  : M ndarray :=
  rawConc <- match metab with
             | Some m =>
                 s <- get ;;
                 if inb m (metabs s)
                 then v <- dfFunc function m ;; ret (Item v)
                 else raise (not_recognised m)
             | None =>
                 s <- get ;;
                 vs <- for_list (dfFunc function) (metabs s) ;;
                 ret (Stack vs)
             end ;;
  s <- get ;;
  if String.eqb scaling "raw" then ret rawConc
  else if String.eqb scaling "internal"
  then scaled rawConc (internal (concScalings s)) internal_not_calculated
  else if String.eqb scaling "molality"
  then scaled rawConc (molality (concScalings s)) molality_not_calculated
  else if String.eqb scaling "molarity"
  then scaled rawConc (molarity (concScalings s)) molarity_not_calculated
  else raise (unrecognised_scaling scaling).

(** ** calculateConcScaling *)

Record ScalingArgs : Type := mkArgs {
  a_referenceMetab : list string;
  a_waterRefFID : option FID;
  a_tissueFractions : option TissueFractions;
  a_TE : option float;
  a_T2 : option T2Info;          (* [None] is the string ['Default'] *)
  a_waterReferenceMetab : string;
  a_wRefMetabProtons : Z;
  a_reflimits : float * float;
  a_verbose : bool
}.

Definition default_args : ScalingArgs :=
  mkArgs ["Cr"; "PCr"] None None None None "Cr" 5 (2%float, 5%float) false.

Definition f1e6 : float := 1000000%float.

Definition calculateConcScaling (mrs : MRS) (a : ScalingArgs) : M unit :=
  let intrefstr := join_plus (a_referenceMetab a) in
  modify (set_reference intrefstr (a_referenceMetab a) (a_waterReferenceMetab a)
                        (a_wRefMetabProtons a)) ;;;
  conc <- getConc "raw" None fn_mean ;;
  s <- get ;;
  internalRefScaling <- lift (quantifyInternal (a_referenceMetab a) conc (metabs s)) ;;
  match a_waterRefFID a, a_tissueFractions a, a_TE a with
  | Some waterRefFID, Some tissueFractions, Some TE =>
      refFID <- predictedFID mrs (a_waterReferenceMetab a) true ;;
      let Q := match a_T2 a with
               | None => loadDefaultQuantificationInfo TE tissueFractions
                           (PrimFloat.div (centralFrequency mrs) f1e6)
               | Some T2 => QuantificationInfo TE T2 tissueFractions
               end in
      conc' <- getConc "raw" None fn_mean ;;
      s' <- get ;;
      mm <- lift (quantifyWater mrs waterRefFID refFID (a_waterReferenceMetab a)
                                conc' (metabs s') (a_wRefMetabProtons a) Q
                                (a_reflimits a) (a_verbose a)) ;;
      modify (set_concScalings
                (mkCS (Some internalRefScaling) (Some intrefstr)
                      (Some (snd mm)) (Some (fst mm))))
  | _, _, _ =>
      modify (set_concScalings
                (mkCS (Some internalRefScaling) (Some intrefstr) None None))
  end.

(** ** loadResults *)

Definition store_mcmc : M unit :=
  s <- get ;;
  if String.eqb (method s) "MH"
  then modify (set_mcmc (Some (df_cov (fitResults s))) (Some (df_corr (fitResults s)))
                        (Some (df_var (fitResults s))))
  else ret tt.

Definition loadResults (mrs : MRS) (fit : FitInput) : M unit :=
  s <- get ;;
  df <- lift (DataFrame_of_rows (match fit with Fit1D v => [v] | Fit2D rows => rows end)
                                (params_names s)) ;;
  modify (set_fitResults df) ;;;
  modify (set_params (df_mean df)) ;;;
  p <- predictedFID mrs "Full" false ;;
  modify (set_pred (Some p)) ;;;
  b <- predictedFID mrs "Baseline" false ;;
  modify (set_baseline (Some b)) ;;;
  s <- get ;;
  let c := calculate_lap_cov (model s) (base_poly s) (metab_groups s) (g s)
                             (ppmlim s) mrs (params s) in
  modify (set_cov c) ;;;
  (* the diagonal of the transpose is the diagonal *)
  modify (set_crlb (np_diagonal c)) ;;;
  s <- get ;;
  perc <- lift (compute_perc_SD (crlb s) (params s)) ;;
  modify (set_perc_SD perc) ;;;
  store_mcmc ;;;
  modify (set_hzperppm (PrimFloat.div (centralFrequency mrs) f1e6)) ;;;
  s <- get ;;
  if inb "Cr" (metabs s) && inb "PCr" (metabs s)
  then calculateConcScaling mrs default_args
  else ret tt.

(** ** combine *)

Definition not_found (metab : string) : exn :=
  ValueError ("Metabolites to combine must be in res.metabs. " +:+ metab +:+ " not found.").

(** One pass of the inner loop, on the locals [(ds, jac)]. *)
Definition combine_metab (acc : list float * list float) (metab : string)
  : M (list float * list float) :=
  s <- get ;;
  if inb metab (metabs s)
  then
    col <- lift (df_getitem metab (fitResults s)) ;;
    let ds := zip_with PrimFloat.add (fst acc) col in
    index <- lift (match index_of metab (metabs s) with
                   | Some i => Ok i
                   | None => Raise (ValueError (metab +:+ " is not in list"))
                   end) ;;
    jac <- lift (np_setitem (snd acc) index fone) ;;
    ret (ds, jac)
  else raise (not_found metab).

(** One pass of the outer loop: one group of [combineList]. *)
Definition combine_group (toComb : list string) : M unit :=
  s <- get ;;
  let newstr := join_plus toComb in
  let ds := np_zeros (nrows (fitResults s)) in
  let jac := np_zeros (length (cov s)) in
  acc <- for_fold combine_metab toComb (ds, jac) ;;
  s <- get ;;
  modify (set_fitResults (df_setitem newstr (fst acc) (fitResults s))) ;;;
  s <- get ;;
  modify (set_metabs (metabs s ++ [newstr])) ;;;
  s <- get ;;
  newCRLB <- lift (quad_form (snd acc) (cov s)) ;;
  modify (set_crlb (crlb s ++ [newCRLB])).

(** What follows the outer loop. *)
Definition combine_finish : M unit :=
  s <- get ;;
  modify (set_numMetabs (length (metabs s))) ;;;
  s <- get ;;
  let params := df_mean (fitResults s) in
  perc <- lift (compute_perc_SD (crlb s) params) ;;
  modify (set_perc_SD perc) ;;;
  store_mcmc.

Definition combine (combineList : list (list string)) : M unit :=
  for_each combine_group combineList ;;;
  combine_finish.

(** ** to_file *)

Definition cell_nan : cell := CVal (Scalar nan).

Fixpoint out_set (name : string) (c : list cell) (cols : list (string * list cell))
  : list (string * list cell) :=
  match cols with
  | [] => [(name, c)]
  | (n, c0) :: r => if String.eqb n name then (n, c) :: r
                    else (n, c0) :: out_set name c r
  end.

(** [df[name] = values] on the frame being written: a frame without rows
    takes its index from the first non-empty values; afterwards the number
    of values must be the length of the index. *)
Definition out_assign (name : string) (vals : list cell) (df : OutFrame)
  : outcome OutFrame :=
  let df' := if (out_index df =? 0)%nat && negb (length vals =? 0)%nat
             then mkOut (length vals)
                        (map (fun c => (fst c, repeat cell_nan (length vals)))
                             (out_columns df))
             else df in
  if (length vals =? out_index df')%nat
  then Ok (mkOut (out_index df') (out_set name vals (out_columns df')))
  else Raise (ValueError "Length of values does not match length of index").

Definition cells_of (a : ndarray) : list cell :=
  match a with
  | Item v => [CVal v]
  | Stack vs => map CVal vs
  end.

Definition num_cells (a : list float) : list cell :=
  map (fun x => CVal (Scalar x)) a.

(** A column written only when its scaling is set. *)
Definition optional_column (k : option float) (name scaling : string) (df : OutFrame)
  : M OutFrame :=
  match k with
  | Some _ => c <- getConc scaling None fn_mean ;;
              lift (out_assign name (cells_of c) df)
  | None => ret df
  end.

(** The frame handed to [to_csv]. *)
Definition to_file (what : string) : M OutFrame :=
  let df := mkOut 0 [] in
  if String.eqb what "concentrations"
  then
    s <- get ;;
    df <- lift (out_assign "Metab" (map CStr (metabs s)) df) ;;
    raw <- getConc "raw" None fn_mean ;;
    df <- lift (out_assign "Raw conc" (cells_of raw) df) ;;
    s <- get ;;
    df <- optional_column (internal (concScalings s))
            ("/" +:+ match internalRef (concScalings s) with
                     | Some r => r
                     | None => "None"
                     end) "internal" df ;;
    s <- get ;;
    df <- optional_column (molality (concScalings s)) "mMol/kg" "molality" df ;;
    s <- get ;;
    df <- optional_column (molarity (concScalings s)) "mM" "molarity" df ;;
    s <- get ;;
    lift (out_assign "%CRLB" (num_cells (firstn (numMetabs s) (perc_SD s))) df)
  else if String.eqb what "qc" then ret df
  else if String.eqb what "parameters"
  then
    s <- get ;;
    df <- lift (out_assign "Name" (map CStr (params_names s)) df) ;;
    s <- get ;;
    lift (out_assign "Value" (num_cells (df_mean (fitResults s))) df)
  else ret df.

(** ** getPhaseParams, getShiftParams, getLineShapeParams *)

(** A Python value held in a local variable of an accessor: either the
    array [df[column].values], a view of the table's memory, or an object of
    its own (what [Series.apply] returns: a scalar or a new series). *)
Inductive pyval : Type :=
| View (column : string)
| Own (v : ndval).

(** [df[name].values] when [function is None], else [df[name].apply(function)]. *)
Definition fetch (function : summary) (name : string) : M pyval :=
  s <- get ;;
  col <- lift (df_getitem name (fitResults s)) ;;
  ret (match function with
       | None => View name
       | Some f => Own (f col)
       end).

(** [p *= k]. On an array numpy multiplies in place, so through a view
    the table's column is overwritten; a scalar is rebound to the product. *)
Definition imul (p : pyval) (k : float) : M pyval :=
  match p with
  | View c =>
      s <- get ;;
      col <- lift (df_getitem c (fitResults s)) ;;
      modify (set_fitResults
                (df_setitem c (map (fun x => PrimFloat.mul x k) col) (fitResults s))) ;;;
      ret (View c)
  | Own v => ret (Own (ndval_mul v k))
  end.

Definition value_of (p : pyval) : M ndval :=
  match p with
  | View c => s <- get ;;
              col <- lift (df_getitem c (fitResults s)) ;;
              ret (Arr col)
  | Own v => ret v
  end.

Definition deg_factor : float := PrimFloat.div np_pi 180%float.
Definition sec_factor : float := PrimFloat.div 1%float (PrimFloat.mul 2%float np_pi).
Definition per_deg : float := PrimFloat.div 180%float np_pi.

Definition getPhaseParams (phi0 phi1 : string) (function : summary)
  : M (ndval * ndval) :=
  p0 <- fetch function "Phi0" ;;
  p1 <- fetch function "Phi1" ;;
  p0 <- (if String.eqb (lower phi0) "degrees" then imul p0 deg_factor
         else if String.eqb (lower phi0) "radians" then ret p0
         else raise (ValueError "phi0 must be degrees or radians")) ;;
  p1 <- (if String.eqb (lower phi1) "seconds" then imul p1 sec_factor
         else if String.eqb (lower phi1) "deg_per_ppm"
         then s <- get ;; imul p1 (PrimFloat.mul per_deg (hzperppm s))
         else if String.eqb (lower phi1) "deg_per_hz"
         then imul p1 (PrimFloat.mul per_deg 1%float)
         else raise (ValueError "phi1 must be seconds or deg_per_ppm or deg_per_hz ")) ;;
  v0 <- value_of p0 ;;
  v1 <- value_of p1 ;;
  ret (v0, v1).

(** The per-group parameters [prefix_0 .. prefix_{g-1}]: with
    [function is None] a fresh [samples x groups] array filled column by
    column, else the array of the summaries. *)
Definition group_params (prefix : string) (function : summary) : M ndarray :=
  s <- get ;;
  match function with
  | None =>
      cols <- for_list (fun i => lift (df_getitem (prefix +:+ pretty i) (fitResults s)))
                       (seq 0 (g s)) ;;
      ret (Stack (map (fun r => Arr (map (fun c => nth r c fzero) cols))
                      (seq 0 (nrows (fitResults s)))))
  | Some f =>
      vs <- for_list (fun i => c <- lift (df_getitem (prefix +:+ pretty i) (fitResults s)) ;;
                               ret (f c))
                     (seq 0 (g s)) ;;
      ret (Stack vs)
  end.

Definition getShiftParams (units : string) (function : summary) : M ndarray :=
  shiftParams <- group_params "eps_" function ;;
  s <- get ;;
  if String.eqb (lower units) "ppm"
  then ret (ndarray_mul shiftParams
              (PrimFloat.div 1%float (PrimFloat.mul (PrimFloat.mul 2%float np_pi) (hzperppm s))))
  else if String.eqb (lower units) "hz"
  then ret (ndarray_mul shiftParams sec_factor)
  else raise (ValueError "Units must be Hz or ppm.").

Definition getLineShapeParams (units : string) (function : summary)
  : M (option ndarray) :=
  s <- get ;;
  if String.eqb (model s) "lorentzian"
  then
    gamma <- group_params "gamma_" function ;;
    if String.eqb (lower units) "hz"
    then ret (Some (ndarray_mul gamma (PrimFloat.div 1%float np_pi)))
    else if String.eqb (lower units) "ppm"
    then ret (Some (ndarray_mul gamma
                      (PrimFloat.div 1%float (PrimFloat.mul np_pi (hzperppm s)))))
    else raise (ValueError "Units must be Hz or ppm.")
  else if String.eqb (model s) "voigt" then raise (PyException "TO DO.")
  else ret None.

(** ** getBaselineParams *)

(** Complex numbers are Python's and numpy's: [breal + 1j*bimag], [np.abs]
    of a complex number, and a complex number over a float. *)
Variable Complex : Type.
Variable complex_of : float -> float -> Complex.
Variable complex_abs : Complex -> float.
Variable complex_div : Complex -> float -> Complex.

(** An entry of the array [bParams]. *)
Inductive pynum : Type :=
| PyFloat (x : float)
| PyComplex (z : Complex).

(** [np.abs(v)] *)
Definition np_abs (v : pynum) : float :=
  match v with
  | PyFloat x => PrimFloat.abs x
  | PyComplex z => complex_abs z
  end.

(** [v / d], for a float [d] *)
Definition np_divide (v : pynum) (d : float) : pynum :=
  match v with
  | PyFloat x => PyFloat (PrimFloat.div x d)
  | PyComplex z => PyComplex (complex_div z d)
  end.

(** [self.fitResults[name].mean()] *)
Definition column_mean (name : string) : M float :=
  s <- get ;;
  c <- lift (df_getitem name (fitResults s)) ;;
  ret (series_mean c).

(** The loop runs [baseline_order + 1] times, so [bParams[0]] is always
    there; on an empty array it would raise an IndexError. *)
Definition getBaselineParams (complex normalise : bool) : M (list pynum) :=
  s <- get ;;
  bParams <- for_fold (fun (bParams : list pynum) (b : nat) =>
                breal <- column_mean ("B_real_" +:+ pretty b) ;;
                bimag <- column_mean ("B_imag_" +:+ pretty b) ;;
                ret (if complex
                     then bParams ++ [PyComplex (complex_of breal bimag)]
                     else bParams ++ [PyFloat breal; PyFloat bimag]))
             (seq 0 (baseline_order s + 1)) [] ;;
  if normalise
  then match bParams with
       | b0 :: _ => ret (map (fun v => np_divide v (np_abs b0)) bParams)
       | [] => raise (IndexError "index 0 is out of bounds for axis 0 with size 0")
       end
  else ret bParams.

(** ** Notions used to state the properties *)

(** A computation that never writes to the object, whether it returns or
    raises. *)
Definition readonly {A} (m : M A) : Prop := forall s, snd (m s) = s.

(** The group count the schema is built for. *)
Definition numGroups (metab_groups : option (list nat)) : nat :=
  match metab_groups with
  | None => 1
  | Some l => list_max l + 1
  end.

(** The schema of a configuration, in order. *)
Definition schema (names : list string) (groups baseline_order : nat) : list string :=
  names
  ++ map (fun i => "gamma_" +:+ pretty i) (seq 0 groups)
  ++ map (fun i => "eps_" +:+ pretty i) (seq 0 groups)
  ++ ["Phi0"; "Phi1"]
  ++ flat_map (fun i => ["B_real_" +:+ pretty i; "B_imag_" +:+ pretty i])
              (seq 0 (baseline_order + 1)).

(** The 0/1 indicator vector of a set of positions, over [n] entries. *)
Definition indicator (n : nat) (idxs : list nat) : list float :=
  map (fun i => if existsb (Nat.eqb i) idxs then fone else fzero) (seq 0 n).

(** The sum, in row [r], of the given columns, taken in order from zero. *)
Definition row_sum (cols : list (list float)) (r : nat) : float :=
  fold_left (fun acc c => PrimFloat.add acc (nth r c fzero)) cols fzero.

(** The table columns of a list of names. *)
Definition columns_of (df : DataFrame) (names : list string) : list (list float) :=
  map (fun m => default [] (assoc_get m (columns df))) names.

(** What every method leaves true of an object once [loadResults] has run:
    every table column has one entry per row, every metabolite of the list
    has its column, and the covariance matrix is square. *)
Record loaded (s : FitRes) : Prop := mkLoaded {
  ld_rows : Forall (fun c => length (snd c) = nrows (fitResults s))
                   (columns (fitResults s));
  ld_metabs : Forall (fun m => is_Some (assoc_get m (columns (fitResults s))))
                     (metabs s);
  ld_square : Forall (fun r => length r = length (cov s)) (cov s)
}.

(** The scaling factor a scaling key stands for. *)
Definition scaling_factor (c : ConcScalings) (scaling : string) : option float :=
  if String.eqb scaling "internal" then internal c
  else if String.eqb scaling "molality" then molality c
  else if String.eqb scaling "molarity" then molarity c
  else None.

Definition is_scaling_key (scaling : string) : bool :=
  String.eqb scaling "internal" || String.eqb scaling "molality"
  || String.eqb scaling "molarity".

(** The error [getConc] raises for a scaling key that is unset. *)
Definition scaling_not_computed (scaling : string) : exn :=
  if String.eqb scaling "internal" then internal_not_calculated
  else if String.eqb scaling "molality" then molality_not_calculated
  else molarity_not_calculated.

(** Whether a call of [calculateConcScaling] was given the water reference,
    the tissue fractions and the echo time, all three. *)
Definition water_supplied (a : ScalingArgs) : bool :=
  match a_waterRefFID a, a_tissueFractions a, a_TE a with
  | Some _, Some _, Some _ => true
  | _, _, _ => false
  end.

(** The part of [getConc] that gathers the raw values. *)
Definition rawConc_of (metab : option string) (function : summary) : M ndarray :=
  match metab with
  | Some m =>
      s <- get ;;
      if inb m (metabs s)
      then v <- dfFunc function m ;; ret (Item v)
      else raise (not_recognised m)
  | None =>
      s <- get ;;
      vs <- for_list (dfFunc function) (metabs s) ;;
      ret (Stack vs)
  end.

(** The raw values of a list of columns, as [getConc] gathers them. *)
Fixpoint raw_values (function : summary) (df : DataFrame) (l : list string)
  : outcome (list ndval) :=
  match l with
  | [] => Ok []
  | m :: r =>
      match assoc_get m (columns df) with
      | None => Raise (KeyError m)
      | Some col =>
          match raw_values function df r with
          | Ok vs => Ok (match function with None => Arr col | Some f => f col end :: vs)
          | Raise e => Raise e
          end
      end
  end.

(** The scaling set a call computes, read off the table, the metabolite
    list and the fit configuration; no scaling computed earlier enters. *)
Definition computed_scalings (mrs : MRS) (a : ScalingArgs) (s : FitRes)
  : outcome ConcScalings :=
  match raw_values fn_mean (fitResults s) (metabs s) with
  | Raise e => Raise e
  | Ok vs =>
      match quantifyInternal (a_referenceMetab a) (Stack vs) (metabs s) with
      | Raise e => Raise e
      | Ok k =>
          match a_waterRefFID a, a_tissueFractions a, a_TE a with
          | Some w, Some tf, Some te =>
              match select_mode (a_waterReferenceMetab a) true (metabs s) with
              | Raise e => Raise e
              | Ok req =>
                  let refFID := SpecToFID (getFittedModel (model s) (params s)
                                             (base_poly s) (metab_groups s) mrs req) in
                  let Q := match a_T2 a with
                           | None => loadDefaultQuantificationInfo te tf
                                       (PrimFloat.div (centralFrequency mrs) f1e6)
                           | Some T2 => QuantificationInfo te T2 tf
                           end in
                  match quantifyWater mrs w refFID (a_waterReferenceMetab a)
                                      (Stack vs) (metabs s) (a_wRefMetabProtons a) Q
                                      (a_reflimits a) (a_verbose a) with
                  | Ok mm => Ok (mkCS (Some k) (Some (join_plus (a_referenceMetab a)))
                                      (Some (snd mm)) (Some (fst mm)))
                  | Raise e => Raise e
                  end
              end
          | _, _, _ => Ok (mkCS (Some k) (Some (join_plus (a_referenceMetab a)))
                                None None)
          end
      end
  end.

Definition with_reference (a : ScalingArgs) (s : FitRes) : FitRes :=
  set_reference (join_plus (a_referenceMetab a)) (a_referenceMetab a)
                (a_waterReferenceMetab a) (a_wRefMetabProtons a) s.

(** The positions of the names of a group in the metabolite list. *)
Definition positions (metabs toComb : list string) : list nat :=
  flat_map (fun m => match index_of m metabs with
                     | Some i => [i]
                     | None => []
                     end) toComb.

(** The quadratic form [j . cov . j] in numpy's arithmetic: the inner
    product, with [j], of the vector whose entry [k] is the inner product of
    [j] with column [k] of [cov]. *)
Definition jcovj (j : list float) (cov : list (list float)) : float :=
  np_dot_inner
    (map (fun k => np_matmul_inner j (map (fun row => nth k row fzero) cov))
         (seq 0 (length j)))
    j.

(** The column [combine] builds for a group: the constituent columns of
    [s], added to zeros one after the other. *)
Definition combined_column (s : FitRes) (toComb : list string) : list float :=
  fold_left (fun d c => zip_with PrimFloat.add d c)
            (columns_of (fitResults s) toComb) (np_zeros (nrows (fitResults s))).

(** [t] reads, under the names and at the positions of [s], what [s] reads. *)
Definition same_base (s t : FitRes) : Prop :=
  (forall m c, assoc_get m (columns (fitResults s)) = Some c ->
               assoc_get m (columns (fitResults t)) = Some c)
  /\ (forall m i, index_of m (metabs s) = Some i -> index_of m (metabs t) = Some i)
  /\ cov t = cov s
  /\ nrows (fitResults t) = nrows (fitResults s).

(** [w] is [v] with every entry multiplied by [k]. *)
Definition val_scaled (k : float) (v w : ndval) : Prop :=
  match v, w with
  | Scalar x, Scalar y => y = PrimFloat.mul x k
  | Arr a, Arr b =>
      length b = length a
      /\ forall i x, a !! i = Some x -> b !! i = Some (PrimFloat.mul x k)
  | _, _ => False
  end.

(** [scaled] has the shape of [raw] and holds its entries multiplied by [k]. *)
Definition scaled_by (k : float) (raw scaled : ndarray) : Prop :=
  match raw, scaled with
  | Item v, Item w => val_scaled k v w
  | Stack vs, Stack ws =>
      length ws = length vs
      /\ forall i v, vs !! i = Some v -> exists w, ws !! i = Some w /\ val_scaled k v w
  | _, _ => False
  end.

(** [s'] holds everything [s] held of the schema, the metabolite list, the
    table's column names and the CRLB vector, in the same order, possibly
    with more entries after them; the schema and the covariance are the
    same. *)
Definition extends (s s' : FitRes) : Prop :=
  params_names s' = params_names s
  /\ original_metabs s' = original_metabs s
  /\ (exists ext, metabs s' = metabs s ++ ext)
  /\ (exists ext, df_names (fitResults s') = df_names (fitResults s) ++ ext)
  /\ (exists ext, crlb s' = crlb s ++ ext)
  /\ cov s' = cov s.

(** The rows of the samples. *)
Definition rows_of (fit : FitInput) : list (list float) :=
  match fit with Fit1D v => [v] | Fit2D rows => rows end.

(** What [loadResults] has written when it computes the percent-SD. *)
Definition before_perc_SD (mrs : MRS) (df : DataFrame) (s : FitRes) : FitRes :=
  let s1 := set_baseline (Some (SpecToFID (getFittedModel (model s) (df_mean df)
                                             (base_poly s) (metab_groups s) mrs
                                             BaselineOnly)))
              (set_pred (Some (SpecToFID (getFittedModel (model s) (df_mean df)
                                            (base_poly s) (metab_groups s) mrs
                                            (FullModel false))))
                 (set_params (df_mean df) (set_fitResults df s))) in
  let c := calculate_lap_cov (model s) (base_poly s) (metab_groups s) (g s)
                             (ppmlim s) mrs (df_mean df) in
  set_crlb (np_diagonal c) (set_cov c s1).

(** What it has written when it reaches the test on Cr and PCr. *)
Definition after_load (mrs : MRS) (df : DataFrame) (perc : list float) (s : FitRes)
  : FitRes :=
  let s2 := set_perc_SD perc (before_perc_SD mrs df s) in
  set_hzperppm (PrimFloat.div (centralFrequency mrs) f1e6)
    (if String.eqb (method s) "MH"
     then set_mcmc (Some (df_cov df)) (Some (df_corr df)) (Some (df_var df)) s2
     else s2).

(** The column [to_file] writes for a scaling that is set. *)
Definition scaled_column (name : string) (k : option float) (raw : list ndval)
  : list (string * list cell) :=
  match k with
  | Some x => [(name, map (fun v => CVal (ndval_mul v x)) raw)]
  | None => []
  end.

(** The table column of a per-group parameter. *)
Definition group_column (prefix : string) (df : DataFrame) (i : nat) : list float :=
  default [] (assoc_get (prefix +:+ pretty i) (columns df)).

(** What [group_params] returns when the columns are there. *)
Definition group_values (prefix : string) (function : summary) (s : FitRes) : ndarray :=
  match function with
  | None =>
      Stack (map (fun r => Arr (map (fun i => nth r (group_column prefix (fitResults s) i)
                                               fzero)
                                    (seq 0 (g s))))
                 (seq 0 (nrows (fitResults s))))
  | Some f => Stack (map (fun i => f (group_column prefix (fitResults s) i)) (seq 0 (g s)))
  end.

(** The factor [getShiftParams] applies for a unit. *)
Definition shift_factor (units : string) (hz : float) : option float :=
  if String.eqb (lower units) "ppm"
  then Some (PrimFloat.div 1%float (PrimFloat.mul (PrimFloat.mul 2%float np_pi) hz))
  else if String.eqb (lower units) "hz" then Some sec_factor
  else None.

(** The factor [getLineShapeParams] applies for a unit. *)
Definition width_factor (units : string) (hz : float) : option float :=
  if String.eqb (lower units) "hz" then Some (PrimFloat.div 1%float np_pi)
  else if String.eqb (lower units) "ppm"
  then Some (PrimFloat.div 1%float (PrimFloat.mul np_pi hz))
  else None.

(** The means of the two columns of a baseline order. *)
Definition mean_real (s : FitRes) (i : nat) : float :=
  series_mean (group_column "B_real_" (fitResults s) i).
Definition mean_imag (s : FitRes) (i : nat) : float :=
  series_mean (group_column "B_imag_" (fitResults s) i).

(** The entries the loop of [getBaselineParams] gathers over a list of orders. *)
Definition baseline_entries (complex : bool) (s : FitRes) (l : list nat) : list pynum :=
  flat_map (fun i => if complex
                     then [PyComplex (complex_of (mean_real s i) (mean_imag s i))]
                     else [PyFloat (mean_real s i); PyFloat (mean_imag s i)]) l.

(** The units [getPhaseParams] accepts. *)
Definition phase_units (phi0 phi1 : string) : bool :=
  (String.eqb (lower phi0) "degrees" || String.eqb (lower phi0) "radians")
  && (String.eqb (lower phi1) "seconds" || String.eqb (lower phi1) "deg_per_ppm"
      || String.eqb (lower phi1) "deg_per_hz").

(** ** The monad *)

Lemma bind_Ok {A B} (m : M A) (k : A -> M B) s a s' :
  m s = (Ok a, s') -> bind m k s = k a s'.
Proof. intros H. unfold bind. now rewrite H. Qed.

Lemma bind_Raise {A B} (m : M A) (k : A -> M B) s e s' :
  m s = (Raise e, s') -> bind m k s = (Raise e, s').
Proof. intros H. unfold bind. now rewrite H. Qed.

Lemma bind_inv_Ok {A B} (m : M A) (k : A -> M B) s b s' :
  bind m k s = (Ok b, s') ->
  exists a s1, m s = (Ok a, s1) /\ k a s1 = (Ok b, s').
Proof.
  unfold bind. destruct (m s) as [[a|e] s1]; intros H.
  - now exists a, s1.
  - discriminate.
Qed.

Lemma readonly_ret {A} (a : A) : readonly (ret a).
Proof. now intros s. Qed.

Lemma readonly_raise {A} (e : exn) : readonly (@raise A e).
Proof. now intros s. Qed.

Lemma readonly_get : readonly get.
Proof. now intros s. Qed.

Lemma readonly_lift {A} (o : outcome A) : readonly (lift o).
Proof. now intros s. Qed.

Lemma readonly_bind {A B} (m : M A) (k : A -> M B) :
  readonly m -> (forall a, readonly (k a)) -> readonly (bind m k).
Proof.
  intros Hm Hk s. unfold bind. specialize (Hm s).
  destruct (m s) as [[a|e] s1]; simpl in *; subst s1.
  - apply Hk.
  - reflexivity.
Qed.

Lemma readonly_for_list {A B} (f : A -> M B) l :
  (forall x, readonly (f x)) -> readonly (for_list f l).
Proof.
  intros Hf. induction l as [|x r IH]; simpl.
  - apply readonly_ret.
  - apply readonly_bind; [apply Hf|]. intros y.
    apply readonly_bind; [apply IH|]. intros ys. apply readonly_ret.
Qed.

Ltac readonly_step :=
  first [ apply readonly_ret | apply readonly_raise | apply readonly_get
        | apply readonly_lift
        | apply readonly_for_list; intros
        | apply readonly_bind; [| intros] ].

(** A read-only computation hands back the state it was given. *)
Lemma readonly_run {A} (m : M A) s : readonly m -> m s = (fst (m s), s).
Proof. intros H. specialize (H s). destruct (m s); simpl in *. now subst. Qed.

Lemma bind_modify {B} (f : FitRes -> FitRes) (k : unit -> M B) s :
  bind (modify f) k s = k tt (f s).
Proof. reflexivity. Qed.

Lemma bind_get {B} (k : FitRes -> M B) s : bind get k s = k s s.
Proof. reflexivity. Qed.

Lemma bind_ret {A B} (a : A) (k : A -> M B) s : bind (ret a) k s = k a s.
Proof. reflexivity. Qed.

Lemma bind_lift_Ok {A B} (a : A) (k : A -> M B) s : bind (lift (Ok a)) k s = k a s.
Proof. reflexivity. Qed.

Lemma bind_lift_Raise {A B} e (k : A -> M B) s :
  bind (lift (Raise e)) k s = (Raise e, s).
Proof. reflexivity. Qed.

Lemma bind_raise {A B} e (k : A -> M B) s : bind (raise e) k s = (Raise e, s).
Proof. reflexivity. Qed.

Lemma bind_assoc {A B C} (m : M A) (f : A -> M B) (k : B -> M C) s :
  bind (bind m f) k s = bind m (fun x => bind (f x) k) s.
Proof. unfold bind. destruct (m s) as [[a|e] s1]; reflexivity. Qed.

Ltac step :=
  first [ rewrite bind_assoc | rewrite bind_modify | rewrite bind_get | rewrite bind_ret
        | rewrite bind_lift_Ok | rewrite bind_lift_Raise | rewrite bind_raise ].

(** ** fill_names builds the schema *)

Lemma set_params_names_id s : set_params_names (params_names s) s = s.
Proof. now destruct s. Qed.

Lemma append_each (f : nat -> string) l s :
  for_each (fun i => s <- get ;;
              modify (set_params_names (params_names s ++ [f i]))) l s
  = (Ok tt, set_params_names (params_names s ++ map f l) s).
Proof.
  revert s. induction l as [|i r IH]; intros s; cbn [for_each map flat_map].
  - unfold ret. rewrite app_nil_r, set_params_names_id. reflexivity.
  - repeat step. rewrite IH. simpl.
    rewrite <- app_assoc. reflexivity.
Qed.

Lemma append_pairs (f h : nat -> string) l s :
  for_each (fun i => s <- get ;;
              modify (set_params_names (params_names s ++ [f i])) ;;;
              s <- get ;;
              modify (set_params_names (params_names s ++ [h i]))) l s
  = (Ok tt, set_params_names (params_names s ++ flat_map (fun i => [f i; h i]) l) s).
Proof.
  revert s. induction l as [|i r IH]; intros s; cbn [for_each map flat_map].
  - unfold ret. rewrite app_nil_r, set_params_names_id. reflexivity.
  - repeat step. rewrite IH. simpl.
    rewrite <- !app_assoc. reflexivity.
Qed.

Lemma py_max_list_max l : l <> [] -> py_max l = Ok (list_max l).
Proof.
  destruct l as [|x r]; [congruence|]. intros _. simpl. f_equal.
  revert x. induction r as [|y r IH]; intros x; simpl.
  - lia.
  - rewrite IH. simpl. lia.
Qed.

Lemma schema_length names groups b :
  length (schema names groups b) = length names + 2 * groups + 2 + 2 * (b + 1).
Proof.
  unfold schema. rewrite !length_app, !length_map, !length_seq. simpl.
  assert (H : forall (f h : nat -> string) l,
             length (flat_map (fun i => [f i; h i]) l) = 2 * length l).
  { intros f h l. induction l; simpl; lia. }
  rewrite H, length_seq. lia.
Qed.

(** C3. For every list of metabolite names, every baseline order and every
    group assignment -- [None], or a list of group indices, on which [max]
    is defined, so a non-empty one -- [fill_names] returns and leaves as
    parameter names the metabolite names, [gamma_0 .. gamma_{g-1}],
    [eps_0 .. eps_{g-1}], [Phi0], [Phi1], then the pairs [B_real_i],
    [B_imag_i] for [i = 0 .. baseline_order], where [g] is [max + 1] of the
    assignment, or 1 without one; their number is
    [numMetabs + 2*g + 2 + 2*(baseline_order+1)]. *)
Theorem fill_names_schema :
  forall (names : list string) (baseline_order : nat)
         (metab_groups : option (list nat)) (s : FitRes),
    metab_groups <> Some [] ->
    exists s',
      fill_names names baseline_order metab_groups s = (Ok tt, s')
      /\ params_names s' = schema names (numGroups metab_groups) baseline_order
      /\ length (params_names s')
         = length names + 2 * numGroups metab_groups + 2 + 2 * (baseline_order + 1)
      /\ metabs s' = names
      /\ numMetabs s' = length names
      /\ g s' = numGroups metab_groups.
Proof.
  intros names b mg s Hne.
  assert (Hg : (match mg with
                | None => ret 1
                | Some l => m <- lift (py_max l) ;; ret (m + 1)
                end) = ret (numGroups mg)).
  { destruct mg as [l|]; [|reflexivity].
    rewrite py_max_list_max by congruence. reflexivity. }
  unfold fill_names. rewrite Hg. clear Hg.
  repeat step.
  erewrite bind_Ok by apply append_each.
  erewrite bind_Ok by apply append_each.
  repeat step. rewrite append_pairs. simpl.
  eexists. split; [reflexivity|]. simpl.
  rewrite <- !app_assoc. fold (schema names (numGroups mg) b).
  repeat split; try reflexivity. apply schema_length.
Qed.

(** ** predictedFID: how a mode string is read *)

Lemma predictedFID_run mrs mode nb s :
  predictedFID mrs mode nb s
  = (match select_mode mode nb (metabs s) with
     | Ok req => Ok (SpecToFID (getFittedModel (model s) (params s) (base_poly s)
                                               (metab_groups s) mrs req))
     | Raise e => Raise e
     end, s).
Proof.
  unfold predictedFID. rewrite bind_get.
  destruct (select_mode mode nb (metabs s)); reflexivity.
Qed.

Lemma predictedFID_readonly mrs mode nb : readonly (predictedFID mrs mode nb).
Proof. intros s. now rewrite predictedFID_run. Qed.

(** C10. The mode strings 'full' and 'baseline' are matched up to letter
    case and before the metabolite names, which are matched exactly. A mode
    that is 'full' (respectively 'baseline') up to case gives the full-model
    (respectively baseline-only) reconstruction, also when the metabolite
    list holds that very string, and never a single-metabolite one. A mode
    that is neither, differs from a stored name [m] only in letter case and
    is not itself a stored name raises the invalid-mode error; in no case is
    the metabolite [m] selected. *)
Theorem predictedFID_mode_matching :
  forall (mrs : MRS) (s : FitRes) (mode : string) (noBaseline : bool),
    let fitted req :=
      SpecToFID (getFittedModel (model s) (params s) (base_poly s)
                                (metab_groups s) mrs req) in
    (lower mode = "full" ->
       select_mode mode noBaseline (metabs s) = Ok (FullModel noBaseline)
       /\ predictedFID mrs mode noBaseline s = (Ok (fitted (FullModel noBaseline)), s))
    /\ (lower mode = "baseline" ->
          select_mode mode noBaseline (metabs s) = Ok BaselineOnly
          /\ predictedFID mrs mode noBaseline s = (Ok (fitted BaselineOnly), s))
    /\ (forall m,
          inb m (metabs s) = true -> mode <> m -> lower mode = lower m ->
          lower mode <> "full" -> lower mode <> "baseline" ->
          select_mode mode noBaseline (metabs s) <> Ok (BasisSelect m noBaseline)
          /\ (inb mode (metabs s) = false ->
              select_mode mode noBaseline (metabs s) = Raise invalid_mode
              /\ predictedFID mrs mode noBaseline s = (Raise invalid_mode, s))).
Proof.
  intros mrs s mode nb fitted. repeat split.
  - unfold select_mode. now rewrite H, String.eqb_refl.
  - rewrite predictedFID_run. unfold select_mode. now rewrite H, String.eqb_refl.
  - unfold select_mode. rewrite H. reflexivity.
  - rewrite predictedFID_run. unfold select_mode. rewrite H. reflexivity.
  - unfold select_mode.
    apply String.eqb_neq in H2, H3. rewrite H2, H3.
    destruct (inb mode (metabs s)); congruence.
  - unfold select_mode. apply String.eqb_neq in H2, H3. now rewrite H2, H3, H4.
  - rewrite predictedFID_run. unfold select_mode.
    apply String.eqb_neq in H2, H3. now rewrite H2, H3, H4.
Qed.

(** ** getConc *)

Lemma dfFunc_readonly function m : readonly (dfFunc function m).
Proof. unfold dfFunc. repeat readonly_step. Qed.

Lemma scaled_readonly raw k e : readonly (scaled raw k e).
Proof. unfold scaled. destruct k; readonly_step. Qed.

Lemma getConc_readonly scaling metab function :
  readonly (getConc scaling metab function).
Proof.
  unfold getConc. apply readonly_bind.
  - destruct metab as [m|]; (apply readonly_bind; [apply readonly_get|intros s0]).
    + destruct (inb m (metabs s0)); [|apply readonly_raise].
      apply readonly_bind; [apply dfFunc_readonly|intros; apply readonly_ret].
    + apply readonly_bind; [|intros; apply readonly_ret].
      apply readonly_for_list. intros. apply dfFunc_readonly.
  - intros raw. apply readonly_bind; [apply readonly_get|intros s0].
    repeat (match goal with |- context [if ?b then _ else _] => destruct b end);
      first [apply scaled_readonly | readonly_step].
Qed.

Lemma dfFunc_run function m s :
  dfFunc function m s
  = (match assoc_get m (columns (fitResults s)) with
     | Some col => Ok (match function with None => Arr col | Some f => f col end)
     | None => Raise (KeyError m)
     end, s).
Proof.
  unfold dfFunc, df_getitem. rewrite bind_get.
  destruct (assoc_get m (columns (fitResults s))); reflexivity.
Qed.

(** On a loaded object the raw concentrations of the whole list are there. *)
Lemma for_list_dfFunc function s l :
  Forall (fun m => is_Some (assoc_get m (columns (fitResults s)))) l ->
  exists vs, for_list (dfFunc function) l s = (Ok vs, s).
Proof.
  induction 1 as [|m r [col Hm] _ [vs IH]]; simpl.
  - now exists [].
  - erewrite bind_Ok by (rewrite dfFunc_run, Hm; reflexivity).
    erewrite bind_Ok by exact IH. eexists. reflexivity.
Qed.

Lemma inb_In x l : inb x l = true <-> In x l.
Proof.
  induction l as [|y r IH]; simpl.
  - split; [discriminate|intros []].
  - destruct (String.eqb_spec y x) as [E|E].
    + split; [now left|reflexivity].
    + rewrite IH. split; [now right|]. intros [H|H]; [congruence|exact H].
Qed.

Lemma rawConc_of_loaded metab function s :
  loaded s ->
  (forall m, metab = Some m -> inb m (metabs s) = true) ->
  exists raw, rawConc_of metab function s = (Ok raw, s).
Proof.
  intros L Hm. destruct metab as [m|]; unfold rawConc_of; rewrite bind_get.
  - rewrite (Hm m eq_refl).
    assert (Hc : is_Some (assoc_get m (columns (fitResults s)))).
    { pose proof (ld_metabs s L) as F. rewrite Forall_forall in F.
      apply F. apply list_elem_of_In, inb_In. now apply Hm. }
    destruct Hc as [col Hc].
    erewrite bind_Ok by (rewrite dfFunc_run, Hc; reflexivity).
    eexists. reflexivity.
  - destruct (for_list_dfFunc function s (metabs s) (ld_metabs s L)) as [vs Hvs].
    erewrite bind_Ok by exact Hvs. eexists. reflexivity.
Qed.

Lemma getConc_run scaling metab function s raw :
  rawConc_of metab function s = (Ok raw, s) ->
  getConc scaling metab function s
  = if String.eqb scaling "raw" then (Ok raw, s)
    else if is_scaling_key scaling
    then match scaling_factor (concScalings s) scaling with
         | Some k => (Ok (ndarray_mul raw k), s)
         | None => (Raise (scaling_not_computed scaling), s)
         end
    else (Raise (unrecognised_scaling scaling), s).
Proof.
  intros Hraw. unfold getConc. fold (rawConc_of metab function).
  erewrite bind_Ok by exact Hraw. rewrite bind_get.
  unfold is_scaling_key, scaling_factor, scaling_not_computed, scaled.
  destruct (String.eqb scaling "raw"); [reflexivity|].
  destruct (String.eqb scaling "internal"); simpl.
  { destruct (internal (concScalings s)); reflexivity. }
  destruct (String.eqb scaling "molality"); simpl.
  { destruct (molality (concScalings s)); reflexivity. }
  destruct (String.eqb scaling "molarity"); simpl.
  { destruct (molarity (concScalings s)); reflexivity. }
  reflexivity.
Qed.

Lemma getConc_unknown scaling m function s :
  inb m (metabs s) = false ->
  getConc scaling (Some m) function s = (Raise (not_recognised m), s).
Proof.
  intros H. unfold getConc. rewrite bind_assoc, bind_get, H.
  reflexivity.
Qed.

Lemma scaling_key_not_raw scaling :
  is_scaling_key scaling = true -> String.eqb scaling "raw" = false.
Proof.
  unfold is_scaling_key. intros H.
  destruct (String.eqb_spec scaling "internal") as [E|_]; [now rewrite E|].
  destruct (String.eqb_spec scaling "molality") as [E|_]; [now rewrite E|].
  destruct (String.eqb_spec scaling "molarity") as [E|_]; [now rewrite E|].
  discriminate.
Qed.

Lemma ndarray_mul_scaled raw k : scaled_by k raw (ndarray_mul raw k).
Proof.
  assert (V : forall v, val_scaled k v (ndval_mul v k)).
  { intros [x|a]; cbn; [reflexivity|]. split; [now rewrite length_map|].
    intros i x Hx. now rewrite list_lookup_fmap, Hx. }
  destruct raw as [v|vs]; cbn; [apply V|].
  split; [now rewrite length_map|].
  intros i v Hv. exists (ndval_mul v k).
  split; [now rewrite list_lookup_fmap, Hv|apply V].
Qed.

(** C5. On a loaded object, for every scaling key ('internal', 'molality',
    'molarity') whose factor [k] is set, for one metabolite of the list or
    for the whole list, and for every [function]: [getConc] with 'raw' and
    [getConc] with that scaling both return, and the scaled result has the
    shape of the raw one and holds, entry by entry, the raw entry times
    [k] in float64. *)
Theorem getConc_scaling_composition :
  forall (s : FitRes) (scaling : string) (k : float) (metab : option string)
         (function : summary),
    loaded s ->
    (forall m, metab = Some m -> inb m (metabs s) = true) ->
    is_scaling_key scaling = true ->
    scaling_factor (concScalings s) scaling = Some k ->
    exists raw scaled,
      getConc "raw" metab function s = (Ok raw, s)
      /\ getConc scaling metab function s = (Ok scaled, s)
      /\ scaled_by k raw scaled.
Proof.
  intros s scaling k metab function L Hm Hkey Hk.
  destruct (rawConc_of_loaded metab function s L Hm) as [raw Hraw].
  exists raw, (ndarray_mul raw k). split; [|split].
  - now rewrite (getConc_run "raw" metab function s raw Hraw).
  - rewrite (getConc_run scaling metab function s raw Hraw).
    now rewrite (scaling_key_not_raw scaling Hkey), Hkey, Hk.
  - apply ndarray_mul_scaled.
Qed.

(** C6 (amended). [getConc] first checks the metabolite: given a [metab]
    that is not in the current metabolite list it raises the
    unknown-metabolite error, whatever the scaling. On a loaded object,
    given no [metab] or one of the list, it raises the scaling-not-computed
    error of the requested key ('internal', 'molality', 'molarity') whenever
    that key is unset. The object is unchanged by every call, so by every
    call that raises. *)
Theorem getConc_errors :
  forall (s : FitRes) (scaling : string) (metab : option string)
         (function : summary),
    (forall m, metab = Some m -> inb m (metabs s) = false ->
       getConc scaling metab function s = (Raise (not_recognised m), s))
    /\ (loaded s ->
        (forall m, metab = Some m -> inb m (metabs s) = true) ->
        is_scaling_key scaling = true ->
        scaling_factor (concScalings s) scaling = None ->
        getConc scaling metab function s = (Raise (scaling_not_computed scaling), s))
    /\ snd (getConc scaling metab function s) = s.
Proof.
  intros s scaling metab function. split; [|split].
  - intros m -> H. now apply getConc_unknown.
  - intros L Hm Hkey Hk.
    destruct (rawConc_of_loaded metab function s L Hm) as [raw Hraw].
    rewrite (getConc_run scaling metab function s raw Hraw).
    now rewrite (scaling_key_not_raw scaling Hkey), Hkey, Hk.
  - apply getConc_readonly.
Qed.

(** ** calculateConcScaling *)

Lemma for_list_dfFunc_run function l s :
  for_list (dfFunc function) l s = (raw_values function (fitResults s) l, s).
Proof.
  induction l as [|m r IH]; [reflexivity|].
  cbn [for_list raw_values].
  unfold bind at 1. rewrite dfFunc_run.
  destruct (assoc_get m (columns (fitResults s))) as [col|]; [|reflexivity].
  unfold bind at 1. rewrite IH.
  destruct (raw_values function (fitResults s) r); reflexivity.
Qed.

Lemma getConc_raw_all_run function s :
  getConc "raw" None function s
  = (match raw_values function (fitResults s) (metabs s) with
     | Ok vs => Ok (Stack vs)
     | Raise e => Raise e
     end, s).
Proof.
  unfold getConc. rewrite bind_assoc, bind_get, bind_assoc.
  unfold bind at 1. rewrite for_list_dfFunc_run.
  destruct (raw_values function (fitResults s) (metabs s)); reflexivity.
Qed.

Lemma calculateConcScaling_run mrs a s :
  calculateConcScaling mrs a s
  = match computed_scalings mrs a s with
    | Ok c => (Ok tt, set_concScalings c (with_reference a s))
    | Raise e => (Raise e, with_reference a s)
    end.
Proof.
  unfold calculateConcScaling, computed_scalings.
  rewrite bind_modify. fold (with_reference a s).
  unfold bind at 1. rewrite getConc_raw_all_run.
  change (fitResults (with_reference a s)) with (fitResults s).
  change (metabs (with_reference a s)) with (metabs s).
  destruct (raw_values fn_mean (fitResults s) (metabs s)) as [vs|e] eqn:E;
    [|reflexivity].
  rewrite bind_get.
  change (metabs (with_reference a s)) with (metabs s).
  destruct (quantifyInternal (a_referenceMetab a) (Stack vs) (metabs s)) as [k|e];
    [rewrite bind_lift_Ok|reflexivity].
  destruct (a_waterRefFID a) as [w|]; [|reflexivity].
  destruct (a_tissueFractions a) as [tf|]; [|reflexivity].
  destruct (a_TE a) as [te|]; [|reflexivity].
  unfold bind at 1. rewrite predictedFID_run.
  change (metabs (with_reference a s)) with (metabs s).
  destruct (select_mode (a_waterReferenceMetab a) true (metabs s)) as [req|e];
    [|reflexivity].
  unfold bind at 1. rewrite getConc_raw_all_run.
  change (fitResults (with_reference a s)) with (fitResults s).
  change (metabs (with_reference a s)) with (metabs s).
  rewrite E, bind_get.
  change (metabs (with_reference a s)) with (metabs s).
  change (model (with_reference a s)) with (model s).
  change (params (with_reference a s)) with (params s).
  change (base_poly (with_reference a s)) with (base_poly s).
  change (metab_groups (with_reference a s)) with (metab_groups s).
  destruct (quantifyWater _ _ _ _ _ _ _ _ _ _) as [mm|e]; reflexivity.
Qed.

Lemma computed_scalings_shape mrs a s c :
  computed_scalings mrs a s = Ok c ->
  (exists k, internal c = Some k)
  /\ internalRef c = Some (join_plus (a_referenceMetab a))
  /\ (water_supplied a = true -> is_Some (molarity c) /\ is_Some (molality c))
  /\ (water_supplied a = false -> molarity c = None /\ molality c = None).
Proof.
  unfold computed_scalings, water_supplied.
  destruct (raw_values _ _ _) as [vs|e]; [|discriminate].
  destruct (quantifyInternal _ _ _) as [k|e]; [|discriminate].
  destruct (a_waterRefFID a) as [w|], (a_tissueFractions a) as [tf|],
           (a_TE a) as [te|];
    try (intros [= <-]; simpl; repeat split; eauto; discriminate).
  destruct (select_mode _ _ _) as [req|e]; [|discriminate].
  destruct (quantifyWater _ _ _ _ _ _ _ _ _ _) as [mm|e]; [|discriminate].
  intros [= <-]. simpl. repeat split; eauto; discriminate.
Qed.

(** C4. Every call of [calculateConcScaling] that returns replaces the
    whole scaling set: afterwards 'internal' and 'internalRef' are set
    (the latter to the joined reference names), and 'molarity' and
    'molality' are set when the water reference, the tissue fractions and
    the echo time were all given to this call, and are unset when any of
    them is missing. The new set owes nothing to the previous one: the same
    call on the same object holding any other scaling set [c] returns the
    same set. *)
Theorem calculateConcScaling_replaces :
  forall (mrs : MRS) (a : ScalingArgs) (s s' : FitRes),
    calculateConcScaling mrs a s = (Ok tt, s') ->
    (exists k, internal (concScalings s') = Some k)
    /\ internalRef (concScalings s') = Some (join_plus (a_referenceMetab a))
    /\ (water_supplied a = true ->
        is_Some (molarity (concScalings s')) /\ is_Some (molality (concScalings s')))
    /\ (water_supplied a = false ->
        molarity (concScalings s') = None /\ molality (concScalings s') = None)
    /\ (forall c, exists s'',
          calculateConcScaling mrs a (set_concScalings c s) = (Ok tt, s'')
          /\ concScalings s'' = concScalings s').
Proof.
  intros mrs a s s' H. rewrite calculateConcScaling_run in H.
  destruct (computed_scalings mrs a s) as [c|e] eqn:E; [|discriminate].
  injection H as <-. simpl.
  destruct (computed_scalings_shape mrs a s c E) as (Hi & Hr & Hw & Hn).
  repeat split; try assumption; try (now apply Hw); try (now apply Hn).
  intros c0. rewrite calculateConcScaling_run.
  change (computed_scalings mrs a (set_concScalings c0 s))
    with (computed_scalings mrs a s).
  rewrite E. eexists. split; reflexivity.
Qed.

(** Internal referencing needs no external data: on a loaded object a call
    without water data returns as soon as [quantifyInternal] does. *)
Lemma calculateConcScaling_returns mrs a s :
  loaded s -> water_supplied a = false ->
  (forall conc, is_Ok (quantifyInternal (a_referenceMetab a) conc (metabs s)) = true) ->
  exists s', calculateConcScaling mrs a s = (Ok tt, s').
Proof.
  intros L Hw Hq. rewrite calculateConcScaling_run. unfold computed_scalings.
  destruct (for_list_dfFunc fn_mean s (metabs s) (ld_metabs s L)) as [vs Hvs].
  rewrite for_list_dfFunc_run in Hvs. injection Hvs as ->.
  specialize (Hq (Stack vs)).
  destruct (quantifyInternal _ _ _) as [k|e]; [|discriminate].
  unfold water_supplied in Hw.
  destruct (a_waterRefFID a), (a_tissueFractions a), (a_TE a);
    try discriminate; eexists; reflexivity.
Qed.

(** A call changes nothing but the scaling set and the reference labels. *)
Lemma calculateConcScaling_frame mrs a s :
  let s' := snd (calculateConcScaling mrs a s) in
  fitResults s' = fitResults s /\ params s' = params s /\ cov s' = cov s
  /\ crlb s' = crlb s /\ perc_SD s' = perc_SD s /\ metabs s' = metabs s
  /\ params_names s' = params_names s /\ numMetabs s' = numMetabs s.
Proof.
  rewrite calculateConcScaling_run.
  destruct (computed_scalings mrs a s); simpl; repeat split; reflexivity.
Qed.

(** ** The percent-SD sentinel *)

Lemma clip_entry v :
  nan_to_999 (clip_gt999 v)
  = if PrimFloat.is_nan v then f999 else py_min v f999.
Proof.
  unfold nan_to_999, clip_gt999, py_min.
  destruct (PrimFloat.ltb f999 v) eqn:Hgt.
  - assert (Hn : PrimFloat.is_nan f999 = false) by (vm_compute; reflexivity).
    rewrite Hn. destruct (PrimFloat.is_nan v); reflexivity.
  - destruct (PrimFloat.is_nan v); reflexivity.
Qed.

Lemma is_finite_not_nan v : PrimFloat.is_finite v = true -> PrimFloat.is_nan v = false.
Proof.
  unfold PrimFloat.is_finite. intros H. apply negb_true_iff in H.
  apply orb_false_iff in H. exact (proj1 H).
Qed.

Lemma clip_perc_SD_lookup raw i v :
  raw !! i = Some v ->
  clip_perc_SD raw !! i = Some (if PrimFloat.is_nan v then f999 else py_min v f999).
Proof.
  intros H. unfold clip_perc_SD.
  rewrite !list_lookup_fmap, H. simpl. now rewrite clip_entry.
Qed.

Lemma compute_perc_SD_inv crlb params out :
  compute_perc_SD crlb params = Ok out ->
  exists raw, raw_perc_SD crlb params = Ok raw /\ out = clip_perc_SD raw.
Proof.
  unfold compute_perc_SD. destruct (raw_perc_SD crlb params) as [raw|e]; [|discriminate].
  intros [= <-]. now exists raw.
Qed.

Lemma store_mcmc_run s :
  store_mcmc s
  = (Ok tt, if String.eqb (method s) "MH"
            then set_mcmc (Some (df_cov (fitResults s))) (Some (df_corr (fitResults s)))
                          (Some (df_var (fitResults s))) s
            else s).
Proof.
  unfold store_mcmc. rewrite bind_get.
  destruct (String.eqb (method s) "MH"); reflexivity.
Qed.

Lemma combine_finish_run s :
  combine_finish s
  = match compute_perc_SD (crlb s) (df_mean (fitResults s)) with
    | Ok perc =>
        let s1 := set_perc_SD perc (set_numMetabs (length (metabs s)) s) in
        (Ok tt, if String.eqb (method s) "MH"
                then set_mcmc (Some (df_cov (fitResults s))) (Some (df_corr (fitResults s)))
                              (Some (df_var (fitResults s))) s1
                else s1)
    | Raise e => (Raise e, set_numMetabs (length (metabs s)) s)
    end.
Proof.
  unfold combine_finish. rewrite bind_get, bind_modify, bind_get.
  cbn [crlb fitResults set_numMetabs].
  destruct (compute_perc_SD (crlb s) (df_mean (fitResults s))) as [perc|e].
  - rewrite bind_lift_Ok, bind_modify, store_mcmc_run. reflexivity.
  - reflexivity.
Qed.

(** What a returning [combine] leaves as percent-SD. *)
Lemma combine_perc_SD l s s' :
  combine l s = (Ok tt, s') ->
  compute_perc_SD (crlb s') (df_mean (fitResults s')) = Ok (perc_SD s').
Proof.
  unfold combine. intros H.
  apply bind_inv_Ok in H as (u & s1 & _ & H).
  rewrite combine_finish_run in H.
  destruct (compute_perc_SD (crlb s1) (df_mean (fitResults s1))) as [perc|e] eqn:E;
    [|discriminate].
  injection H as <-.
  destruct (String.eqb (method s1) "MH"); simpl; exact E.
Qed.

(** What a returning [loadResults] leaves. *)
Lemma loadResults_inv mrs fit s s' :
  loadResults mrs fit s = (Ok tt, s') ->
  DataFrame_of_rows (match fit with Fit1D v => [v] | Fit2D rows => rows end)
                    (params_names s) = Ok (fitResults s')
  /\ params s' = df_mean (fitResults s')
  /\ cov s' = calculate_lap_cov (model s) (base_poly s) (metab_groups s) (g s)
                                (ppmlim s) mrs (params s')
  /\ crlb s' = np_diagonal (cov s')
  /\ compute_perc_SD (crlb s') (params s') = Ok (perc_SD s')
  /\ metabs s' = metabs s
  /\ params_names s' = params_names s.
Proof.
  unfold loadResults. rewrite bind_get.
  destruct (DataFrame_of_rows _ (params_names s)) as [df|e]; [|discriminate].
  rewrite bind_lift_Ok, !bind_modify.
  unfold bind at 1. rewrite predictedFID_run.
  change (select_mode "Full" false _) with (Ok (FullModel false)). cbv iota beta.
  rewrite bind_modify.
  unfold bind at 1. rewrite predictedFID_run.
  change (select_mode "Baseline" false _) with (Ok BaselineOnly). cbv iota beta.
  rewrite bind_modify, bind_get, !bind_modify, bind_get.
  cbn [crlb params set_crlb set_cov set_baseline set_pred set_params set_fitResults
       model base_poly metab_groups g ppmlim].
  destruct (compute_perc_SD _ _) as [perc|e] eqn:E; [|discriminate].
  rewrite bind_lift_Ok, bind_modify.
  unfold bind at 1. rewrite store_mcmc_run. rewrite bind_modify, bind_get.
  match goal with
  | |- (if _ then _ else _) ?st = _ -> _ => set (s1 := st)
  end.
  destruct (inb "Cr" (metabs s1) && inb "PCr" (metabs s1)).
  - intros H.
    pose proof (calculateConcScaling_frame mrs default_args s1) as F.
    rewrite H in F. cbn [snd] in F.
    destruct F as (F1 & F2 & F3 & F4 & F5 & F6 & F7 & _).
    rewrite F1, F2, F3, F4, F5, F6, F7. subst s1.
    destruct (String.eqb _ "MH"); cbn; repeat split; try reflexivity; exact E.
  - unfold ret. intros [= <-]. subst s1.
    destruct (String.eqb _ "MH"); cbn; repeat split; try reflexivity; exact E.
Qed.


(** ** combine: one group *)

Lemma index_of_inb m l i : index_of m l = Some i -> inb m l = true.
Proof.
  revert i. induction l as [|y r IH]; intros i; simpl; [discriminate|].
  destruct (String.eqb y m); [reflexivity|].
  destruct (index_of m r); [|discriminate]. intros _. now apply (IH n).
Qed.

Lemma inb_index_of m l : inb m l = true -> exists i, index_of m l = Some i.
Proof.
  induction l as [|y r IH]; simpl; [discriminate|].
  destruct (String.eqb y m); [now exists 0|].
  intros H. destruct (IH H) as [i ->]. now exists (S i).
Qed.

Lemma combine_metab_run acc m s :
  combine_metab acc m s
  = (if inb m (metabs s)
     then match assoc_get m (columns (fitResults s)) with
          | None => Raise (KeyError m)
          | Some col =>
              match index_of m (metabs s) with
              | None => Raise (ValueError (m +:+ " is not in list"))
              | Some i =>
                  match np_setitem (snd acc) i fone with
                  | Ok jac => Ok (zip_with PrimFloat.add (fst acc) col, jac)
                  | Raise e => Raise e
                  end
              end
          end
     else Raise (not_found m), s).
Proof.
  unfold combine_metab, df_getitem. rewrite bind_get.
  destruct (inb m (metabs s)); [|reflexivity].
  destruct (assoc_get m (columns (fitResults s))) as [col|]; [|reflexivity].
  rewrite bind_lift_Ok.
  destruct (index_of m (metabs s)) as [i|]; [|reflexivity].
  rewrite bind_lift_Ok.
  destruct (np_setitem (snd acc) i fone); reflexivity.
Qed.

Lemma combine_metab_readonly acc m : readonly (combine_metab acc m).
Proof. intros s. now rewrite combine_metab_run. Qed.

Lemma for_fold_readonly {A B} (body : B -> A -> M B) l b :
  (forall b x, readonly (body b x)) -> readonly (for_fold body l b).
Proof.
  intros Hb. revert b. induction l as [|x r IH]; intros b; simpl.
  - apply readonly_ret.
  - apply readonly_bind; [apply Hb|]. intros b'. apply IH.
Qed.

(** The inner loop on a group whose names are all in the list, at positions
    the Jacobian has, and all with a column. *)
Lemma inner_loop_run s toComb ds jac :
  Forall (fun m => is_Some (assoc_get m (columns (fitResults s)))
                   /\ exists i, index_of m (metabs s) = Some i /\ i < length jac)
         toComb ->
  for_fold combine_metab toComb (ds, jac) s
  = (Ok (fold_left (fun d c => zip_with PrimFloat.add d c)
                   (columns_of (fitResults s) toComb) ds,
         fold_left (fun j i => <[i := fone]> j) (positions (metabs s) toComb) jac), s).
Proof.
  intros H. revert ds jac H.
  induction toComb as [|m r IH]; intros ds jac H; [reflexivity|].
  apply Forall_cons in H as [([col Hc] & i & Hi & Hlt) H].
  cbn [for_fold]. unfold bind at 1. rewrite combine_metab_run.
  rewrite (index_of_inb _ _ _ Hi), Hc, Hi. cbn [snd fst].
  unfold np_setitem. apply Nat.ltb_lt in Hlt as Hlt'. rewrite Hlt'.
  rewrite IH.
  - unfold columns_of, positions. cbn [map flat_map]. rewrite Hc, Hi. reflexivity.
  - eapply Forall_impl; [exact H|]. intros m' (Hc' & i' & Hi' & Hlt'').
    split; [exact Hc'|]. exists i'. split; [exact Hi'|].
    now rewrite length_insert.
Qed.

Lemma set_ones_lookup idxs j k :
  k < length j ->
  fold_left (fun j i => <[i := fone]> j) idxs j !! k
  = if existsb (Nat.eqb k) idxs then Some fone else j !! k.
Proof.
  revert j. induction idxs as [|i r IH]; intros j Hk; [reflexivity|].
  cbn [fold_left existsb]. rewrite IH by now rewrite length_insert.
  destruct (existsb (Nat.eqb k) r); [now rewrite orb_true_r|].
  rewrite orb_false_r. destruct (Nat.eqb_spec k i) as [->|Hne].
  - now apply list_lookup_insert_eq.
  - apply list_lookup_insert_ne. congruence.
Qed.

Lemma set_ones_length idxs j :
  length (fold_left (fun j i => <[i := fone]> j) idxs j) = length j.
Proof.
  revert j. induction idxs as [|i r IH]; intros j; [reflexivity|].
  cbn [fold_left]. now rewrite IH, length_insert.
Qed.

(** The Jacobian the loop builds is the indicator vector of the positions. *)
Lemma jacobian_is_indicator n idxs :
  fold_left (fun j i => <[i := fone]> j) idxs (np_zeros n) = indicator n idxs.
Proof.
  apply list_eq. intros k. unfold indicator.
  destruct (Nat.lt_ge_cases k n) as [Hk|Hk].
  - rewrite set_ones_lookup by (unfold np_zeros; now rewrite length_replicate).
    rewrite list_lookup_fmap, lookup_seq_lt by exact Hk. simpl.
    destruct (existsb (Nat.eqb k) idxs); [reflexivity|].
    unfold np_zeros. apply lookup_replicate_2. exact Hk.
  - rewrite !lookup_ge_None_2; [reflexivity| |].
    + now rewrite length_map, length_seq.
    + rewrite set_ones_length. unfold np_zeros. now rewrite length_replicate.
Qed.

Lemma nth_zip_with (f : float -> float -> float) a b r d :
  r < length a -> r < length b ->
  nth r (zip_with f a b) d = f (nth r a d) (nth r b d).
Proof.
  revert a b. induction r as [|r IH]; intros [|x a] [|y b]; simpl; try lia.
  - reflexivity.
  - intros Ha Hb. apply IH; lia.
Qed.

Lemma length_zip_with_same (f : float -> float -> float) a b n :
  length a = n -> length b = n -> length (zip_with f a b) = n.
Proof. intros Ha Hb. rewrite length_zip_with. lia. Qed.

(** The column the loop builds holds, row by row, the sum of the columns. *)
Lemma summed_columns cols ds n :
  Forall (fun c => length c = n) cols -> length ds = n ->
  length (fold_left (fun d c => zip_with PrimFloat.add d c) cols ds) = n
  /\ forall r, r < n ->
       nth r (fold_left (fun d c => zip_with PrimFloat.add d c) cols ds) fzero
       = fold_left (fun acc c => PrimFloat.add acc (nth r c fzero)) cols (nth r ds fzero).
Proof.
  intros H. revert ds. induction H as [|c cols Hc _ IH]; intros ds Hds.
  - split; [exact Hds|reflexivity].
  - cbn [fold_left].
    destruct (IH (zip_with PrimFloat.add ds c)) as [IHl IHr].
    { now apply length_zip_with_same. }
    split; [exact IHl|]. intros r Hr.
    rewrite IHr by exact Hr. now rewrite nth_zip_with by lia.
Qed.

Lemma assoc_get_set_eq name c cols : assoc_get name (assoc_set name c cols) = Some c.
Proof.
  induction cols as [|[n c0] r IH]; simpl.
  - now rewrite String.eqb_refl.
  - destruct (String.eqb n name) eqn:E; simpl; now rewrite E.
Qed.

Lemma assoc_get_set_ne name name' c cols :
  name <> name' -> assoc_get name' (assoc_set name c cols) = assoc_get name' cols.
Proof.
  intros Hne. induction cols as [|[n c0] r IH]; simpl.
  - apply String.eqb_neq in Hne. now rewrite Hne.
  - destruct (String.eqb_spec n name) as [->|Hn]; simpl.
    + apply String.eqb_neq in Hne. now rewrite Hne.
    + now rewrite IH.
Qed.

Lemma ncols_square (m : list (list float)) :
  Forall (fun r => length r = length m) m -> ncols m = length m.
Proof. destruct m as [|r m]; [reflexivity|]. intros H. now apply Forall_cons in H as [H _]. Qed.

Lemma vecmat_length v m n :
  Forall (fun r => length r = n) m -> ncols m = n -> length (vecmat v m) = n.
Proof.
  intros _ Hn. unfold vecmat. now rewrite length_map, length_seq.
Qed.

(** On a square matrix the quadratic form returns, and what it returns. *)
Lemma quad_form_run j (m : list (list float)) :
  Forall (fun r => length r = length m) m -> length j = length m ->
  quad_form j m = Ok (jcovj j m).
Proof.
  intros H Hj. unfold quad_form, vdot, jcovj.
  rewrite (vecmat_length j m (length m) H (ncols_square m H)), Hj, Nat.eqb_refl.
  unfold vecmat. now rewrite (ncols_square m H).
Qed.

Lemma quad_form_square j (m : list (list float)) :
  Forall (fun r => length r = length m) m -> length j = length m ->
  exists q, quad_form j m = Ok q.
Proof. intros H Hj. eexists. now apply quad_form_run. Qed.

Lemma nth_np_zeros r n : nth r (np_zeros n) fzero = fzero.
Proof.
  unfold np_zeros. revert r. induction n as [|n IH]; intros [|r]; simpl; auto.
Qed.

Lemma columns_of_lengths s toComb :
  loaded s ->
  Forall (fun m => is_Some (assoc_get m (columns (fitResults s)))) toComb ->
  Forall (fun c => length c = nrows (fitResults s)) (columns_of (fitResults s) toComb)
  /\ Forall2 (fun m c => assoc_get m (columns (fitResults s)) = Some c)
             toComb (columns_of (fitResults s) toComb).
Proof.
  intros L H. unfold columns_of.
  assert (G : forall cols m c,
             Forall (fun c => length (snd c) = nrows (fitResults s)) cols ->
             assoc_get m cols = Some c -> length c = nrows (fitResults s)).
  { induction cols as [|[n c0] r IH]; intros m c F; simpl; [discriminate|].
    apply Forall_cons in F as [F0 F].
    destruct (String.eqb n m); [intros [= <-]; exact F0|]. now apply IH. }
  induction H as [|m r [c Hc] _ [IH1 IH2]]; simpl; [split; constructor|].
  rewrite Hc. simpl. split; constructor; auto.
  eapply G; [apply (ld_rows s L)|exact Hc].
Qed.

Lemma combine_group_run s toComb :
  Forall (fun m => is_Some (assoc_get m (columns (fitResults s)))
                   /\ exists i, index_of m (metabs s) = Some i /\ i < length (cov s))
         toComb ->
  combine_group toComb s
  = let ds := fold_left (fun d c => zip_with PrimFloat.add d c)
                        (columns_of (fitResults s) toComb)
                        (np_zeros (nrows (fitResults s))) in
    let jac := indicator (length (cov s)) (positions (metabs s) toComb) in
    let s1 := set_metabs (metabs s ++ [join_plus toComb])
                (set_fitResults (df_setitem (join_plus toComb) ds (fitResults s)) s) in
    match quad_form jac (cov s) with
    | Ok q => (Ok tt, set_crlb (crlb s ++ [q]) s1)
    | Raise e => (Raise e, s1)
    end.
Proof.
  intros H. unfold combine_group. rewrite bind_get.
  erewrite bind_Ok.
  2:{ apply inner_loop_run. eapply Forall_impl; [exact H|].
      intros m (Hc & i & Hi & Hlt). split; [exact Hc|]. exists i. split; [exact Hi|].
      unfold np_zeros. now rewrite length_replicate. }
  rewrite bind_get, bind_modify, bind_get, bind_modify, bind_get.
  cbn [fst snd cov crlb set_metabs set_fitResults metabs fitResults].
  rewrite jacobian_is_indicator.
  destruct (quad_form _ (cov s)) as [q|e]; reflexivity.
Qed.

Lemma assoc_set_fresh name c cols :
  assoc_get name cols = None ->
  map fst (assoc_set name c cols) = map fst cols ++ [name].
Proof.
  induction cols as [|[n c0] r IH]; simpl; [reflexivity|].
  destruct (String.eqb n name); [discriminate|]. intros H. simpl. now rewrite IH.
Qed.

Lemma assoc_set_fresh_eq name c cols :
  assoc_get name cols = None -> assoc_set name c cols = cols ++ [(name, c)].
Proof.
  induction cols as [|[n c0] r IH]; cbn; [reflexivity|].
  destruct (String.eqb n name); [discriminate|]. intros H. now rewrite IH.
Qed.

Lemma assoc_get_In name cols : In name (map fst cols) -> is_Some (assoc_get name cols).
Proof.
  induction cols as [|[n c] r IH]; cbn; [easy|].
  destruct (String.eqb_spec n name) as [_|Hne]; [now eexists|].
  intros [E|Hin]; [contradiction|now apply IH].
Qed.

Lemma assoc_get_NoDup name c cols :
  NoDup (map fst cols) -> In (name, c) cols -> assoc_get name cols = Some c.
Proof.
  induction cols as [|[n c0] r IH]; cbn; [easy|].
  intros Hnd Hin. apply NoDup_cons in Hnd as [Hnot Hnd].
  destruct (String.eqb_spec n name) as [E|Hne].
  - destruct Hin as [Hin|Hin]; [congruence|].
    exfalso. apply Hnot. apply list_elem_of_In. rewrite E.
    apply in_map_iff. now exists (name, c).
  - destruct Hin as [Hin|Hin]; [congruence|now apply IH].
Qed.

(** ** combine: what it keeps *)

Lemma extends_refl s : extends s s.
Proof. repeat split; try reflexivity; exists []; now rewrite app_nil_r. Qed.

Lemma extends_trans s1 s2 s3 : extends s1 s2 -> extends s2 s3 -> extends s1 s3.
Proof.
  intros (A1 & A2 & [m1 A3] & [n1 A4] & [c1 A5] & A6)
         (B1 & B2 & [m2 B3] & [n2 B4] & [c2 B5] & B6).
  repeat split; try congruence.
  - exists (m1 ++ m2). now rewrite B3, A3, app_assoc.
  - exists (n1 ++ n2). now rewrite B4, A4, app_assoc.
  - exists (c1 ++ c2). now rewrite B5, A5, app_assoc.
Qed.

Lemma assoc_set_names name c cols :
  exists ext, map fst (assoc_set name c cols) = map fst cols ++ ext.
Proof.
  induction cols as [|[n c0] r [ext IH]]; simpl.
  - now exists [name].
  - destruct (String.eqb n name); simpl.
    + exists []. now rewrite app_nil_r.
    + exists ext. now rewrite IH.
Qed.

(** The three ways one pass over a group can end: nothing written (the
    inner loop raised), column and name written (the quadratic form
    raised), or all three written and the pass returned. *)
Lemma combine_group_cases toComb s :
  (snd (combine_group toComb s) = s /\ is_Ok (fst (combine_group toComb s)) = false)
  \/ exists acc,
       for_fold combine_metab toComb
                (np_zeros (nrows (fitResults s)), np_zeros (length (cov s))) s
       = (Ok acc, s)
       /\ let s1 := set_metabs (metabs s ++ [join_plus toComb])
                      (set_fitResults (df_setitem (join_plus toComb) (fst acc)
                                                  (fitResults s)) s) in
          (snd (combine_group toComb s) = s1
           /\ is_Ok (fst (combine_group toComb s)) = false)
          \/ exists q, combine_group toComb s = (Ok tt, set_crlb (crlb s ++ [q]) s1).
Proof.
  unfold combine_group. rewrite !bind_get.
  pose proof (for_fold_readonly combine_metab toComb
                (np_zeros (nrows (fitResults s)), np_zeros (length (cov s)))
                combine_metab_readonly s) as R.
  destruct (for_fold combine_metab toComb _ s) as [[acc|e] s0] eqn:E;
    simpl in R; subst s0.
  - right. exists acc. split; [reflexivity|].
    rewrite !(bind_Ok _ _ _ _ _ E).
    rewrite bind_get, bind_modify, bind_get, bind_modify, bind_get.
    cbn [fst snd cov crlb set_metabs set_fitResults metabs fitResults].
    destruct (quad_form (snd acc) (cov s)) as [q|e].
    + right. exists q. reflexivity.
    + left. split; reflexivity.
  - left. rewrite !(bind_Raise _ _ _ _ _ E). split; reflexivity.
Qed.

Lemma combine_group_extends toComb s : extends s (snd (combine_group toComb s)).
Proof.
  destruct (combine_group_cases toComb s) as [[-> _]|(acc & _ & [[-> _]| [q ->]])].
  - apply extends_refl.
  - repeat split; try reflexivity; cbn.
    + now exists [join_plus toComb].
    + apply assoc_set_names.
    + exists []. now rewrite app_nil_r.
  - repeat split; try reflexivity; cbn.
    + now exists [join_plus toComb].
    + apply assoc_set_names.
    + now exists [q].
Qed.

Lemma for_each_extends l s : extends s (snd (for_each combine_group l s)).
Proof.
  revert s. induction l as [|x r IH]; intros s; cbn [for_each].
  - apply extends_refl.
  - unfold bind. pose proof (combine_group_extends x s) as E.
    destruct (combine_group x s) as [[u|e] s1]; cbn [snd] in *.
    + eapply extends_trans; [exact E|apply IH].
    + exact E.
Qed.

Lemma combine_finish_extends s : extends s (snd (combine_finish s)).
Proof.
  rewrite combine_finish_run.
  destruct (compute_perc_SD _ _); [destruct (String.eqb _ _)|]; cbn;
    repeat split; try reflexivity; exists []; now rewrite app_nil_r.
Qed.

Lemma combine_extends l s : extends s (snd (combine l s)).
Proof.
  unfold combine, bind. pose proof (for_each_extends l s) as E.
  destruct (for_each combine_group l s) as [[u|e] s1]; cbn [snd] in *.
  - eapply extends_trans; [exact E|apply combine_finish_extends].
  - exact E.
Qed.

(** ** to_file, the parameters view *)

Lemma to_file_parameters_run s :
  length (df_mean (fitResults s)) = length (params_names s) ->
  to_file "parameters" s
  = (Ok (mkOut (length (params_names s))
               [("Name", map CStr (params_names s));
                ("Value", num_cells (df_mean (fitResults s)))]), s).
Proof.
  intros Hlen. unfold to_file.
  change (String.eqb "parameters" "concentrations") with false.
  change (String.eqb "parameters" "qc") with false.
  change (String.eqb "parameters" "parameters") with true. cbv iota.
  rewrite bind_get.
  assert (H1 : out_assign "Name" (map CStr (params_names s)) (mkOut 0 [])
               = Ok (mkOut (length (params_names s))
                           [("Name", map CStr (params_names s))])).
  { unfold out_assign. rewrite length_map. cbn [out_index out_columns map].
    destruct (length (params_names s)) as [|n]; cbn; [reflexivity|].
    now rewrite Nat.eqb_refl. }
  rewrite H1, bind_lift_Ok, bind_get. unfold lift, out_assign, num_cells.
  rewrite length_map, Hlen. cbn [out_index out_columns].
  destruct (length (params_names s)) as [|n]; cbn; [reflexivity|].
  now rewrite Nat.eqb_refl.
Qed.

(** ** combine: a name that is not in the list *)

(** The inner loop raises on a group that has a name outside the list, and
    it has written nothing then. *)
Lemma inner_loop_unknown s toComb m acc :
  In m toComb -> inb m (metabs s) = false ->
  exists e, for_fold combine_metab toComb acc s = (Raise e, s).
Proof.
  intros Hin Hm. revert acc. induction toComb as [|x r IH]; intros acc; [easy|].
  cbn [for_fold]. unfold bind at 1. rewrite combine_metab_run.
  destruct Hin as [->|Hin].
  - rewrite Hm. eexists. reflexivity.
  - destruct (inb x (metabs s)); [|eexists; reflexivity].
    destruct (assoc_get x _); [|eexists; reflexivity].
    destruct (index_of x _); [|eexists; reflexivity].
    destruct (np_setitem _ _ _); [|eexists; reflexivity].
    now apply IH.
Qed.

(** So [combine] leaves the object as it was when the unknown name is in
    the first group. *)
Lemma combine_unknown_in_first_group s toComb rest m :
  In m toComb -> inb m (metabs s) = false ->
  exists e, combine (toComb :: rest) s = (Raise e, s).
Proof.
  intros Hin Hm.
  destruct (inner_loop_unknown s toComb m
              (np_zeros (nrows (fitResults s)), np_zeros (length (cov s))) Hin Hm)
    as [e He].
  exists e. unfold combine. cbn [for_each]. rewrite !bind_assoc.
  unfold combine_group. rewrite bind_assoc, bind_get.
  rewrite bind_assoc. erewrite bind_Raise by exact He. reflexivity.
Qed.

(** When a later group holds the unknown name, [combine] raises with the
    earlier groups applied: here the first group, whose name is then in
    the metabolite list. *)
Lemma combine_unknown_in_later_group s s1 first second rest m :
  combine_group first s = (Ok tt, s1) ->
  In m second -> inb m (metabs s1) = false ->
  (exists e, combine (first :: second :: rest) s = (Raise e, s1))
  /\ metabs s1 = metabs s ++ [join_plus first].
Proof.
  intros H1 Hin Hm. split.
  - destruct (inner_loop_unknown s1 second m
                (np_zeros (nrows (fitResults s1)), np_zeros (length (cov s1))) Hin Hm)
      as [e He].
    exists e. unfold combine. cbn [for_each]. rewrite !bind_assoc.
    erewrite bind_Ok by exact H1. rewrite !bind_assoc.
    unfold combine_group at 1. rewrite bind_assoc, bind_get.
    rewrite bind_assoc. erewrite bind_Raise by exact He. reflexivity.
  - destruct (combine_group_cases first s) as [[_ Hr]|(acc & _ & [[_ Hr]|[q Hq]])].
    + rewrite H1 in Hr. discriminate.
    + rewrite H1 in Hr. discriminate.
    + rewrite H1 in Hq. injection Hq as ->. reflexivity.
Qed.

(** ** combine: a whole call on one group *)

Lemma compute_perc_SD_same_length crlb params :
  length crlb = length params -> exists out, compute_perc_SD crlb params = Ok out.
Proof.
  intros H. unfold compute_perc_SD, raw_perc_SD, broadcast2.
  rewrite length_map, H, Nat.eqb_refl. eexists. reflexivity.
Qed.

Lemma assoc_set_fresh_length name c cols :
  assoc_get name cols = None -> length (assoc_set name c cols) = S (length cols).
Proof.
  intros H. rewrite <- (length_map fst), (assoc_set_fresh name c cols H).
  rewrite length_app, length_map. simpl. lia.
Qed.

(** On an object that has one CRLB entry per table column, the call
    [combine([toComb])] with a group the loop passes over, whose
    joined name is not yet a column, returns; the table, the metabolite
    list and the CRLB vector it leaves are those of the pass over the group. *)
Lemma combine_single_group s toComb s1 :
  combine_group toComb s = (Ok tt, s1) ->
  assoc_get (join_plus toComb) (columns (fitResults s)) = None ->
  length (crlb s) = length (columns (fitResults s)) ->
  exists s2,
    combine [toComb] s = (Ok tt, s2)
    /\ fitResults s2 = fitResults s1 /\ metabs s2 = metabs s1
    /\ crlb s2 = crlb s1 /\ cov s2 = cov s1
    /\ numMetabs s2 = length (metabs s1).
Proof.
  intros H1 Hnew Hlen. unfold combine. cbn [for_each]. rewrite !bind_assoc.
  erewrite bind_Ok by exact H1. rewrite bind_ret, combine_finish_run.
  destruct (combine_group_cases toComb s) as [[_ Hr]|(acc & _ & [[_ Hr]|[q Hq]])].
  { rewrite H1 in Hr. discriminate. }
  { rewrite H1 in Hr. discriminate. }
  rewrite H1 in Hq. injection Hq as ->.
  destruct (compute_perc_SD_same_length
                (crlb s ++ [q])
                (df_mean (df_setitem (join_plus toComb) (fst acc) (fitResults s))))
      as [out Hout].
  { unfold df_mean, df_setitem. cbn [columns].
    rewrite length_map, length_app, assoc_set_fresh_length by exact Hnew.
    simpl. lia. }
  cbn [crlb fitResults set_crlb set_metabs set_fitResults metabs method].
  rewrite Hout. eexists. split; [reflexivity|].
  destruct (String.eqb (method s) "MH"); cbn; repeat split; reflexivity.
Qed.

(** ** The invariant [loaded] *)

Lemma inner_loop_length s l ds jac acc s0 :
  loaded s -> length ds = nrows (fitResults s) ->
  for_fold combine_metab l (ds, jac) s = (Ok acc, s0) ->
  length (fst acc) = nrows (fitResults s).
Proof.
  intros L. revert ds jac. induction l as [|m r IH]; intros ds jac Hds; cbn [for_fold].
  - unfold ret. now intros [= <- _].
  - unfold bind at 1. rewrite combine_metab_run.
    destruct (inb m (metabs s)); [|discriminate].
    destruct (assoc_get m (columns (fitResults s))) as [col|] eqn:Hc; [|discriminate].
    destruct (index_of m (metabs s)); [|discriminate].
    destruct (np_setitem _ _ _) as [jac'|]; [|discriminate].
    apply IH. cbn [fst]. apply length_zip_with_same; [exact Hds|].
    assert (F : Forall (fun m => is_Some (assoc_get m (columns (fitResults s)))) [m]).
    { constructor; [now exists col|constructor]. }
    destruct (columns_of_lengths s [m] L F) as [Hl _].
    unfold columns_of in Hl. cbn in Hl. rewrite Hc in Hl.
    now apply Forall_cons in Hl as [Hl _].
Qed.

Lemma assoc_set_Forall (P : string * list float -> Prop) name c cols :
  P (name, c) -> (forall n c0, String.eqb n name = true -> P (n, c0) -> P (n, c)) ->
  Forall P cols -> Forall P (assoc_set name c cols).
Proof.
  intros Hp Hr H. induction H as [|[n c0] r H0 Hrest IH]; simpl.
  - constructor; [exact Hp|constructor].
  - destruct (String.eqb n name) eqn:E; constructor; auto.
    eapply Hr; eauto.
Qed.

Lemma combine_group_loaded toComb s : loaded s -> loaded (snd (combine_group toComb s)).
Proof.
  intros L.
  destruct (combine_group_cases toComb s) as [[-> _]|(acc & Hacc & Hs)]; [exact L|].
  assert (Hlen : length (fst acc) = nrows (fitResults s)).
  { eapply inner_loop_length; [exact L| |exact Hacc].
    unfold np_zeros. now rewrite length_replicate. }
  assert (L1 : loaded (set_metabs (metabs s ++ [join_plus toComb])
                         (set_fitResults (df_setitem (join_plus toComb) (fst acc)
                                                     (fitResults s)) s))).
  { constructor; cbn.
    - apply assoc_set_Forall; [exact Hlen|intros; exact Hlen|apply (ld_rows s L)].
    - apply Forall_app. split.
      + eapply Forall_impl; [apply (ld_metabs s L)|]. intros m Hm. cbv beta in *.
        destruct (String.eqb_spec (join_plus toComb) m) as [<-|Hne].
        * rewrite assoc_get_set_eq. now eexists.
        * now rewrite assoc_get_set_ne.
      + constructor; [|constructor]. rewrite assoc_get_set_eq. now eexists.
    - apply (ld_square s L). }
  cbv zeta in Hs. destruct Hs as [[-> _]|[q ->]]; [exact L1|]. cbn [snd].
  destruct L1 as [A B C]. constructor; assumption.
Qed.

Lemma for_each_loaded l s : loaded s -> loaded (snd (for_each combine_group l s)).
Proof.
  revert s. induction l as [|x r IH]; intros s L; cbn [for_each]; [exact L|].
  unfold bind. pose proof (combine_group_loaded x s L) as L1.
  destruct (combine_group x s) as [[u|e] s1]; cbn [snd] in *; auto.
Qed.

(** [combine] keeps a loaded object loaded, whether it returns or raises. *)
Lemma combine_loaded l s : loaded s -> loaded (snd (combine l s)).
Proof.
  intros L. unfold combine, bind. pose proof (for_each_loaded l s L) as L1.
  destruct (for_each combine_group l s) as [[u|e] s1]; cbn [snd] in *; [|exact L1].
  rewrite combine_finish_run. destruct L1 as [A B C].
  destruct (compute_perc_SD _ _); [destruct (String.eqb _ _)|]; cbn;
    constructor; assumption.
Qed.

(** ** combine: the totals of a whole call *)

Lemma assoc_get_app_Some m c cols ext :
  assoc_get m cols = Some c -> assoc_get m (cols ++ ext) = Some c.
Proof.
  induction cols as [|[n c0] r IH]; cbn; [discriminate|].
  destruct (String.eqb n m); [easy|exact IH].
Qed.

Lemma assoc_get_notin m cols : ~ In m (map fst cols) -> assoc_get m cols = None.
Proof.
  intros H. destruct (assoc_get m cols) as [c|] eqn:E; [|reflexivity].
  exfalso. apply H. clear H. induction cols as [|[n c0] r IH]; cbn in *; [discriminate|].
  destruct (String.eqb_spec n m) as [->|_]; [now left|right; now apply IH].
Qed.

Lemma index_of_app_Some m l ext i :
  index_of m l = Some i -> index_of m (l ++ ext) = Some i.
Proof.
  revert i. induction l as [|y r IH]; intros i; cbn; [discriminate|].
  destruct (String.eqb y m); [easy|].
  destruct (index_of m r) as [k|]; [|discriminate].
  intros H. now rewrite (IH k eq_refl).
Qed.

Lemma same_base_refl s : same_base s s.
Proof. repeat split; auto. Qed.

Lemma same_base_columns s t toComb :
  same_base s t ->
  Forall (fun m => is_Some (assoc_get m (columns (fitResults s)))) toComb ->
  columns_of (fitResults t) toComb = columns_of (fitResults s) toComb.
Proof.
  intros (Hc & _) H. unfold columns_of.
  induction H as [|m r [c Hm] _ IH]; [reflexivity|].
  cbn [map]. now rewrite IH, (Hc m c Hm), Hm.
Qed.

Lemma same_base_positions s t toComb :
  same_base s t ->
  Forall (fun m => exists i, index_of m (metabs s) = Some i) toComb ->
  positions (metabs t) toComb = positions (metabs s) toComb.
Proof.
  intros (_ & Hi & _) H. unfold positions.
  induction H as [|m r [i Hm] _ IH]; [reflexivity|].
  cbn [flat_map]. now rewrite IH, (Hi m i Hm), Hm.
Qed.

Lemma combined_column_rows s toComb :
  loaded s ->
  Forall (fun m => is_Some (assoc_get m (columns (fitResults s)))) toComb ->
  length (combined_column s toComb) = nrows (fitResults s)
  /\ forall r, r < nrows (fitResults s) ->
       nth r (combined_column s toComb) fzero
       = row_sum (columns_of (fitResults s) toComb) r.
Proof.
  intros L Hc.
  destruct (columns_of_lengths s toComb L Hc) as [Hlen _].
  destruct (summed_columns (columns_of (fitResults s) toComb)
              (np_zeros (nrows (fitResults s))) (nrows (fitResults s)) Hlen) as [Hl Hr].
  { unfold np_zeros. now rewrite length_replicate. }
  split; [exact Hl|]. intros r Hlt. unfold combined_column.
  rewrite Hr by exact Hlt. unfold row_sum. now rewrite nth_np_zeros.
Qed.

(** One pass over a group of names of [s], on an object [t] that reads
    what [s] reads, the joined name being new to its table. *)
Lemma combine_group_fresh s t toComb :
  loaded t -> same_base s t ->
  Forall (fun m => is_Some (assoc_get m (columns (fitResults s)))
                   /\ exists i, index_of m (metabs s) = Some i /\ i < length (cov s))
         toComb ->
  assoc_get (join_plus toComb) (columns (fitResults t)) = None ->
  combine_group toComb t
  = (Ok tt,
     set_crlb (crlb t ++ [jcovj (indicator (length (cov s))
                                           (positions (metabs s) toComb)) (cov s)])
       (set_metabs (metabs t ++ [join_plus toComb])
          (set_fitResults
             (mkDF (nrows (fitResults t))
                   (columns (fitResults t)
                    ++ [(join_plus toComb, combined_column s toComb)])) t))).
Proof.
  intros L B H Hnew.
  pose proof B as (Bc & Bi & Bcov & Brows).
  rewrite combine_group_run.
  2:{ eapply Forall_impl; [exact H|]. intros m ([c Hc] & i & Hi & Hlt). split.
      - exists c. now apply Bc.
      - exists i. split; [now apply Bi|now rewrite Bcov]. }
  cbv zeta.
  rewrite (same_base_columns s t toComb B)
    by (eapply Forall_impl; [exact H|]; now intros m [Hc _]).
  rewrite (same_base_positions s t toComb B)
    by (eapply Forall_impl; [exact H|]; intros m (_ & i & Hi & _); now exists i).
  rewrite quad_form_run.
  - unfold df_setitem. rewrite (assoc_set_fresh_eq _ _ _ Hnew).
    unfold combined_column. now rewrite Bcov, Brows.
  - apply (ld_square t L).
  - unfold indicator. now rewrite length_map, length_seq.
Qed.

Lemma for_each_combine_fresh s l :
  loaded s ->
  forall t,
    loaded t -> same_base s t ->
    Forall (Forall (fun m => is_Some (assoc_get m (columns (fitResults s)))
                             /\ exists i, index_of m (metabs s) = Some i
                                          /\ i < length (cov s))) l ->
    NoDup (df_names (fitResults t) ++ map join_plus l) ->
    for_each combine_group l t
    = (Ok tt,
       set_crlb (crlb t ++ map (fun g => jcovj (indicator (length (cov s))
                                                          (positions (metabs s) g))
                                               (cov s)) l)
         (set_metabs (metabs t ++ map join_plus l)
            (set_fitResults
               (mkDF (nrows (fitResults t))
                     (columns (fitResults t)
                      ++ map (fun g => (join_plus g, combined_column s g)) l)) t))).
Proof.
  intros Ls. induction l as [|g r IH]; intros t L B H Hnd; cbn [for_each map].
  - rewrite !app_nil_r. unfold ret. f_equal.
    destruct t as [? ? ? ? ? ? ? ? ? ? ? ? [n cols] ? ? ? ? ? ? ? ? ? ? ? ? ? ?].
    reflexivity.
  - apply Forall_cons in H as [Hg Hr].
    assert (Hnew : assoc_get (join_plus g) (columns (fitResults t)) = None).
    { apply assoc_get_notin. apply NoDup_app in Hnd as (_ & Hd & _).
      intros Hin. apply (Hd (join_plus g)); [now apply list_elem_of_In|].
      apply list_elem_of_In. now left. }
    pose proof (combine_group_fresh s t g L B Hg Hnew) as R.
    pose proof (combine_group_loaded g t L) as L1. rewrite R in L1. cbn [snd] in L1.
    erewrite bind_Ok by exact R.
    rewrite IH.
    + cbn [crlb metabs fitResults nrows columns set_crlb set_metabs set_fitResults].
      now rewrite <- !app_assoc.
    + exact L1.
    + destruct B as (Bc & Bi & Bcov & Brows). repeat split.
      * intros m c Hm. cbn. apply assoc_get_app_Some. now apply Bc.
      * intros m i Hm. cbn. apply index_of_app_Some. now apply Bi.
      * exact Bcov.
      * exact Brows.
    + exact Hr.
    + unfold df_names in *. cbn. rewrite map_app. cbn. now rewrite <- app_assoc.
Qed.


Lemma imap_assoc_get (F : nat -> string -> list float) names m :
  In m names ->
  is_Some (assoc_get m (imap (fun j n => (n, F j n)) names)).
Proof.
  revert F. induction names as [|x r IH]; intros F; [easy|].
  cbn. destruct (String.eqb_spec x m) as [_|Hne]; [now eexists|].
  intros [->|Hin]; [congruence|].
  apply (IH (fun j n => F (S j) n) Hin).
Qed.

Lemma imap_Forall_snd (P : list float -> Prop) (F : nat -> string -> list float) names :
  (forall j n, P (F j n)) ->
  Forall (fun c => P (snd c)) (imap (fun j n => (n, F j n)) names).
Proof.
  intros H. revert F H. induction names as [|x r IH]; intros F H; cbn; constructor.
  - apply H.
  - apply (IH (fun j n => F (S j) n)). intros. apply H.
Qed.

(** [loadResults] establishes it, on an object whose metabolite names are
    in its schema (as [fill_names] leaves them), the covariance routine
    returning a square matrix. *)
Lemma loadResults_loaded mrs fit s s' :
  (forall m, In m (metabs s) -> In m (params_names s)) ->
  (forall p, let c := calculate_lap_cov (model s) (base_poly s) (metab_groups s)
                                        (g s) (ppmlim s) mrs p in
             Forall (fun r => length r = length c) c) ->
  loadResults mrs fit s = (Ok tt, s') ->
  loaded s'.
Proof.
  intros Hsub Hsq H.
  apply loadResults_inv in H as (Hdf & _ & Hcov & _ & _ & Hm & _).
  unfold DataFrame_of_rows in Hdf.
  destruct (forallb _ _); [|discriminate]. injection Hdf as Hdf.
  constructor.
  - rewrite <- Hdf. cbn.
    apply (imap_Forall_snd (fun c => length c = _)). intros. now rewrite length_map.
  - rewrite <- Hdf, Hm. cbn. apply Forall_forall. intros m Hin.
    apply imap_assoc_get. apply Hsub. now apply list_elem_of_In.
  - rewrite Hcov. apply Hsq.
Qed.

(** ** The accessors that only read *)

Lemma group_params_readonly prefix function : readonly (group_params prefix function).
Proof.
  unfold group_params. apply readonly_bind; [apply readonly_get|intros s].
  destruct function as [f|].
  - apply readonly_bind; [|intros; apply readonly_ret].
    apply readonly_for_list. intros i.
    apply readonly_bind; [apply readonly_lift|intros; apply readonly_ret].
  - apply readonly_bind; [|intros; apply readonly_ret].
    apply readonly_for_list. intros i. apply readonly_lift.
Qed.

Lemma getShiftParams_readonly units function : readonly (getShiftParams units function).
Proof.
  unfold getShiftParams. apply readonly_bind; [apply group_params_readonly|intros p].
  apply readonly_bind; [apply readonly_get|intros s].
  repeat (match goal with |- context [if ?b then _ else _] => destruct b end);
    readonly_step.
Qed.

Lemma getLineShapeParams_readonly units function :
  readonly (getLineShapeParams units function).
Proof.
  unfold getLineShapeParams. apply readonly_bind; [apply readonly_get|intros s].
  destruct (String.eqb (model s) "lorentzian").
  - apply readonly_bind; [apply group_params_readonly|intros p].
    repeat (match goal with |- context [if ?b then _ else _] => destruct b end);
      readonly_step.
  - destruct (String.eqb (model s) "voigt"); readonly_step.
Qed.

Lemma fetch_run function name s :
  fetch function name s
  = (match assoc_get name (columns (fitResults s)) with
     | Some col => Ok (match function with None => View name | Some f => Own (f col) end)
     | None => Raise (KeyError name)
     end, s).
Proof.
  unfold fetch, df_getitem. rewrite bind_get.
  destruct (assoc_get name (columns (fitResults s))); reflexivity.
Qed.

(** [getPhaseParams] only reads when it is given a [function]: the values
    it scales are then objects of their own. With [function=None] they are
    views of the table, and scaling them writes to it. *)
Lemma getPhaseParams_function_readonly phi0 phi1 f :
  readonly (getPhaseParams phi0 phi1 (Some f)).
Proof.
  intros s. unfold getPhaseParams.
  unfold bind at 1. rewrite fetch_run.
  destruct (assoc_get "Phi0" _) as [c0|]; [|reflexivity].
  unfold bind at 1. rewrite fetch_run.
  destruct (assoc_get "Phi1" _) as [c1|]; [|reflexivity].
  destruct (String.eqb (lower phi0) "degrees");
    [|destruct (String.eqb (lower phi0) "radians"); [|reflexivity]];
    (destruct (String.eqb (lower phi1) "seconds");
     [|destruct (String.eqb (lower phi1) "deg_per_ppm");
       [|destruct (String.eqb (lower phi1) "deg_per_hz")]]); reflexivity.
Qed.

(** With [function=None], degrees and seconds: the call returns the scaled
    arrays and leaves them in the table, in place of the samples. *)
Lemma getPhaseParams_views_run s c0 c1 :
  assoc_get "Phi0" (columns (fitResults s)) = Some c0 ->
  assoc_get "Phi1" (columns (fitResults s)) = Some c1 ->
  let c0' := map (fun x => PrimFloat.mul x deg_factor) c0 in
  let c1' := map (fun x => PrimFloat.mul x sec_factor) c1 in
  getPhaseParams "degrees" "seconds" None s
  = (Ok (Arr c0', Arr c1'),
     set_fitResults (df_setitem "Phi1" c1' (df_setitem "Phi0" c0' (fitResults s))) s).
Proof.
  intros H0 H1 c0' c1'.
  unfold getPhaseParams, fetch, imul, value_of, df_getitem, bind, get, lift, modify, ret.
  cbv beta. rewrite H0. cbv beta iota. rewrite H1. cbv beta iota.
  change (String.eqb (lower "degrees") "degrees") with true.
  change (String.eqb (lower "seconds") "seconds") with true. cbv beta iota.
  rewrite H0. cbn [fitResults set_fitResults df_setitem columns nrows].
  rewrite (assoc_get_set_ne "Phi0" "Phi1") by discriminate. rewrite H1.
  cbn [fitResults set_fitResults df_setitem columns nrows].
  rewrite (assoc_get_set_ne "Phi1" "Phi0") by discriminate.
  rewrite !assoc_get_set_eq.
  cbn [fitResults set_fitResults df_setitem columns nrows].
  rewrite assoc_get_set_eq. reflexivity.
Qed.

(** * Further properties of the methods *)

(** ** loadResults, step by step *)

Lemma loadResults_run mrs fit s :
  loadResults mrs fit s
  = match DataFrame_of_rows (rows_of fit) (params_names s) with
    | Raise e => (Raise e, s)
    | Ok df =>
        match compute_perc_SD (crlb (before_perc_SD mrs df s)) (df_mean df) with
        | Raise e => (Raise e, before_perc_SD mrs df s)
        | Ok perc =>
            if inb "Cr" (metabs s) && inb "PCr" (metabs s)
            then calculateConcScaling mrs default_args (after_load mrs df perc s)
            else (Ok tt, after_load mrs df perc s)
        end
    end.
Proof.
  unfold loadResults. rewrite bind_get. unfold rows_of.
  destruct (DataFrame_of_rows _ (params_names s)) as [df|e] eqn:Edf; [|reflexivity].
  rewrite bind_lift_Ok, !bind_modify.
  unfold bind at 1. rewrite predictedFID_run.
  change (select_mode "Full" false _) with (Ok (FullModel false)). cbv iota beta.
  rewrite bind_modify.
  unfold bind at 1. rewrite predictedFID_run.
  change (select_mode "Baseline" false _) with (Ok BaselineOnly). cbv iota beta.
  rewrite bind_modify, bind_get, !bind_modify, bind_get.
  unfold after_load, before_perc_SD.
  cbn [crlb params set_crlb set_cov set_baseline set_pred set_params set_fitResults
       model base_poly metab_groups g ppmlim].
  cbv zeta.
  destruct (compute_perc_SD _ _) as [perc|e] eqn:E; [|reflexivity].
  rewrite bind_lift_Ok, bind_modify.
  unfold bind at 1. rewrite store_mcmc_run. rewrite bind_modify, bind_get.
  cbn [metabs method fitResults set_hzperppm set_perc_SD set_crlb set_cov
       set_baseline set_pred set_params set_fitResults model params base_poly
       metab_groups].
  destruct (String.eqb (method s) "MH");
    cbn [metabs set_hzperppm set_mcmc set_perc_SD set_crlb set_cov set_baseline
         set_pred set_params set_fitResults];
    destruct (inb "Cr" (metabs s) && inb "PCr" (metabs s)); reflexivity.
Qed.

Lemma DataFrame_of_rows_names rows names df :
  DataFrame_of_rows rows names = Ok df ->
  df_names df = names /\ nrows df = length rows
  /\ forall j n, names !! j = Some n ->
       columns df !! j = Some (n, map (fun r => nth j r fzero) rows).
Proof.
  unfold DataFrame_of_rows. destruct (forallb _ rows); [|discriminate].
  intros [= <-]. cbn. repeat split.
  - unfold df_names. cbn.
    assert (G : forall (F : nat -> string -> list float) l,
               map fst (imap (fun j n => (n, F j n)) l) = l).
    { intros F l. revert F. induction l as [|x r IH]; intros F; cbn; [reflexivity|].
      f_equal. apply (IH (fun j n => F (S j) n)). }
    apply G.
  - intros j n Hn. rewrite list_lookup_imap, Hn. reflexivity.
Qed.

(** X1. A returning [loadResults] leaves a table whose columns are the
    schema's names, in order, over one row per sample: column [j] holds
    entry [j] of every sample. The point estimates [params] are the means
    of the columns, one per schema name, and entry [i] of [crlb] is entry
    [(i, i)] of the covariance matrix. *)
Theorem loadResults_table :
  forall (mrs : MRS) (fit : FitInput) (s s' : FitRes),
    loadResults mrs fit s = (Ok tt, s') ->
    df_names (fitResults s') = params_names s
    /\ nrows (fitResults s') = length (rows_of fit)
    /\ (forall j n, params_names s !! j = Some n ->
          columns (fitResults s') !! j
          = Some (n, map (fun r => nth j r fzero) (rows_of fit))
          /\ params s' !! j
             = Some (series_mean (map (fun r => nth j r fzero) (rows_of fit))))
    /\ length (params s') = length (params_names s)
    /\ (forall i x, crlb s' !! i = Some x ->
          x = nth i (nth i (cov s') []) fzero).
Proof.
  intros mrs fit s s' H.
  apply loadResults_inv in H as (Hdf & Hp & _ & Hc & _).
  fold (rows_of fit) in Hdf.
  apply DataFrame_of_rows_names in Hdf as (Hn & Hr & Hcol).
  split; [exact Hn|]. split; [exact Hr|]. split; [|split].
  - intros j n Hj. split; [now apply Hcol|].
    rewrite Hp. unfold df_mean. now rewrite list_lookup_fmap, (Hcol j n Hj).
  - rewrite Hp. unfold df_mean. rewrite length_map, <- Hn. unfold df_names.
    now rewrite length_map.
  - intros i x Hi. rewrite Hc in Hi. unfold np_diagonal in Hi.
    rewrite list_lookup_fmap in Hi.
    destruct (seq 0 _ !! i) as [k|] eqn:Hk; [|discriminate].
    apply lookup_seq in Hk as [-> _]. cbn in Hi. now injection Hi as <-.
Qed.

(** X2. When a sample has not one entry per schema name, [loadResults]
    raises a ValueError before it has written anything. *)
Theorem loadResults_shape_error :
  forall (mrs : MRS) (fit : FitInput) (s : FitRes) (r : list float),
    In r (rows_of fit) -> length r <> length (params_names s) ->
    exists msg, loadResults mrs fit s = (Raise (ValueError msg), s).
Proof.
  intros mrs fit s r Hin Hlen. rewrite loadResults_run. unfold DataFrame_of_rows.
  destruct (forallb _ (rows_of fit)) eqn:F.
  - rewrite forallb_forall in F. apply F in Hin. apply Nat.eqb_eq in Hin. contradiction.
  - eexists. reflexivity.
Qed.

(** X3. [loadResults] computes the internal scaling itself exactly when
    both 'Cr' and 'PCr' are metabolite names: a returning call then leaves
    the internal factor set, with the label 'Cr+PCr', and molarity and
    molality unset; otherwise it leaves the scaling set and the reference
    labels as they were. *)
Theorem loadResults_auto_scaling :
  forall (mrs : MRS) (fit : FitInput) (s s' : FitRes),
    loadResults mrs fit s = (Ok tt, s') ->
    (inb "Cr" (metabs s) && inb "PCr" (metabs s) = true ->
       is_Some (internal (concScalings s'))
       /\ internalRef (concScalings s') = Some "Cr+PCr"
       /\ molarity (concScalings s') = None /\ molality (concScalings s') = None
       /\ referenceMetab s' = Some ["Cr"; "PCr"])
    /\ (inb "Cr" (metabs s) && inb "PCr" (metabs s) = false ->
          concScalings s' = concScalings s /\ intrefstr s' = intrefstr s
          /\ referenceMetab s' = referenceMetab s).
Proof.
  intros mrs fit s s' H. rewrite loadResults_run in H.
  destruct (DataFrame_of_rows _ _) as [df|e]; [|discriminate].
  destruct (compute_perc_SD _ _) as [perc|e]; [|discriminate].
  destruct (inb "Cr" (metabs s) && inb "PCr" (metabs s)); split; try discriminate.
  - intros _. rewrite calculateConcScaling_run in H.
    destruct (computed_scalings mrs default_args (after_load mrs df perc s))
      as [c|e] eqn:E; [|discriminate].
    injection H as <-.
    destruct (computed_scalings_shape _ _ _ _ E) as ([k Hk] & Hr & _ & Hn).
    destruct (Hn eq_refl) as [Hn1 Hn2]. cbn.
    repeat split; try assumption. now exists k.
  - intros _. injection H as <-. unfold after_load, before_perc_SD.
    destruct (String.eqb (method s) "MH"); cbn; repeat split; reflexivity.
Qed.

(** ** The percent-SD vector never holds NaN nor a value above 999 *)

Lemma clipped_in_range v :
  let x := nan_to_999 (clip_gt999 v) in
  PrimFloat.is_nan x = false /\ PrimFloat.ltb f999 x = false.
Proof.
  cbv zeta. rewrite clip_entry. unfold py_min.
  destruct (PrimFloat.is_nan v) eqn:Hn.
  - split; vm_compute; reflexivity.
  - destruct (PrimFloat.ltb f999 v) eqn:Hgt.
    + split; vm_compute; reflexivity.
    + split; assumption.
Qed.

(** X4. After a returning [loadResults] or [combine], no entry of the
    percent-SD vector is NaN and none is greater than 999. *)
Theorem perc_SD_range :
  forall (mrs : MRS) (fit : FitInput) (combineList : list (list string))
         (s s' : FitRes),
    loadResults mrs fit s = (Ok tt, s') \/ combine combineList s = (Ok tt, s') ->
    forall i x, perc_SD s' !! i = Some x ->
      PrimFloat.is_nan x = false /\ PrimFloat.ltb f999 x = false.
Proof.
  intros mrs fit l s s' H i x Hx.
  assert (E : exists crlb0 params0, compute_perc_SD crlb0 params0 = Ok (perc_SD s')).
  { destruct H as [H|H].
    - apply loadResults_inv in H as (_ & _ & _ & _ & H & _). eauto.
    - apply combine_perc_SD in H. eauto. }
  destruct E as (c0 & p0 & E).
  apply compute_perc_SD_inv in E as (raw & _ & E). rewrite E in Hx.
  unfold clip_perc_SD in Hx. rewrite !list_lookup_fmap in Hx.
  destruct (raw !! i) as [v|]; [|discriminate]. cbn in Hx. injection Hx as <-.
  apply clipped_in_range.
Qed.

(** ** combine: what a call adds, and what it leaves alone *)

Lemma combine_group_Ok toComb s s1 :
  combine_group toComb s = (Ok tt, s1) ->
  exists ds q,
    s1 = set_crlb (crlb s ++ [q])
           (set_metabs (metabs s ++ [join_plus toComb])
              (set_fitResults (df_setitem (join_plus toComb) ds (fitResults s)) s)).
Proof.
  intros H.
  destruct (combine_group_cases toComb s) as [[_ Hr]|(acc & _ & [[_ Hr]|[q Hq]])].
  - rewrite H in Hr. discriminate.
  - rewrite H in Hr. discriminate.
  - rewrite H in Hq. injection Hq as ->. now exists (fst acc), q.
Qed.

Lemma for_each_combine_Ok l s s1 :
  for_each combine_group l s = (Ok tt, s1) ->
  metabs s1 = metabs s ++ map join_plus l
  /\ length (crlb s1) = length (crlb s) + length l.
Proof.
  revert s. induction l as [|x r IH]; intros s; cbn [for_each map length].
  - unfold ret. intros [= <-]. rewrite app_nil_r. split; [reflexivity|lia].
  - intros H. apply bind_inv_Ok in H as ([] & s0 & H0 & H).
    apply combine_group_Ok in H0 as (ds & q & ->).
    apply IH in H as [Hm Hc]. cbn in Hm, Hc. rewrite length_app in Hc. cbn in Hc.
    split; [now rewrite Hm, <- app_assoc|lia].
Qed.

(** X5. A returning [combine] has appended to the metabolite list the
    joined name of every group of its list, in the order of the list, and
    one CRLB entry per group; [numMetabs] is the new length of the
    metabolite list. *)
Theorem combine_appends_names :
  forall (combineList : list (list string)) (s s' : FitRes),
    combine combineList s = (Ok tt, s') ->
    metabs s' = metabs s ++ map join_plus combineList
    /\ numMetabs s' = length (metabs s) + length combineList
    /\ length (crlb s') = length (crlb s) + length combineList.
Proof.
  intros l s s' H. unfold combine in H.
  apply bind_inv_Ok in H as ([] & s1 & H1 & H).
  apply for_each_combine_Ok in H1 as [Hm Hc].
  rewrite combine_finish_run in H.
  destruct (compute_perc_SD _ _) as [perc|e]; [|discriminate].
  injection H as <-.
  destruct (String.eqb (method s1) "MH"); cbn; rewrite Hm, ?Hc;
    rewrite ?length_app, ?length_map; repeat split; reflexivity.
Qed.

Lemma combine_group_frame toComb s :
  let s' := snd (combine_group toComb s) in
  params s' = params s /\ concScalings s' = concScalings s
  /\ hzperppm s' = hzperppm s /\ g s' = g s /\ metab_groups s' = metab_groups s
  /\ perc_SD s' = perc_SD s /\ numMetabs s' = numMetabs s.
Proof.
  destruct (combine_group_cases toComb s) as [[-> _]|(acc & _ & [[-> _]|[q ->]])];
    cbn; repeat split; reflexivity.
Qed.

Lemma for_each_combine_frame l s :
  let s' := snd (for_each combine_group l s) in
  params s' = params s /\ concScalings s' = concScalings s
  /\ hzperppm s' = hzperppm s /\ g s' = g s /\ metab_groups s' = metab_groups s
  /\ perc_SD s' = perc_SD s /\ numMetabs s' = numMetabs s.
Proof.
  revert s. induction l as [|x r IH]; intros s; cbn [for_each].
  - cbn. repeat split; reflexivity.
  - unfold bind. pose proof (combine_group_frame x s) as F.
    destruct (combine_group x s) as [[u|e] s1]; cbn [snd] in *.
    + specialize (IH s1). cbv zeta in *.
      destruct F as (F1 & F2 & F3 & F4 & F5 & F6 & F7).
      destruct IH as (I1 & I2 & I3 & I4 & I5 & I6 & I7).
      repeat split; congruence.
    + exact F.
Qed.

(** X6. [combine], whether it returns or raises, keeps the point
    estimates [params], the covariance matrix, the scaling set, the schema,
    the original metabolite names, the group layout and the Hz-per-ppm
    constant: only the table, the metabolite list and its count, the CRLB
    and percent-SD vectors and the sample statistics are written. In
    particular a scaling computed before the call is the one stored after
    it, and [params] keeps one entry per schema name while the table
    gains columns. *)
Theorem combine_frame :
  forall (combineList : list (list string)) (s : FitRes),
    let s' := snd (combine combineList s) in
    params s' = params s /\ cov s' = cov s /\ concScalings s' = concScalings s
    /\ params_names s' = params_names s /\ original_metabs s' = original_metabs s
    /\ g s' = g s /\ metab_groups s' = metab_groups s /\ hzperppm s' = hzperppm s.
Proof.
  intros l s. cbv zeta.
  destruct (combine_extends l s) as (E1 & E2 & _ & _ & _ & E6).
  assert (F : params (snd (combine l s)) = params s
              /\ concScalings (snd (combine l s)) = concScalings s
              /\ hzperppm (snd (combine l s)) = hzperppm s
              /\ g (snd (combine l s)) = g s
              /\ metab_groups (snd (combine l s)) = metab_groups s).
  { unfold combine, bind. pose proof (for_each_combine_frame l s) as F.
    destruct (for_each combine_group l s) as [[u|e] s1]; cbn [snd] in *.
    - cbv zeta in F. destruct F as (F1 & F2 & F3 & F4 & F5 & _).
      rewrite combine_finish_run.
      destruct (compute_perc_SD _ _); [destruct (String.eqb _ _)|]; cbn;
        repeat split; assumption.
    - cbv zeta in F. destruct F as (F1 & F2 & F3 & F4 & F5 & _).
      repeat split; assumption. }
  destruct F as (F1 & F2 & F3 & F4 & F5).
  repeat split; assumption.
Qed.

(** ** getConc on the whole list *)

Lemma raw_values_loaded function df l :
  Forall (fun m => is_Some (assoc_get m (columns df))) l ->
  raw_values function df l
  = Ok (map (fun c => match function with None => Arr c | Some f => f c end)
            (columns_of df l)).
Proof.
  induction 1 as [|m r [c Hc] _ IH]; [reflexivity|].
  cbn [raw_values columns_of map]. fold (columns_of df r).
  rewrite Hc, IH. reflexivity.
Qed.

(** X7. On a loaded object the raw concentrations of the whole list are one
    value per metabolite, in the order of the list: for each metabolite the
    [function] of its table column (the column itself for [function=None]).
    This stays so after every [combine], returning or raising: the names
    it appended have their column. *)
Theorem getConc_after_combine :
  forall (combineList : list (list string)) (function : summary) (s : FitRes),
    loaded s ->
    let values (t : FitRes) :=
      map (fun c => match function with None => Arr c | Some f => f c end)
          (columns_of (fitResults t) (metabs t)) in
    getConc "raw" None function s = (Ok (Stack (values s)), s)
    /\ let s' := snd (combine combineList s) in
       getConc "raw" None function s' = (Ok (Stack (values s')), s')
       /\ length (values s') = length (metabs s').
Proof.
  intros l function s L values.
  assert (G : forall t, loaded t ->
              getConc "raw" None function t = (Ok (Stack (values t)), t)).
  { intros t Lt. rewrite getConc_raw_all_run.
    now rewrite (raw_values_loaded function _ _ (ld_metabs t Lt)). }
  split; [now apply G|]. cbv zeta. split.
  - apply G. now apply combine_loaded.
  - unfold values, columns_of. now rewrite !length_map.
Qed.

(** ** combine: a joined name that is already a column *)

Lemma assoc_set_existing_length name c cols :
  is_Some (assoc_get name cols) -> length (assoc_set name c cols) = length cols.
Proof.
  induction cols as [|[n c0] r IH]; cbn.
  - intros [x Hx]. discriminate.
  - destruct (String.eqb n name); cbn; [reflexivity|]. intros H. now rewrite IH.
Qed.

Lemma broadcast2_mismatch (f : float -> float -> float) a b :
  length a = S (length b) -> 2 <= length b ->
  exists msg, broadcast2 f a b = Raise (ValueError msg).
Proof.
  intros Ha Hb. unfold broadcast2.
  destruct (Nat.eqb_spec (length a) (length b)) as [E|_]; [lia|].
  destruct a as [|x [|x' a]]; cbn in Ha; try lia.
  destruct b as [|y [|y' b]]; cbn in Hb; try lia.
  eexists. reflexivity.
Qed.

(** X8. When the joined name of a group is already a column of the table
    -- the group was combined before, or has a single name -- [combine]
    sets that column again without adding one, yet appends the name and
    the CRLB entry; the CRLB vector is then one longer than the table has
    columns and the percent-SD computation raises a ValueError. The object
    is left with the name and the entry appended and its count updated,
    and with the percent-SD vector of before. *)
Theorem combine_existing_name_raises :
  forall (s : FitRes) (toComb : list string),
    loaded s ->
    Forall (fun m => exists i, index_of m (metabs s) = Some i /\ i < length (cov s))
           toComb ->
    is_Some (assoc_get (join_plus toComb) (columns (fitResults s))) ->
    length (crlb s) = length (columns (fitResults s)) ->
    2 <= length (columns (fitResults s)) ->
    exists msg s1,
      combine [toComb] s = (Raise (ValueError msg), s1)
      /\ metabs s1 = metabs s ++ [join_plus toComb]
      /\ numMetabs s1 = S (length (metabs s))
      /\ length (crlb s1) = S (length (crlb s))
      /\ length (columns (fitResults s1)) = length (columns (fitResults s))
      /\ perc_SD s1 = perc_SD s.
Proof.
  intros s toComb L H Hcol Hlen H2.
  assert (Hc : Forall (fun m => is_Some (assoc_get m (columns (fitResults s)))
                                /\ exists i, index_of m (metabs s) = Some i
                                             /\ i < length (cov s)) toComb).
  { eapply Forall_impl; [exact H|]. intros m (i & Hi & Hlt). split; [|eauto].
    pose proof (ld_metabs s L) as F. rewrite Forall_forall in F. apply F.
    apply list_elem_of_In, inb_In. eapply index_of_inb. exact Hi. }
  pose proof (combine_group_run s toComb Hc) as R. cbv zeta in R.
  destruct (quad_form_square
              (indicator (length (cov s)) (positions (metabs s) toComb))
              (cov s) (ld_square s L)) as [q Hq].
  { unfold indicator. now rewrite length_map, length_seq. }
  rewrite Hq in R.
  unfold combine. cbn [for_each]. rewrite !bind_assoc.
  erewrite bind_Ok by exact R. rewrite bind_ret, combine_finish_run.
  cbn [crlb fitResults set_crlb set_metabs set_fitResults metabs method].
  unfold compute_perc_SD, raw_perc_SD.
  match goal with
  | |- context [broadcast2 ?f ?a ?b] =>
      destruct (broadcast2_mismatch f a b) as [msg Hm]
  end.
  - unfold df_mean, df_setitem. cbn [columns].
    rewrite !length_map, length_app, assoc_set_existing_length by exact Hcol.
    cbn. lia.
  - unfold df_mean, df_setitem. cbn [columns].
    rewrite length_map, assoc_set_existing_length by exact Hcol. exact H2.
  - rewrite Hm. exists msg. eexists. split; [reflexivity|]. cbn.
    unfold df_setitem. cbn [columns].
    rewrite !length_app, assoc_set_existing_length by exact Hcol. cbn.
    repeat split; lia.
Qed.

(** ** combine: a group that holds a combined name *)

Lemma index_of_app_fresh m l : inb m l = false -> index_of m (l ++ [m]) = Some (length l).
Proof.
  induction l as [|y r IH]; cbn.
  - now rewrite String.eqb_refl.
  - destruct (String.eqb y m); [discriminate|]. intros H. now rewrite IH.
Qed.

Lemma positions_In l toComb m i :
  In m toComb -> index_of m l = Some i -> In i (positions l toComb).
Proof.
  intros Hin Hi. unfold positions. apply in_flat_map. exists m.
  split; [exact Hin|]. rewrite Hi. now left.
Qed.

Lemma indicator_lookup n idxs k :
  k < n -> In k idxs -> indicator n idxs !! k = Some fone.
Proof.
  intros Hk Hin. unfold indicator.
  rewrite list_lookup_fmap, lookup_seq_lt by exact Hk. cbn.
  assert (E : existsb (Nat.eqb k) idxs = true).
  { apply existsb_exists. exists k. split; [exact Hin|apply Nat.eqb_refl]. }
  now rewrite E.
Qed.

Lemma schema_after_names names groups b :
  0 < groups -> schema names groups b !! length names = Some "gamma_0".
Proof.
  intros Hg. unfold schema. rewrite lookup_app_r by lia. rewrite Nat.sub_diag.
  destruct groups as [|k]; [lia|]. reflexivity.
Qed.

(** X9. The Jacobian is indexed by the position of a name in the
    metabolite list, the covariance matrix by the position of a parameter
    in the schema. A name that [combine] appended stands in the metabolite
    list right after the original names, where the schema has 'gamma_0':
    for a later group that holds such a name, the Jacobian the loop over
    its names builds is the indicator vector of the positions in the
    metabolite list, and so is set at the row and column of 'gamma_0'. *)
Theorem combined_name_position :
  forall (s s1 : FitRes) (first second : list string) (groups b : nat),
    loaded s ->
    params_names s = schema (metabs s) groups b -> 0 < groups ->
    inb (join_plus first) (metabs s) = false ->
    combine_group first s = (Ok tt, s1) ->
    In (join_plus first) second ->
    Forall (fun m => exists i, index_of m (metabs s1) = Some i /\ i < length (cov s))
           second ->
    let j := indicator (length (cov s)) (positions (metabs s1) second) in
    index_of (join_plus first) (metabs s1) = Some (length (metabs s))
    /\ params_names s1 !! length (metabs s) = Some "gamma_0"
    /\ j !! length (metabs s) = Some fone
    /\ exists ds,
         for_fold combine_metab second
                  (np_zeros (nrows (fitResults s1)), np_zeros (length (cov s1))) s1
         = (Ok (ds, j), s1).
Proof.
  intros s s1 first second groups b L Hschema Hg Hnew H1 Hin Hsecond j.
  pose proof (combine_group_loaded first s L) as L1. rewrite H1 in L1. cbn in L1.
  apply combine_group_Ok in H1 as (ds & q0 & ->).
  cbn [metabs params_names cov set_crlb set_metabs set_fitResults] in *.
  assert (Hi : index_of (join_plus first) (metabs s ++ [join_plus first])
               = Some (length (metabs s))) by now apply index_of_app_fresh.
  split; [exact Hi|]. split; [rewrite Hschema; now apply schema_after_names|].
  assert (Hlt : length (metabs s) < length (cov s)).
  { rewrite Forall_forall in Hsecond.
    destruct (Hsecond (join_plus first)) as (i & Hi' & Hlt).
    { now apply list_elem_of_In. }
    rewrite Hi in Hi'. now injection Hi' as <-. }
  split.
  { apply indicator_lookup; [exact Hlt|]. eapply positions_In; eassumption. }
  eexists. rewrite inner_loop_run.
  - cbn [metabs set_crlb set_metabs set_fitResults].
    rewrite jacobian_is_indicator. reflexivity.
  - eapply Forall_impl; [exact Hsecond|]. intros m (i & Hi' & Hlt'). split.
    + pose proof (ld_metabs _ L1) as F. rewrite Forall_forall in F. apply F.
      apply list_elem_of_In, inb_In. eapply index_of_inb. exact Hi'.
    + exists i. split; [exact Hi'|]. unfold np_zeros. now rewrite length_replicate.
Qed.

(** ** calculateConcScaling: a call that raises *)

(** X10. A call of [calculateConcScaling] that raises has written the four
    reference labels of the call and nothing else: the scaling set is the
    one of before, so the labels no longer name the reference the stored
    internal factor was computed for. *)
Theorem calculateConcScaling_raise_keeps_scalings :
  forall (mrs : MRS) (a : ScalingArgs) (s s' : FitRes) (e : exn),
    calculateConcScaling mrs a s = (Raise e, s') ->
    concScalings s' = concScalings s
    /\ intrefstr s' = Some (join_plus (a_referenceMetab a))
    /\ referenceMetab s' = Some (a_referenceMetab a)
    /\ waterReferenceMetab s' = Some (a_waterReferenceMetab a)
    /\ waterReferenceMetabProtons s' = Some (a_wRefMetabProtons a)
    /\ fitResults s' = fitResults s /\ metabs s' = metabs s
    /\ params s' = params s /\ crlb s' = crlb s /\ perc_SD s' = perc_SD s.
Proof.
  intros mrs a s s' e H. rewrite calculateConcScaling_run in H.
  destruct (computed_scalings mrs a s); [discriminate|].
  injection H as _ <-. cbn. repeat split; reflexivity.
Qed.

(** X11. The water reference is looked up as a [predictedFID] mode. On a
    loaded object, a call given the water data whose water reference
    metabolite is neither in the metabolite list nor 'full' or 'baseline'
    (in any case) raises the unknown-mode error as soon as the internal
    reference has been quantified, and the internal factor it has computed
    is not stored. *)
Theorem calculateConcScaling_unknown_water_reference :
  forall (mrs : MRS) (a : ScalingArgs) (s : FitRes),
    loaded s -> water_supplied a = true ->
    String.eqb (lower (a_waterReferenceMetab a)) "full" = false ->
    String.eqb (lower (a_waterReferenceMetab a)) "baseline" = false ->
    inb (a_waterReferenceMetab a) (metabs s) = false ->
    (forall conc, is_Ok (quantifyInternal (a_referenceMetab a) conc (metabs s)) = true) ->
    fst (calculateConcScaling mrs a s) = Raise invalid_mode
    /\ concScalings (snd (calculateConcScaling mrs a s)) = concScalings s.
Proof.
  intros mrs a s L Hw Hf Hb Hm Hq. rewrite calculateConcScaling_run.
  unfold computed_scalings.
  rewrite (raw_values_loaded fn_mean _ _ (ld_metabs s L)).
  match goal with
  | |- context [quantifyInternal ?r ?c ?m] =>
      specialize (Hq c); destruct (quantifyInternal r c m) as [k|e0]; [|discriminate]
  end.
  unfold water_supplied in Hw.
  destruct (a_waterRefFID a) as [w|]; [|discriminate].
  destruct (a_tissueFractions a) as [tf|]; [|discriminate].
  destruct (a_TE a) as [te|]; [|discriminate].
  unfold select_mode. rewrite Hf, Hb, Hm. split; reflexivity.
Qed.

(** ** to_file: the concentrations frame *)

Lemma out_assign_first name vals :
  out_assign name vals (mkOut 0 []) = Ok (mkOut (length vals) [(name, vals)]).
Proof.
  unfold out_assign. cbn. destruct (length vals) as [|n]; cbn; [reflexivity|].
  now rewrite Nat.eqb_refl.
Qed.

Lemma out_set_fresh name vals cols :
  forallb (fun c => negb (String.eqb (fst c) name)) cols = true ->
  out_set name vals cols = cols ++ [(name, vals)].
Proof.
  induction cols as [|[n c] r IH]; cbn; [reflexivity|].
  destruct (String.eqb n name); cbn; [discriminate|]. intros H. now rewrite IH.
Qed.

Lemma out_assign_fresh name vals n cols :
  length vals = n ->
  forallb (fun c => negb (String.eqb (fst c) name)) cols = true ->
  out_assign name vals (mkOut n cols) = Ok (mkOut n (cols ++ [(name, vals)])).
Proof.
  intros <- Hf. unfold out_assign. cbn [out_index out_columns].
  destruct (length vals) as [|k]; cbn [Nat.eqb andb negb out_index out_columns];
    rewrite ?Nat.eqb_refl; now rewrite out_set_fresh.
Qed.

Lemma optional_column_run s scaling name cols :
  loaded s -> is_scaling_key scaling = true ->
  forallb (fun c => negb (String.eqb (fst c) name)) cols = true ->
  optional_column (scaling_factor (concScalings s) scaling) name scaling
                  (mkOut (length (metabs s)) cols) s
  = (Ok (mkOut (length (metabs s))
               (cols ++ scaled_column name (scaling_factor (concScalings s) scaling)
                          (map (fun c => Scalar (series_mean c))
                               (columns_of (fitResults s) (metabs s))))), s).
Proof.
  intros L Hkey Hf. unfold optional_column, scaled_column.
  destruct (scaling_factor (concScalings s) scaling) as [k|] eqn:Hk.
  - assert (Hraw : rawConc_of None fn_mean s
                   = (Ok (Stack (map (fun c => Scalar (series_mean c))
                                     (columns_of (fitResults s) (metabs s)))), s)).
    { unfold rawConc_of. rewrite bind_get. unfold bind at 1.
      rewrite for_list_dfFunc_run.
      now rewrite (raw_values_loaded fn_mean _ _ (ld_metabs s L)). }
    unfold bind. rewrite (getConc_run scaling None fn_mean s _ Hraw).
    rewrite (scaling_key_not_raw scaling Hkey), Hkey, Hk.
    cbn [ndarray_mul cells_of]. unfold lift. rewrite map_map.
    rewrite out_assign_fresh; [reflexivity| |exact Hf].
    unfold columns_of. now rewrite !length_map.
  - unfold ret. now rewrite app_nil_r.
Qed.

(** X12. On a loaded object whose count [numMetabs] is the length of the
    metabolite list and whose percent-SD vector has at least that many
    entries, [to_file] with 'concentrations' returns a frame with one row
    per metabolite and these columns, in order: 'Metab', the names; 'Raw
    conc', the means of the metabolites' table columns; for each of the
    internal, molality and molarity scalings that is set, the same means
    times the factor, headed '/' followed by the internal reference label,
    'mMol/kg' and 'mM'; and '%CRLB', the first [numMetabs] entries of the
    percent-SD vector. The object is unchanged. *)
Theorem to_file_concentrations :
  forall (s : FitRes),
    loaded s -> numMetabs s = length (metabs s) ->
    length (metabs s) <= length (perc_SD s) ->
    let raw := map (fun c => Scalar (series_mean c))
                   (columns_of (fitResults s) (metabs s)) in
    let concstr := "/" +:+ match internalRef (concScalings s) with
                           | Some r => r
                           | None => "None"
                           end in
    to_file "concentrations" s
    = (Ok (mkOut (length (metabs s))
                 ([("Metab", map CStr (metabs s)); ("Raw conc", map CVal raw)]
                  ++ scaled_column concstr (internal (concScalings s)) raw
                  ++ scaled_column "mMol/kg" (molality (concScalings s)) raw
                  ++ scaled_column "mM" (molarity (concScalings s)) raw
                  ++ [("%CRLB", num_cells (firstn (length (metabs s)) (perc_SD s)))])),
       s).
Proof.
  intros s L Hn Hp raw concstr.
  unfold to_file. change (String.eqb "concentrations" "concentrations") with true.
  cbv iota. rewrite bind_get. rewrite out_assign_first, bind_lift_Ok, length_map.
  unfold bind at 1. rewrite getConc_raw_all_run.
  rewrite (raw_values_loaded fn_mean _ _ (ld_metabs s L)).
  change (map _ (columns_of (fitResults s) (metabs s))) with raw.
  cbn [cells_of]. rewrite out_assign_fresh;
    [|unfold raw, columns_of; now rewrite !length_map|reflexivity].
  rewrite bind_lift_Ok, bind_get.
  pose proof (optional_column_run s "internal" concstr
                [("Metab", map CStr (metabs s)); ("Raw conc", map CVal raw)]
                L eq_refl eq_refl) as H1.
  change (scaling_factor (concScalings s) "internal")
    with (internal (concScalings s)) in H1.
  fold raw in H1. unfold bind at 1. fold concstr. cbn [app] in H1 |- *.
  rewrite H1. rewrite bind_get.
  assert (F2 : forall k, forallb (fun c : string * list cell =>
                                    negb (String.eqb (fst c) "mMol/kg"))
                 ([("Metab", map CStr (metabs s)); ("Raw conc", map CVal raw)]
                  ++ scaled_column concstr k raw) = true).
  { intros [x|]; reflexivity. }
  pose proof (optional_column_run s "molality" "mMol/kg" _ L eq_refl
                (F2 (internal (concScalings s)))) as H2.
  change (scaling_factor (concScalings s) "molality")
    with (molality (concScalings s)) in H2.
  fold raw in H2. unfold bind at 1. cbn [app] in H2 |- *. rewrite H2.
  rewrite bind_get.
  assert (F3 : forall k k', forallb (fun c : string * list cell =>
                                       negb (String.eqb (fst c) "mM"))
                 (([("Metab", map CStr (metabs s)); ("Raw conc", map CVal raw)]
                   ++ scaled_column concstr k raw)
                  ++ scaled_column "mMol/kg" k' raw) = true).
  { intros [x|] [y|]; reflexivity. }
  pose proof (optional_column_run s "molarity" "mM" _ L eq_refl
                (F3 (internal (concScalings s)) (molality (concScalings s)))) as H3.
  change (scaling_factor (concScalings s) "molarity")
    with (molarity (concScalings s)) in H3.
  fold raw in H3. unfold bind at 1. cbn [app] in H3 |- *. rewrite H3.
  rewrite bind_get. unfold lift. rewrite Hn.
  rewrite out_assign_fresh.
  - cbn [app]. rewrite <- !app_assoc. reflexivity.
  - unfold num_cells. rewrite length_map, length_firstn. lia.
  - destruct (internal (concScalings s)), (molality (concScalings s)),
      (molarity (concScalings s)); reflexivity.
Qed.

(** ** fill_names and __init__ *)

Lemma fill_names_fields names b mg s :
  mg <> Some [] ->
  exists s',
    fill_names names b mg s = (Ok tt, s')
    /\ params_names s' = schema names (numGroups mg) b
    /\ metabs s' = names /\ g s' = numGroups mg
    /\ model s' = model s /\ baseline_order s' = baseline_order s.
Proof.
  intros Hne.
  assert (Hg : (match mg with
                | None => ret 1
                | Some l => m <- lift (py_max l) ;; ret (m + 1)
                end) = ret (numGroups mg)).
  { destruct mg as [l|]; [|reflexivity].
    rewrite py_max_list_max by congruence. reflexivity. }
  unfold fill_names. rewrite Hg. clear Hg.
  repeat step.
  erewrite bind_Ok by apply append_each.
  erewrite bind_Ok by apply append_each.
  repeat step. rewrite append_pairs. simpl.
  eexists. split; [reflexivity|]. simpl.
  rewrite <- !app_assoc. fold (schema names (numGroups mg) b).
  repeat split; reflexivity.
Qed.

Lemma init_fields model0 method0 names mg b B lim :
  mg <> Some [] ->
  exists s0,
    init model0 method0 names mg b B lim = (Ok tt, s0)
    /\ params_names s0 = schema names (numGroups mg) b
    /\ metabs s0 = names /\ g s0 = numGroups mg
    /\ model s0 = model0 /\ baseline_order s0 = b.
Proof.
  intros Hne. unfold init.
  destruct (fill_names_fields names b mg (blank model0 method0 lim B) Hne)
    as (s1 & H1 & Hp & Hm & Hg & Hmod & _).
  erewrite bind_Ok by exact H1.
  rewrite bind_modify. eexists. split; [reflexivity|]. cbn in Hmod |- *.
  repeat split; assumption.
Qed.

(** X13. Given an empty list of group indices, [fill_names] raises the
    ValueError of [max] half way: the metabolite names, their count and the
    bare names as schema are written, without any of the gamma, eps, phase
    and baseline names; the group count and the group assignment are those
    of before. *)
Theorem fill_names_empty_groups :
  forall (names : list string) (baseline_order : nat) (s : FitRes),
    exists s',
      fill_names names baseline_order (Some []) s
      = (Raise (ValueError "max() arg is an empty sequence"), s')
      /\ params_names s' = names /\ metabs s' = names
      /\ original_metabs s' = names /\ numMetabs s' = length names
      /\ g s' = g s /\ metab_groups s' = metab_groups s.
Proof.
  intros names b s. unfold fill_names. repeat step.
  eexists. split; [reflexivity|]. cbn. repeat split; reflexivity.
Qed.

(** ** loadResults: what it derives, and what it keeps *)

Lemma loadResults_config mrs fit s s' :
  loadResults mrs fit s = (Ok tt, s') ->
  g s' = g s /\ baseline_order s' = baseline_order s /\ model s' = model s
  /\ method s' = method s /\ metab_groups s' = metab_groups s
  /\ numMetabs s' = numMetabs s /\ original_metabs s' = original_metabs s
  /\ hzperppm s' = PrimFloat.div (centralFrequency mrs) f1e6
  /\ pred s' = Some (SpecToFID (getFittedModel (model s) (params s') (base_poly s)
                                  (metab_groups s) mrs (FullModel false)))
  /\ baseline s' = Some (SpecToFID (getFittedModel (model s) (params s') (base_poly s)
                                      (metab_groups s) mrs BaselineOnly))
  /\ (if String.eqb (method s) "MH"
      then mcmc_cov s' = Some (df_cov (fitResults s'))
           /\ mcmc_cor s' = Some (df_corr (fitResults s'))
           /\ mcmc_var s' = Some (df_var (fitResults s'))
      else mcmc_cov s' = mcmc_cov s /\ mcmc_cor s' = mcmc_cor s
           /\ mcmc_var s' = mcmc_var s).
Proof.
  intros H. rewrite loadResults_run in H.
  destruct (DataFrame_of_rows _ _) as [df|e]; [|discriminate].
  destruct (compute_perc_SD _ _) as [perc|e]; [|discriminate].
  destruct (inb "Cr" (metabs s) && inb "PCr" (metabs s)).
  - rewrite calculateConcScaling_run in H.
    destruct (computed_scalings _ _ _); [|discriminate].
    injection H as <-. unfold after_load, before_perc_SD, with_reference.
    destruct (String.eqb (method s) "MH"); cbn; repeat split; reflexivity.
  - injection H as <-. unfold after_load, before_perc_SD.
    destruct (String.eqb (method s) "MH"); cbn; repeat split; reflexivity.
Qed.

(** X14. A returning [loadResults] stores the predicted FID of the full
    model and of the baseline alone, both evaluated at the point estimates
    it has just stored, and the Hz-per-ppm constant, the central frequency
    over 1e6. The sample covariance, correlation and variance of the table
    are stored exactly when the method is 'MH', and otherwise left as they
    were. The group count, the model and the method are kept. *)
Theorem loadResults_derived :
  forall (mrs : MRS) (fit : FitInput) (s s' : FitRes),
    loadResults mrs fit s = (Ok tt, s') ->
    pred s' = Some (SpecToFID (getFittedModel (model s) (params s') (base_poly s)
                                 (metab_groups s) mrs (FullModel false)))
    /\ baseline s' = Some (SpecToFID (getFittedModel (model s) (params s') (base_poly s)
                                        (metab_groups s) mrs BaselineOnly))
    /\ hzperppm s' = PrimFloat.div (centralFrequency mrs) f1e6
    /\ (method s = "MH" ->
        mcmc_cov s' = Some (df_cov (fitResults s'))
        /\ mcmc_cor s' = Some (df_corr (fitResults s'))
        /\ mcmc_var s' = Some (df_var (fitResults s')))
    /\ (method s <> "MH" ->
        mcmc_cov s' = mcmc_cov s /\ mcmc_cor s' = mcmc_cor s
        /\ mcmc_var s' = mcmc_var s)
    /\ g s' = g s /\ model s' = model s /\ method s' = method s.
Proof.
  intros mrs fit s s' H.
  apply loadResults_config in H
    as (Hg & _ & Hmod & Hmeth & _ & _ & _ & Hhz & Hp & Hb & Hmc).
  split; [exact Hp|]. split; [exact Hb|]. split; [exact Hhz|].
  destruct (String.eqb_spec (method s) "MH") as [E|E].
  - split; [intros _; exact Hmc|]. split; [intros N; contradiction|].
    repeat split; assumption.
  - split; [intros N; contradiction|]. split; [intros _; exact Hmc|].
    repeat split; assumption.
Qed.

(** ** The per-group accessors *)

Lemma for_list_columns prefix df l s :
  (forall i, In i l -> is_Some (assoc_get (prefix +:+ pretty i) (columns df))) ->
  for_list (fun i => lift (df_getitem (prefix +:+ pretty i) df)) l s
  = (Ok (map (group_column prefix df) l), s).
Proof.
  induction l as [|i r IH]; intros H; cbn [for_list map]; [reflexivity|].
  destruct (H i (or_introl eq_refl)) as [c Hc].
  unfold df_getitem at 1, group_column at 1. rewrite Hc, bind_lift_Ok.
  unfold bind at 1. rewrite IH by (intros j Hj; apply H; now right).
  reflexivity.
Qed.

Lemma for_list_summaries prefix df (f : list float -> ndval) l s :
  (forall i, In i l -> is_Some (assoc_get (prefix +:+ pretty i) (columns df))) ->
  for_list (fun i => c <- lift (df_getitem (prefix +:+ pretty i) df) ;; ret (f c)) l s
  = (Ok (map (fun i => f (group_column prefix df i)) l), s).
Proof.
  induction l as [|i r IH]; intros H; cbn [for_list map]; [reflexivity|].
  destruct (H i (or_introl eq_refl)) as [c Hc].
  unfold df_getitem at 1, group_column at 1. rewrite Hc.
  rewrite bind_assoc, bind_lift_Ok, bind_ret.
  unfold bind at 1. rewrite IH by (intros j Hj; apply H; now right).
  reflexivity.
Qed.

Lemma group_params_run prefix function s :
  (forall i, i < g s ->
     is_Some (assoc_get (prefix +:+ pretty i) (columns (fitResults s)))) ->
  group_params prefix function s = (Ok (group_values prefix function s), s).
Proof.
  intros H. unfold group_params, group_values. rewrite bind_get.
  assert (H' : forall i, In i (seq 0 (g s)) ->
                 is_Some (assoc_get (prefix +:+ pretty i) (columns (fitResults s)))).
  { intros i Hi. apply H. apply in_seq in Hi. lia. }
  destruct function as [f|].
  - unfold bind at 1. rewrite for_list_summaries by exact H'. reflexivity.
  - unfold bind at 1. rewrite for_list_columns by exact H'. unfold ret.
    do 3 f_equal. apply map_ext. intros r. now rewrite map_map.
Qed.

(** X15. With [function=None], on a loaded object that has the columns
    'eps_0' .. 'eps_{g-1}' and for a unit 'ppm' or 'Hz' in any letter case,
    [getShiftParams] returns one row per sample and one entry per group:
    entry [i] of row [r] is sample [r] of column 'eps_i' times the factor of
    the unit, [1/(2 pi hzperppm)] for ppm and [1/(2 pi)] for Hz. The
    table is not written. *)
Theorem getShiftParams_samples :
  forall (s : FitRes) (units : string) (k : float),
    loaded s ->
    (forall i, i < g s ->
       is_Some (assoc_get ("eps_" +:+ pretty i) (columns (fitResults s)))) ->
    shift_factor units (hzperppm s) = Some k ->
    exists rows,
      getShiftParams units None s = (Ok (Stack rows), s)
      /\ length rows = nrows (fitResults s)
      /\ forall r i col x,
           i < g s ->
           assoc_get ("eps_" +:+ pretty i) (columns (fitResults s)) = Some col ->
           col !! r = Some x ->
           exists a, rows !! r = Some (Arr a) /\ length a = g s
                     /\ a !! i = Some (PrimFloat.mul x k).
Proof.
  intros s units k L H Hk.
  unfold getShiftParams. erewrite bind_Ok by (apply group_params_run; exact H).
  rewrite bind_get. unfold shift_factor in Hk.
  assert (R : (if String.eqb (lower units) "ppm"
               then ret (ndarray_mul (group_values "eps_" None s)
                           (PrimFloat.div 1%float
                              (PrimFloat.mul (PrimFloat.mul 2%float np_pi) (hzperppm s))))
               else if String.eqb (lower units) "hz"
                    then ret (ndarray_mul (group_values "eps_" None s) sec_factor)
                    else raise (ValueError "Units must be Hz or ppm.")) s
              = (Ok (ndarray_mul (group_values "eps_" None s) k), s)).
  { destruct (String.eqb (lower units) "ppm"); [now injection Hk as <-|].
    destruct (String.eqb (lower units) "hz"); [now injection Hk as <-|discriminate]. }
  rewrite R. cbn [group_values ndarray_mul]. eexists. split; [reflexivity|].
  split; [now rewrite !length_map, length_seq|].
  intros r i col x Hi Hcol Hx.
  assert (Hr : r < nrows (fitResults s)).
  { pose proof (ld_rows s L) as F. rewrite Forall_forall in F.
    assert (Hin : In ("eps_" +:+ pretty i, col) (columns (fitResults s))).
    { clear -Hcol. induction (columns (fitResults s)) as [|[n c] rest IH];
        cbn in Hcol; [discriminate|].
      destruct (String.eqb_spec n ("eps_" +:+ pretty i)) as [E|E].
      - injection Hcol as <-. left. now rewrite E.
      - right. now apply IH. }
    apply list_elem_of_In in Hin. apply F in Hin. cbn in Hin.
    rewrite <- Hin. now apply lookup_lt_Some in Hx. }
  eexists. rewrite !list_lookup_fmap, lookup_seq_lt by exact Hr. cbn.
  split; [reflexivity|]. split; [now rewrite !length_map, length_seq|].
  rewrite !list_lookup_fmap, lookup_seq_lt by exact Hi. cbn.
  unfold group_column. rewrite Hcol. cbn.
  now rewrite (nth_lookup_Some _ _ _ _ Hx).
Qed.

(** X16. [getLineShapeParams] by model. For 'lorentzian', on an object
    with the columns 'gamma_0' .. 'gamma_{g-1}': with a [function] it
    returns one value per group, the [function] of column 'gamma_i' times
    [1/pi] for Hz or [1/(pi hzperppm)] for ppm, and for any other unit it
    raises a ValueError. For 'voigt' it raises the exception 'TO DO.'. For
    every other model it returns None, whatever the unit, valid or not. It
    never writes to the object. *)
Theorem getLineShapeParams_by_model :
  forall (s : FitRes) (units : string) (f : list float -> ndval),
    (model s = "lorentzian" ->
     (forall i, i < g s ->
        is_Some (assoc_get ("gamma_" +:+ pretty i) (columns (fitResults s)))) ->
     getLineShapeParams units (Some f) s
     = (match width_factor units (hzperppm s) with
        | Some k =>
            Ok (Some (Stack (map (fun i => ndval_mul
                                             (f (group_column "gamma_" (fitResults s) i)) k)
                                 (seq 0 (g s)))))
        | None => Raise (ValueError "Units must be Hz or ppm.")
        end, s))
    /\ (model s = "voigt" ->
        forall function,
          getLineShapeParams units function s = (Raise (PyException "TO DO."), s))
    /\ (model s <> "lorentzian" -> model s <> "voigt" ->
        forall function, getLineShapeParams units function s = (Ok None, s)).
Proof.
  intros s units f. split; [|split].
  - intros Hm H. unfold getLineShapeParams. rewrite bind_get, Hm.
    change (String.eqb "lorentzian" "lorentzian") with true. cbv iota.
    erewrite bind_Ok by (apply group_params_run; exact H).
    unfold width_factor.
    destruct (String.eqb (lower units) "hz").
    { cbn [group_values ndarray_mul]. now rewrite map_map. }
    destruct (String.eqb (lower units) "ppm"); [|reflexivity].
    cbn [group_values ndarray_mul]. now rewrite map_map.
  - intros Hm function. unfold getLineShapeParams. rewrite bind_get, Hm. reflexivity.
  - intros H1 H2 function. unfold getLineShapeParams. rewrite bind_get.
    destruct (String.eqb_spec (model s) "lorentzian") as [E|_]; [contradiction|].
    destruct (String.eqb_spec (model s) "voigt") as [E|_]; [contradiction|].
    reflexivity.
Qed.

(** ** getPhaseParams: the order of its checks *)

(** X17. [getPhaseParams] reads both phase columns, then checks the unit
    of the zero-order phase, then that of the first-order phase. With both
    columns in the table and a zero-order unit that is neither 'degrees' nor
    'radians', it raises the zero-order error whatever the first-order unit
    and the [function], and the object is unchanged. *)
Theorem getPhaseParams_phi0_checked_first :
  forall (s : FitRes) (phi0 phi1 : string) (function : summary),
    is_Some (assoc_get "Phi0" (columns (fitResults s))) ->
    is_Some (assoc_get "Phi1" (columns (fitResults s))) ->
    String.eqb (lower phi0) "degrees" = false ->
    String.eqb (lower phi0) "radians" = false ->
    getPhaseParams phi0 phi1 function s
    = (Raise (ValueError "phi0 must be degrees or radians"), s).
Proof.
  intros s phi0 phi1 function [c0 H0] [c1 H1] Hd Hr.
  unfold getPhaseParams.
  unfold bind at 1. rewrite fetch_run, H0.
  unfold bind at 1. rewrite fetch_run, H1.
  rewrite Hd, Hr. reflexivity.
Qed.

(** X18. With [function=None] the zero-order phase is scaled in the table
    before the first-order unit is checked: a call with 'degrees' and a
    first-order unit that is none of 'seconds', 'deg_per_ppm' and
    'deg_per_hz' raises the first-order error and leaves column 'Phi0' of
    the table multiplied by [pi/180], the rest of the object as it was. *)
Theorem getPhaseParams_phi1_checked_after_write :
  forall (s : FitRes) (phi0 phi1 : string) (c0 : list float),
    assoc_get "Phi0" (columns (fitResults s)) = Some c0 ->
    is_Some (assoc_get "Phi1" (columns (fitResults s))) ->
    String.eqb (lower phi0) "degrees" = true ->
    String.eqb (lower phi1) "seconds" = false ->
    String.eqb (lower phi1) "deg_per_ppm" = false ->
    String.eqb (lower phi1) "deg_per_hz" = false ->
    getPhaseParams phi0 phi1 None s
    = (Raise (ValueError "phi1 must be seconds or deg_per_ppm or deg_per_hz "),
       set_fitResults
         (df_setitem "Phi0" (map (fun x => PrimFloat.mul x deg_factor) c0)
                     (fitResults s)) s).
Proof.
  intros s phi0 phi1 c0 H0 [c1 H1] Hd H2 H3 H4.
  unfold getPhaseParams.
  unfold bind at 1. rewrite fetch_run, H0.
  unfold bind at 1. rewrite fetch_run, H1.
  rewrite Hd, H2, H3, H4.
  unfold imul, df_getitem, bind, get, lift, modify, ret, raise. cbv beta iota.
  rewrite H0. reflexivity.
Qed.

(** ** combine: the percent-SD vector it leaves *)

Lemma for_each_combine_columns l :
  forall s s1,
    for_each combine_group l s = (Ok tt, s1) ->
    length (columns (fitResults s1)) <= length (columns (fitResults s)) + length l
    /\ length (columns (fitResults s)) <= length (columns (fitResults s1))
    /\ (length (columns (fitResults s1)) = length (columns (fitResults s)) + length l ->
        exists ext, columns (fitResults s1) = columns (fitResults s) ++ ext)
    /\ exists ext, crlb s1 = crlb s ++ ext /\ length ext = length l.
Proof.
  induction l as [|x r IH]; intros s s1; cbn [for_each length].
  - unfold ret. intros [= <-]. repeat split; try lia.
    + intros _. exists []. now rewrite app_nil_r.
    + exists []. now rewrite app_nil_r.
  - intros H. apply bind_inv_Ok in H as ([] & s0 & H0 & H).
    apply combine_group_Ok in H0 as (ds & q & ->).
    apply IH in H as (B1 & B2 & Hpre & ext & Hc & Hl).
    cbn [fitResults crlb set_crlb set_metabs set_fitResults df_setitem columns]
      in B1, B2, Hpre, Hc.
    destruct (assoc_get (join_plus x) (columns (fitResults s))) as [c0|] eqn:E.
    + assert (El : length (assoc_set (join_plus x) ds (columns (fitResults s)))
                   = length (columns (fitResults s))).
      { apply assoc_set_existing_length. rewrite E. now eexists. }
      rewrite El in B1, B2, Hpre. repeat split; try lia.
      exists (q :: ext). rewrite Hc, <- app_assoc. cbn. now rewrite Hl.
    + rewrite (assoc_set_fresh_eq _ _ _ E) in B1, B2, Hpre.
      rewrite length_app in B1, B2, Hpre. cbn [length] in B1, B2, Hpre.
      repeat split; try lia.
      * intros Hlen. destruct Hpre as [ext' He]; [lia|].
        exists ((join_plus x, ds) :: ext'). now rewrite He, <- app_assoc.
      * exists (q :: ext). rewrite Hc, <- app_assoc. cbn. now rewrite Hl.
Qed.

Lemma broadcast2_Ok_lengths (f : float -> float -> float) a b o :
  broadcast2 f a b = Ok o -> 2 <= length a -> 2 <= length b -> length a = length b.
Proof.
  unfold broadcast2. destruct (Nat.eqb_spec (length a) (length b)) as [E|_]; [easy|].
  destruct a as [|x [|x' a]]; cbn; try lia.
  destruct b as [|y [|y' b]]; cbn; try lia. discriminate.
Qed.

Lemma compute_perc_SD_eq crlb0 params0 :
  length crlb0 = length params0 ->
  compute_perc_SD crlb0 params0
  = Ok (clip_perc_SD (map (fun x => PrimFloat.mul x f100)
                          (zip_with PrimFloat.div (map PrimFloat.sqrt crlb0) params0))).
Proof.
  intros H. unfold compute_perc_SD, raw_perc_SD, broadcast2.
  now rewrite length_map, H, Nat.eqb_refl.
Qed.

(** X19. On an object whose percent-SD vector is the one computed from its
    CRLB vector and its table, with one CRLB entry per table column (at
    least two), a returning [combine] keeps every percent-SD entry where
    it was and appends one entry per group. The first [numMetabs] entries,
    which [to_file] writes as '%CRLB' beside the metabolite names, are
    therefore the first entries of the vector of before: beside a combined
    name, at row [length metabs + k], stands the entry that was at that
    position before the call, not the entry appended for the name. *)
Theorem combine_percent_SD_positions :
  forall (combineList : list (list string)) (s s' : FitRes),
    compute_perc_SD (crlb s) (df_mean (fitResults s)) = Ok (perc_SD s) ->
    length (crlb s) = length (columns (fitResults s)) ->
    2 <= length (columns (fitResults s)) ->
    combine combineList s = (Ok tt, s') ->
    (exists ext, perc_SD s' = perc_SD s ++ ext /\ length ext = length combineList)
    /\ numMetabs s' = length (metabs s) + length combineList
    /\ (length (metabs s) + length combineList <= length (perc_SD s) ->
        firstn (numMetabs s') (perc_SD s')
        = firstn (length (metabs s) + length combineList) (perc_SD s)).
Proof.
  intros l s s' Hs Hlen H2 Hc.
  assert (Hn : numMetabs s' = length (metabs s) + length l).
  { unfold combine in Hc. apply bind_inv_Ok in Hc as ([] & s1 & H1 & Hc).
    apply for_each_combine_Ok in H1 as [Hm _].
    rewrite combine_finish_run in Hc.
    destruct (compute_perc_SD (crlb s1) (df_mean (fitResults s1))); [|discriminate].
    injection Hc as <-.
    destruct (String.eqb _ _); cbn; now rewrite Hm, length_app, length_map. }
  assert (Hp : exists ext, perc_SD s' = perc_SD s ++ ext /\ length ext = length l).
  { unfold combine in Hc. apply bind_inv_Ok in Hc as ([] & s1 & H1 & Hc).
    apply for_each_combine_columns in H1 as (B1 & B2 & Hpre & extc & Hcr & Hcl).
    rewrite combine_finish_run in Hc.
    destruct (compute_perc_SD (crlb s1) (df_mean (fitResults s1))) as [perc|e] eqn:E;
      [|discriminate].
    assert (Hperc : perc_SD s' = perc).
    { injection Hc as <-. destruct (String.eqb _ _); reflexivity. }
    assert (Hl1 : length (crlb s1) = length (columns (fitResults s1))).
    { unfold compute_perc_SD, raw_perc_SD in E.
      destruct (broadcast2 _ _ _) as [o|e] eqn:Eb; [|discriminate].
      apply broadcast2_Ok_lengths in Eb.
      - unfold df_mean in Eb. now rewrite !length_map in Eb.
      - rewrite length_map, Hcr, length_app. lia.
      - unfold df_mean. rewrite length_map. lia. }
    destruct Hpre as [ext He].
    { rewrite <- Hl1, Hcr, length_app. lia. }
    assert (Hle : length ext = length l).
    { rewrite Hcr, He, !length_app in Hl1. lia. }
    rewrite compute_perc_SD_eq in E by (unfold df_mean; now rewrite length_map).
    rewrite compute_perc_SD_eq in Hs by (unfold df_mean; now rewrite length_map).
    injection E as E. injection Hs as Hs.
    rewrite Hperc, <- E, <- Hs. unfold df_mean, clip_perc_SD.
    rewrite Hcr, He, !map_app.
    rewrite zip_with_app by (now rewrite !length_map).
    rewrite !map_app. eexists. split; [reflexivity|].
    rewrite !length_map, length_zip_with, !length_map. lia. }
  split; [exact Hp|]. split; [exact Hn|].
  intros Hle. destruct Hp as (ext & -> & _). rewrite Hn.
  now apply take_app_le.
Qed.

(** ** loadResults returns *)

(** X20. The routines of the other modules returning, [loadResults]
    returns whenever every sample has one entry per schema name, the
    covariance routine gives, for one estimate per schema name, a square
    matrix with one row per schema name, the metabolite names are in the
    schema and, should
    both 'Cr' and 'PCr' be among them, the internal reference can be
    quantified. *)
Theorem loadResults_returns :
  forall (mrs : MRS) (fit : FitInput) (s : FitRes),
    Forall (fun r => length r = length (params_names s)) (rows_of fit) ->
    (forall p, length p = length (params_names s) ->
               let c := calculate_lap_cov (model s) (base_poly s) (metab_groups s)
                                          (g s) (ppmlim s) mrs p in
               length c = length (params_names s)
               /\ Forall (fun r => length r = length (params_names s)) c) ->
    (forall m, In m (metabs s) -> In m (params_names s)) ->
    (inb "Cr" (metabs s) && inb "PCr" (metabs s) = true ->
     forall conc, is_Ok (quantifyInternal ["Cr"; "PCr"] conc (metabs s)) = true) ->
    exists s', loadResults mrs fit s = (Ok tt, s').
Proof.
  intros mrs fit s Hrows Hcov Hsub Hq. rewrite loadResults_run.
  unfold DataFrame_of_rows.
  assert (F : forallb (fun r => (length r =? length (params_names s))%nat) (rows_of fit)
              = true).
  { apply forallb_forall. intros r Hr. apply Nat.eqb_eq.
    rewrite Forall_forall in Hrows. apply Hrows. now apply list_elem_of_In. }
  rewrite F.
  set (df := mkDF (length (rows_of fit))
                  (imap (fun j n => (n, map (fun r => nth j r fzero) (rows_of fit)))
                        (params_names s))).
  destruct (compute_perc_SD_same_length (crlb (before_perc_SD mrs df s)) (df_mean df))
    as [perc Hperc].
  { unfold before_perc_SD. cbn [crlb set_crlb]. unfold np_diagonal, df_mean.
    rewrite !length_map, length_seq. subst df. cbn [columns]. rewrite length_imap.
    match goal with
    | |- context [calculate_lap_cov ?a ?b ?c ?d ?e ?f ?p] =>
        destruct (Hcov p) as [Hl Hsq];
        [unfold df_mean; cbn [columns]; now rewrite length_map, length_imap|];
        cbv zeta in Hl, Hsq;
        set (c0 := calculate_lap_cov a b c d e f p) in *
    end.
    rewrite Hl. destruct c0 as [|r0 c0]; cbn in *; [lia|].
    apply Forall_cons in Hsq as [Hr0 _]. rewrite Hr0. lia. }
  rewrite Hperc.
  destruct (inb "Cr" (metabs s) && inb "PCr" (metabs s)) eqn:Ec; [|eexists; reflexivity].
  rewrite calculateConcScaling_run. unfold computed_scalings.
  assert (Hm : Forall (fun m => is_Some (assoc_get m (columns
                                  (fitResults (after_load mrs df perc s)))))
                      (metabs (after_load mrs df perc s))).
  { unfold after_load, before_perc_SD.
    destruct (String.eqb (method s) "MH");
      cbn [fitResults metabs set_hzperppm set_mcmc set_perc_SD set_crlb set_cov
           set_baseline set_pred set_params set_fitResults];
      subst df; cbn [columns]; apply Forall_forall; intros m Hin;
      apply imap_assoc_get, Hsub; now apply list_elem_of_In. }
  rewrite (raw_values_loaded fn_mean _ _ Hm).
  assert (Hmet : metabs (after_load mrs df perc s) = metabs s).
  { unfold after_load, before_perc_SD. destruct (String.eqb (method s) "MH"); reflexivity. }
  rewrite Hmet. change (a_referenceMetab default_args) with ["Cr"; "PCr"].
  match goal with
  | |- context [quantifyInternal ?r ?c ?m] =>
      pose proof (Hq eq_refl c) as Hk;
      destruct (quantifyInternal r c m) as [k|e0]; [|discriminate]
  end.
  cbn. eexists. reflexivity.
Qed.

(** ** Objects made by __init__ and filled by loadResults *)

Lemma made_table model0 method0 names mg b B lim mrs fit s :
  mg <> Some [] ->
  loadResults mrs fit (snd (init model0 method0 names mg b B lim)) = (Ok tt, s) ->
  df_names (fitResults s) = schema names (numGroups mg) b
  /\ params s = df_mean (fitResults s)
  /\ g s = numGroups mg /\ baseline_order s = b /\ model s = model0.
Proof.
  intros Hne H.
  destruct (init_fields model0 method0 names mg b B lim Hne)
    as (s0 & H0 & Hp & _ & Hg & Hmod & Hb).
  rewrite H0 in H. cbn [snd] in H.
  pose proof (loadResults_inv _ _ _ _ H) as (Hdf & Hpar & _).
  apply DataFrame_of_rows_names in Hdf as (Hn & _).
  apply loadResults_config in H as (Hg' & Hb' & Hmod' & _).
  repeat split; congruence.
Qed.

Lemma schema_has_group_names names groups b i :
  i < groups ->
  In ("gamma_" +:+ pretty i) (schema names groups b)
  /\ In ("eps_" +:+ pretty i) (schema names groups b).
Proof.
  intros Hi. unfold schema. rewrite !in_app_iff, !in_map_iff. split.
  - right. left. exists i. split; [reflexivity|]. apply in_seq. lia.
  - right. right. left. exists i. split; [reflexivity|]. apply in_seq. lia.
Qed.

Lemma schema_has_phases names groups b :
  In "Phi0" (schema names groups b) /\ In "Phi1" (schema names groups b).
Proof.
  unfold schema. rewrite !in_app_iff. split.
  - right. right. right. left. now left.
  - right. right. right. left. right. now left.
Qed.

Lemma schema_has_baseline_names names groups b i :
  i <= b ->
  In ("B_real_" +:+ pretty i) (schema names groups b)
  /\ In ("B_imag_" +:+ pretty i) (schema names groups b).
Proof.
  intros Hi. unfold schema. rewrite !in_app_iff, !in_flat_map. split.
  - right. right. right. right. exists i. split; [apply in_seq; lia|now left].
  - right. right. right. right. exists i. split; [apply in_seq; lia|right; now left].
Qed.

(** ** getBaselineParams *)

Lemma column_mean_run prefix i s :
  is_Some (assoc_get (prefix +:+ pretty i) (columns (fitResults s))) ->
  column_mean (prefix +:+ pretty i) s
  = (Ok (series_mean (group_column prefix (fitResults s) i)), s).
Proof.
  intros [c Hc]. unfold column_mean, df_getitem, group_column.
  rewrite bind_get, Hc. reflexivity.
Qed.

Lemma baseline_loop (complex : bool) l :
  forall s acc,
    (forall i, In i l ->
       is_Some (assoc_get ("B_real_" +:+ pretty i) (columns (fitResults s)))
       /\ is_Some (assoc_get ("B_imag_" +:+ pretty i) (columns (fitResults s)))) ->
    for_fold (fun (bParams : list pynum) (b : nat) =>
                breal <- column_mean ("B_real_" +:+ pretty b) ;;
                bimag <- column_mean ("B_imag_" +:+ pretty b) ;;
                ret (if complex
                     then bParams ++ [PyComplex (complex_of breal bimag)]
                     else bParams ++ [PyFloat breal; PyFloat bimag])) l acc s
    = (Ok (acc ++ baseline_entries complex s l), s).
Proof.
  induction l as [|i r IH]; intros s acc H; cbn [for_fold baseline_entries flat_map].
  - unfold ret. now rewrite app_nil_r.
  - destruct (H i (or_introl eq_refl)) as [Hr Hi].
    rewrite bind_assoc. erewrite bind_Ok by (apply column_mean_run; exact Hr).
    rewrite bind_assoc. erewrite bind_Ok by (apply column_mean_run; exact Hi).
    rewrite bind_ret, IH by (intros j Hj; apply H; now right).
    fold (mean_real s i). fold (mean_imag s i). unfold baseline_entries.
    destruct complex; now rewrite <- app_assoc.
Qed.

Lemma getBaselineParams_run complex normalise s :
  (forall i, i <= baseline_order s ->
     is_Some (assoc_get ("B_real_" +:+ pretty i) (columns (fitResults s)))
     /\ is_Some (assoc_get ("B_imag_" +:+ pretty i) (columns (fitResults s)))) ->
  exists b0 rest,
    baseline_entries complex s (seq 0 (baseline_order s + 1)) = b0 :: rest
    /\ getBaselineParams complex normalise s
       = (Ok (if normalise then map (fun v => np_divide v (np_abs b0)) (b0 :: rest)
              else b0 :: rest), s).
Proof.
  intros H. unfold getBaselineParams. rewrite bind_get.
  erewrite bind_Ok.
  2:{ apply baseline_loop. intros i Hi. apply H. apply in_seq in Hi. lia. }
  cbn [app].
  destruct (baseline_entries complex s (seq 0 (baseline_order s + 1)))
    as [|b0 rest] eqn:E.
  - exfalso. rewrite Nat.add_1_r in E. cbn [seq baseline_entries flat_map] in E.
    destruct complex; discriminate.
  - exists b0, rest. split; [reflexivity|]. destruct normalise; reflexivity.
Qed.

Lemma baseline_entries_length complex s l :
  length (baseline_entries complex s l) = (if complex then 1 else 2) * length l.
Proof.
  unfold baseline_entries. induction l as [|i r IH]; cbn [flat_map length].
  - lia.
  - rewrite length_app, IH. destruct complex; cbn; lia.
Qed.

Lemma column_mean_readonly name : readonly (column_mean name).
Proof. unfold column_mean. repeat readonly_step. Qed.


Lemma getBaselineParams_readonly complex normalise :
  readonly (getBaselineParams complex normalise).
Proof.
  unfold getBaselineParams. apply readonly_bind; [apply readonly_get|intros s].
  apply readonly_bind.
  - apply for_fold_readonly. intros acc b.
    apply readonly_bind; [apply column_mean_readonly|intros breal].
    apply readonly_bind; [apply column_mean_readonly|intros bimag].
    apply readonly_ret.
  - intros bParams. destruct normalise; [|apply readonly_ret].
    destruct bParams; [apply readonly_raise|apply readonly_ret].
Qed.

Lemma optional_column_readonly k name scaling df :
  readonly (optional_column k name scaling df).
Proof.
  unfold optional_column. destruct k; [|apply readonly_ret].
  apply readonly_bind; [apply getConc_readonly|intros; apply readonly_lift].
Qed.

Lemma to_file_readonly what : readonly (to_file what).
Proof.
  unfold to_file.
  destruct (String.eqb what "concentrations").
  - repeat first [ apply getConc_readonly | apply optional_column_readonly
                 | apply readonly_ret | apply readonly_get | apply readonly_lift
                 | apply readonly_bind; [|intros] ].
  - destruct (String.eqb what "qc"); [apply readonly_ret|].
    destruct (String.eqb what "parameters"); [|apply readonly_ret].
    repeat first [ apply readonly_ret | apply readonly_get | apply readonly_lift
                 | apply readonly_bind; [|intros] ].
Qed.

(** X21. Whatever their arguments and whether they return or raise,
    [getShiftParams], [getLineShapeParams], [getBaselineParams] and, when
    it is given a [function], [getPhaseParams] leave the object exactly as
    it was. *)
Theorem accessors_leave_object :
  forall (s : FitRes) (units phi0 phi1 : string) (function : summary)
         (f : list float -> ndval) (complex normalise : bool),
    snd (getShiftParams units function s) = s
    /\ snd (getLineShapeParams units function s) = s
    /\ snd (getBaselineParams complex normalise s) = s
    /\ snd (getPhaseParams phi0 phi1 (Some f) s) = s.
Proof.
  intros s units phi0 phi1 function f complex normalise.
  split; [apply getShiftParams_readonly|].
  split; [apply getLineShapeParams_readonly|].
  split; [apply getBaselineParams_readonly|].
  apply getPhaseParams_function_readonly.
Qed.

(** X22. [to_file] never writes to the object, whatever it is asked for
    and whether it returns or raises. Asked for 'qc', or for anything that
    is neither 'concentrations' nor 'parameters', it hands an empty frame,
    without rows and columns, to the CSV writer. *)
Theorem to_file_other_views :
  forall (s : FitRes) (what : string),
    snd (to_file what s) = s
    /\ (what <> "concentrations" -> what <> "parameters" ->
        to_file what s = (Ok (mkOut 0 []), s)).
Proof.
  intros s what. split; [apply to_file_readonly|].
  intros H1 H2. unfold to_file.
  destruct (String.eqb_spec what "concentrations") as [E|_]; [contradiction|].
  destruct (String.eqb what "qc"); [reflexivity|].
  destruct (String.eqb_spec what "parameters") as [E|_]; [contradiction|].
  reflexivity.
Qed.

(** X23. An object made by [__init__] and filled by a returning
    [loadResults] has every column the accessors read. Given a [function]
    and units they accept, [getShiftParams] returns one value per group,
    [getLineShapeParams] of a 'lorentzian' model too, [getPhaseParams]
    returns its pair, and [getBaselineParams] returns [baseline_order + 1]
    complex entries, or twice as many real ones; none raises. *)
Theorem accessors_find_their_columns :
  forall (model0 method0 : string) (names : list string) (mg : option (list nat))
         (b : nat) (B : BasePoly) (lim : PpmLim) (mrs : MRS) (fit : FitInput)
         (s : FitRes) (f : list float -> ndval),
    mg <> Some [] ->
    loadResults mrs fit (snd (init model0 method0 names mg b B lim)) = (Ok tt, s) ->
    (forall units, is_Some (shift_factor units (hzperppm s)) ->
       exists vs, getShiftParams units (Some f) s = (Ok (Stack vs), s)
                  /\ length vs = numGroups mg)
    /\ (model0 = "lorentzian" ->
        forall units, is_Some (width_factor units (hzperppm s)) ->
          exists vs, getLineShapeParams units (Some f) s = (Ok (Some (Stack vs)), s)
                     /\ length vs = numGroups mg)
    /\ (forall phi0 phi1, phase_units phi0 phi1 = true ->
          exists p, getPhaseParams phi0 phi1 (Some f) s = (Ok p, s))
    /\ (forall complex normalise,
          exists bp, getBaselineParams complex normalise s = (Ok bp, s)
                     /\ length bp = (if complex then 1 else 2) * (b + 1)).
Proof.
  intros model0 method0 names mg b B lim mrs fit s f Hne H.
  destruct (made_table _ _ _ _ _ _ _ _ _ _ Hne H) as (Hn & _ & Hg & Hb & Hmod).
  assert (Hcol : forall n, In n (schema names (numGroups mg) b) ->
                   is_Some (assoc_get n (columns (fitResults s)))).
  { intros n Hin. apply assoc_get_In. unfold df_names in Hn. now rewrite Hn. }
  split; [|split; [|split]].
  - intros units [k Hk]. unfold getShiftParams.
    erewrite bind_Ok.
    2:{ apply group_params_run. intros i Hi. apply Hcol.
        apply schema_has_group_names. now rewrite <- Hg. }
    rewrite bind_get. unfold shift_factor in Hk. cbn [group_values ndarray_mul].
    destruct (String.eqb (lower units) "ppm");
      [|destruct (String.eqb (lower units) "hz"); [|discriminate]];
      (eexists; split; [reflexivity|]; now rewrite !length_map, length_seq).
  - intros Hm units [k Hk]. unfold getLineShapeParams. rewrite bind_get, Hmod, Hm.
    change (String.eqb "lorentzian" "lorentzian") with true. cbv iota.
    erewrite bind_Ok.
    2:{ apply group_params_run. intros i Hi. apply Hcol.
        apply schema_has_group_names. now rewrite <- Hg. }
    unfold width_factor in Hk. cbn [group_values ndarray_mul].
    destruct (String.eqb (lower units) "hz");
      [|destruct (String.eqb (lower units) "ppm"); [|discriminate]];
      (eexists; split; [reflexivity|]; now rewrite !length_map, length_seq).
  - intros phi0 phi1 Hu. unfold phase_units in Hu.
    destruct (Hcol "Phi0") as [c0 H0]; [apply schema_has_phases|].
    destruct (Hcol "Phi1") as [c1 H1]; [apply schema_has_phases|].
    unfold getPhaseParams.
    unfold bind at 1. rewrite fetch_run, H0.
    unfold bind at 1. rewrite fetch_run, H1.
    destruct (String.eqb (lower phi0) "degrees");
      [|destruct (String.eqb (lower phi0) "radians"); [|discriminate]];
      (destruct (String.eqb (lower phi1) "seconds");
       [|destruct (String.eqb (lower phi1) "deg_per_ppm");
         [|destruct (String.eqb (lower phi1) "deg_per_hz"); [|discriminate]]]);
      eexists; reflexivity.
  - intros complex normalise.
    destruct (getBaselineParams_run complex normalise s) as (b0 & rest & E & R).
    { intros i Hi. rewrite Hb in Hi.
      destruct (schema_has_baseline_names names (numGroups mg) b i Hi) as [Hr Him].
      split; now apply Hcol. }
    rewrite R. eexists. split; [reflexivity|].
    assert (L : length (b0 :: rest) = (if complex then 1 else 2) * (b + 1)).
    { rewrite <- E, baseline_entries_length, length_seq, Hb. reflexivity. }
    destruct normalise; [now rewrite length_map|exact L].
Qed.

Lemma means_of_columns (s : FitRes) l :
  forall cols2,
    map fst cols2
    = flat_map (fun i => ["B_real_" +:+ pretty i; "B_imag_" +:+ pretty i]) l ->
    (forall n c, In (n, c) cols2 -> assoc_get n (columns (fitResults s)) = Some c) ->
    flat_map (fun i => [mean_real s i; mean_imag s i]) l
    = map (fun c => series_mean (snd c)) cols2.
Proof.
  induction l as [|i r IH]; intros cols2 Hn Hc; cbn [flat_map app] in *.
  - destruct cols2; [reflexivity|discriminate].
  - destruct cols2 as [|[n1 c1] [|[n2 c2] cols2]]; try discriminate.
    cbn [map fst] in Hn. injection Hn as -> -> Hn.
    cbn [map snd]. unfold mean_real at 1, mean_imag at 1, group_column.
    rewrite (Hc _ c1) by now left.
    rewrite (Hc _ c2) by (right; now left). cbn [default].
    do 2 f_equal. apply IH; [exact Hn|].
    intros n c Hin. apply Hc. right. now right.
Qed.

Lemma nth_pairs (f h : nat -> float) n :
  forall start i, i < n ->
    nth (2 * i) (flat_map (fun j => [f j; h j]) (seq start n)) fzero = f (start + i)
    /\ nth (2 * i + 1) (flat_map (fun j => [f j; h j]) (seq start n)) fzero
       = h (start + i).
Proof.
  induction n as [|n IH]; intros start i Hi; [lia|].
  cbn [seq flat_map app]. destruct i as [|i].
  - cbn. now rewrite Nat.add_0_r.
  - replace (2 * S i) with (S (S (2 * i))) by lia.
    replace (S (S (2 * i)) + 1) with (S (S (2 * i + 1))) by lia.
    cbn [nth]. destruct (IH (S start) i) as [E1 E2]; [lia|].
    rewrite E1, E2. replace (S start + i) with (start + S i) by lia. now split.
Qed.

(** X24. On an object made by [__init__] with pairwise distinct schema
    names and filled by a returning [loadResults], the real baseline
    parameters without normalisation are the point estimates [params] from
    the position after the phase parameters to the end, in order,
    [2*(baseline_order+1)] of them; with normalisation each is divided by
    the absolute value of the first; the complex parameters pair them two
    by two, real part first. *)
Theorem getBaselineParams_params_tail :
  forall (model0 method0 : string) (names : list string) (mg : option (list nat))
         (b : nat) (B : BasePoly) (lim : PpmLim) (mrs : MRS) (fit : FitInput)
         (s : FitRes),
    mg <> Some [] ->
    NoDup (schema names (numGroups mg) b) ->
    loadResults mrs fit (snd (init model0 method0 names mg b B lim)) = (Ok tt, s) ->
    let tail := skipn (length names + 2 * numGroups mg + 2) (params s) in
    length tail = 2 * (b + 1)
    /\ getBaselineParams false false s = (Ok (map PyFloat tail), s)
    /\ getBaselineParams false true s
       = (Ok (map (fun x => PyFloat (PrimFloat.div x (PrimFloat.abs (nth 0 tail fzero))))
                  tail), s)
    /\ getBaselineParams true false s
       = (Ok (map (fun i => PyComplex (complex_of (nth (2 * i) tail fzero)
                                                  (nth (2 * i + 1) tail fzero)))
                  (seq 0 (b + 1))), s).
Proof.
  intros model0 method0 names mg b B lim mrs fit s Hne Hnd H tail.
  destruct (made_table _ _ _ _ _ _ _ _ _ _ Hne H) as (Hn & Hp & Hg & Hb & Hmod).
  set (base := length names + 2 * numGroups mg + 2) in *.
  set (cols := columns (fitResults s)) in *.
  assert (Hpost : map fst (skipn base cols)
                  = flat_map (fun i => ["B_real_" +:+ pretty i; "B_imag_" +:+ pretty i])
                             (seq 0 (b + 1))).
  { rewrite <- skipn_map. change (map fst cols) with (df_names (fitResults s)).
    rewrite Hn. unfold schema.
    rewrite !app_assoc. apply drop_app_length'.
    unfold base. rewrite !length_app, !length_map, !length_seq. cbn. lia. }
  assert (Htail : flat_map (fun i => [mean_real s i; mean_imag s i]) (seq 0 (b + 1))
                  = tail).
  { unfold tail. rewrite Hp. unfold df_mean. fold cols. rewrite skipn_map.
    apply means_of_columns; [exact Hpost|].
    intros n c Hin. apply assoc_get_NoDup.
    - change (NoDup (df_names (fitResults s))). now rewrite Hn.
    - change (In (n, c) cols). rewrite <- (firstn_skipn base cols).
      apply in_or_app. now right. }
  assert (Hcol : forall i, i <= baseline_order s ->
            is_Some (assoc_get ("B_real_" +:+ pretty i) (columns (fitResults s)))
            /\ is_Some (assoc_get ("B_imag_" +:+ pretty i) (columns (fitResults s)))).
  { intros i Hi. rewrite Hb in Hi.
    destruct (schema_has_baseline_names names (numGroups mg) b i Hi) as [Hr Him].
    split; apply assoc_get_In; change (map fst (columns (fitResults s)))
                                 with (df_names (fitResults s)); now rewrite Hn. }
  assert (Hreal : baseline_entries false s (seq 0 (b + 1)) = map PyFloat tail).
  { rewrite <- Htail. unfold baseline_entries.
    generalize (seq 0 (b + 1)). intros l. induction l as [|i r IH]; [reflexivity|].
    cbn [flat_map map app]. now rewrite IH. }
  assert (Hlen : length tail = 2 * (b + 1)).
  { rewrite <- (length_map PyFloat), <- Hreal, baseline_entries_length, length_seq.
    reflexivity. }
  split; [exact Hlen|]. split; [|split].
  - destruct (getBaselineParams_run false false s Hcol) as (b0 & rest & E & R).
    rewrite R, <- E, Hb. now rewrite Hreal.
  - destruct (getBaselineParams_run false true s Hcol) as (b0 & rest & E & R).
    rewrite R, <- E, Hb, Hreal.
    rewrite Hb, Hreal in E.
    destruct tail as [|x t]; [discriminate|]. cbn [map] in E. injection E as <- _.
    cbn [np_abs nth]. now rewrite map_map.
  - destruct (getBaselineParams_run true false s Hcol) as (b0 & rest & E & R).
    rewrite R, <- E, Hb. unfold baseline_entries.
    rewrite <- Htail.
    assert (G : forall l, (forall i, In i l -> i < b + 1) ->
              flat_map (fun i => [PyComplex (complex_of (mean_real s i) (mean_imag s i))]) l
              = map (fun i => PyComplex
                        (complex_of
                           (nth (2 * i) (flat_map (fun j => [mean_real s j; mean_imag s j])
                                                  (seq 0 (b + 1))) fzero)
                           (nth (2 * i + 1)
                                (flat_map (fun j => [mean_real s j; mean_imag s j])
                                          (seq 0 (b + 1))) fzero))) l).
    { intros l. induction l as [|i r IH]; intros Hl; [reflexivity|].
      cbn [flat_map map app].
      destruct (nth_pairs (mean_real s) (mean_imag s) (b + 1) 0 i) as [E1 E2].
      { apply Hl. now left. }
      rewrite E1, E2, IH by (intros j Hj; apply Hl; now right). reflexivity. }
    rewrite G; [reflexivity|]. intros i Hi. apply in_seq in Hi. lia.
Qed.

End Results.

(** * A single-voxel fit, worked through

    Scenario A of the specification: metabolites Cr, PCr and NAA, one group,
    baseline order 0, one row of samples. The other modules are replaced by
    small stand-ins: the mean of a column is the sum of its samples that are
    not NaN over their number, the inner product behind [@] adds the
    products up one after the other, the
    covariance routine returns 4 on the diagonal and 1 elsewhere,
    [getFittedModel] hands back the request it was given, and
    [quantifyInternal] is one over the sum of the reference concentrations. *)
Module Scenario.

Fixpoint float_of_nat (n : nat) : float :=
  match n with
  | O => fzero
  | S k => PrimFloat.add (float_of_nat k) fone
  end.

(** [Series.mean]: the samples that are not NaN, added to zero one after
    the other, over their number; NaN when there is none. *)
Definition mean (l : list float) : float :=
  let xs := List.filter (fun x => negb (PrimFloat.is_nan x)) l in
  PrimFloat.div (fold_left PrimFloat.add xs fzero) (float_of_nat (length xs)).

(** The inner product behind [@]: the products, added to zero one after
    the other. *)
Definition inner (a b : list float) : float :=
  fold_left PrimFloat.add (zip_with PrimFloat.mul a b) fzero.

Definition no_matrix (df : DataFrame) : list (list float) := [].
Definition no_vector (df : DataFrame) : list float := [].

Definition lap_cov (model : string) (B : unit) (groups : option (list nat)) (g : nat)
  (ppmlim mrs : unit) (params : list float) : list (list float) :=
  map (fun i => map (fun j => if Nat.eqb i j then 4%float else 1%float)
                    (seq 0 (length params)))
      (seq 0 (length params)).

Definition fitted (model : string) (params : list float) (B : unit)
  (groups : option (list nat)) (mrs : unit) (req : fit_request) : fit_request := req.

Definition frequency (mrs : unit) : float := 123000000%float.

Definition conc_at (conc : ndarray) (i : nat) : float :=
  match conc with
  | Stack vs => match nth i vs (Scalar nan) with Scalar x => x | Arr _ => nan end
  | Item _ => nan
  end.

Fixpoint conc_sum (reference : list string) (conc : ndarray) (names : list string)
  (acc : float) : outcome float :=
  match reference with
  | [] => Ok acc
  | m :: r =>
      match index_of m names with
      | Some i => conc_sum r conc names (PrimFloat.add acc (conc_at conc i))
      | None => Raise (ValueError (m +:+ " is not in list"))
      end
  end.

Definition internal_scale (reference : list string) (conc : ndarray)
  (names : list string) : outcome float :=
  match conc_sum reference conc names fzero with
  | Ok x => Ok (PrimFloat.div fone x)
  | Raise e => Raise e
  end.

Definition quant_info (te : float) (tf : unit) (field : float) : unit := tt.
Definition quant_info_T2 (te : float) (t2 tf : unit) : unit := tt.

Definition water_scale (mrs : unit) (w ref : fit_request) (m : string) (conc : ndarray)
  (names : list string) (protons : Z) (Q : unit) (lim : float * float) (verbose : bool)
  : outcome (float * float) := Ok (2%float, 3%float).

Definition Res : Type := FitRes fit_request unit unit.

(** The methods, with the stand-ins in place. *)
Abbreviation load :=
  (loadResults unit fit_request fit_request unit unit unit unit unit
               mean no_matrix no_matrix no_vector lap_cov fitted (fun x => x)
               frequency internal_scale quant_info quant_info_T2 water_scale tt).

Abbreviation scale :=
  (calculateConcScaling unit fit_request fit_request unit unit unit unit unit
                        mean fitted (fun x => x) frequency internal_scale
                        quant_info quant_info_T2 water_scale tt).

Abbreviation comb :=
  (combine fit_request unit unit mean no_matrix no_matrix no_vector inner inner).

(** A theorem about [loadResults], with the stand-ins in place. *)
Abbreviation on_load thm :=
  (thm unit fit_request fit_request unit unit unit unit unit
       mean no_matrix no_matrix no_vector lap_cov fitted (fun x => x)
       frequency internal_scale quant_info quant_info_T2 water_scale).

Abbreviation on_scale thm :=
  (thm unit fit_request fit_request unit unit unit unit unit
       mean fitted (fun x => x) frequency internal_scale
       quant_info quant_info_T2 water_scale).

Abbreviation on_combine thm :=
  (thm fit_request unit unit mean no_matrix no_matrix no_vector inner inner).

(** The object after [__init__]. *)
Definition fresh : Res :=
  snd (init fit_request unit unit "lorentzian" "Newton" ["Cr"; "PCr"; "NAA"] None 0 tt tt).

(** Cr = 2, PCr = 3, NAA = 10, gamma_0 = 20, eps_0 = 0.5, Phi0 = Phi1 = 1,
    B_real_0 = 0, B_imag_0 = -0. *)
Definition samples : FitInput :=
  Fit1D [2; 3; 10; 20; 0.5; 1; 1; 0; -0]%float.

(** The object after [loadResults]. *)
Definition fit1 : Res := snd (load samples fresh).

(** The same fit, of a basis that has a metabolite named 'Full' and two
    names that differ in letter case only. *)
Definition odd_names : Res :=
  snd (init fit_request unit unit "lorentzian" "Newton" ["Full"; "NAA"; "naa"] None 0 tt tt).

Ltac by_computation :=
  repeat match goal with |- _ /\ _ => split end; vm_compute; reflexivity.

Ltac loaded_by_computation :=
  constructor; vm_compute;
  repeat (first [ apply Forall_nil
                | apply Forall_cons; split
                | reflexivity
                | eexists; reflexivity ]).

Lemma fit1_loaded : loaded fit_request unit unit fit1.
Proof. loaded_by_computation. Qed.

(** Scenario A: the schema, and the internal scaling triggered by Cr and PCr. *)
Example scenario_A :
  params_names _ _ _ fresh
  = ["Cr"; "PCr"; "NAA"; "gamma_0"; "eps_0"; "Phi0"; "Phi1"; "B_real_0"; "B_imag_0"]
  /\ fst (load samples fresh) = Ok tt
  /\ concScalings _ _ _ fit1 = mkCS (Some (PrimFloat.div 1 5)) (Some "Cr+PCr") None None.
Proof. by_computation. Qed.

(** The scaling arguments of a call that is given water data. *)
Definition water_args : ScalingArgs fit_request unit unit :=
  mkArgs _ _ _ ["Cr"; "PCr"] (Some (FullModel false)) (Some tt) (Some 0.03125%float)
         None "Cr" 5 (2%float, 5%float) false.

(** The object after a call with water data. *)
Definition fit1_water : Res := snd (scale water_args fit1).

(** The object after [combine([['Cr','PCr']])]. *)
Definition fit1_combined : Res := snd (comb [["Cr"; "PCr"]] fit1).

(** Two groups of the scenario. *)
Definition two_groups : list (list string) := [["Cr"; "PCr"]; ["PCr"; "NAA"]].


(** The values: the columns hold 5 = 2 + 3 and 13 = 3 + 10, the CRLB
    entries are 10 = 4 + 1 + 1 + 4 for both groups, exact in any order of
    summation. *)
Example combine_two_groups :
  assoc_get "Cr+PCr" (columns (fitResults _ _ _ (snd (comb two_groups fit1))))
  = Some [5%float]
  /\ assoc_get "PCr+NAA" (columns (fitResults _ _ _ (snd (comb two_groups fit1))))
     = Some [13%float]
  /\ crlb _ _ _ (snd (comb two_groups fit1)) = crlb _ _ _ fit1 ++ [10; 10]%float
  /\ metabs _ _ _ (snd (comb two_groups fit1)) = ["Cr"; "PCr"; "NAA"; "Cr+PCr"; "PCr+NAA"].
Proof. by_computation. Qed.


Example combine_Cr_PCr :
  assoc_get "Cr+PCr" (columns (fitResults _ _ _ fit1_combined)) = Some [5%float]
  /\ crlb _ _ _ fit1_combined = crlb _ _ _ fit1 ++ [10%float]
  /\ metabs _ _ _ fit1_combined = ["Cr"; "PCr"; "NAA"; "Cr+PCr"].
Proof. by_computation. Qed.

(** Combining the same group a second time sets the same column again and
    appends to the CRLB vector, so that the percent-SD computation raises. *)
Example combine_twice_raises :
  fst (comb [["Cr"; "PCr"]] fit1_combined)
  = Raise (ValueError "operands could not be broadcast together").
Proof. vm_compute. reflexivity. Qed.

(** The same samples with a tiny negative B_imag_0, [-2^-1030]. *)
Definition samples_tiny : FitInput :=
  Fit1D [2; 3; 10; 20; 0.5; 1; 1; 0; -0x1p-1030]%float.

Definition fit_tiny : Res := snd (load samples_tiny fresh).



(** C3, on three metabolites in two groups with baseline order 1. *)
Lemma fill_names_schema_witness :
  Some [0; 0; 1] <> Some []
  /\ exists s' : Res,
       fill_names _ _ _ ["Cr"; "PCr"; "NAA"] 1 (Some [0; 0; 1])
                  (blank _ _ _ "lorentzian" "Newton" tt tt) = (Ok tt, s')
       /\ params_names _ _ _ s'
          = schema ["Cr"; "PCr"; "NAA"] (numGroups (Some [0; 0; 1])) 1
       /\ length (params_names _ _ _ s')
          = length ["Cr"; "PCr"; "NAA"] + 2 * numGroups (Some [0; 0; 1]) + 2 + 2 * (1 + 1)
       /\ metabs _ _ _ s' = ["Cr"; "PCr"; "NAA"]
       /\ numMetabs _ _ _ s' = length ["Cr"; "PCr"; "NAA"]
       /\ g _ _ _ s' = numGroups (Some [0; 0; 1]).
Proof.
  assert (H : Some [0; 0; 1] <> Some (@nil nat)) by discriminate.
  exact (conj H (fill_names_schema _ _ _ ["Cr"; "PCr"; "NAA"] 1 (Some [0; 0; 1])
                   (blank _ _ _ "lorentzian" "Newton" tt tt) H)).
Defined.

Example schema_two_groups :
  schema ["Cr"; "PCr"; "NAA"] 2 1
  = ["Cr"; "PCr"; "NAA"; "gamma_0"; "gamma_1"; "eps_0"; "eps_1"; "Phi0"; "Phi1";
     "B_real_0"; "B_imag_0"; "B_real_1"; "B_imag_1"].
Proof. vm_compute. reflexivity. Qed.

(** C4, on the scenario: a call with water data sets all four entries; a
    later call without them unsets molarity and molality again. *)
Lemma calculateConcScaling_replaces_witness :
  concScalings _ _ _ fit1_water
  = mkCS (Some (PrimFloat.div 1 5)) (Some "Cr+PCr") (Some 3%float) (Some 2%float)
  /\ scale (default_args _ _ _) fit1_water
     = (Ok tt, snd (scale (default_args _ _ _) fit1_water))
  /\ molarity (concScalings _ _ _ (snd (scale (default_args _ _ _) fit1_water))) = None
  /\ molality (concScalings _ _ _ (snd (scale (default_args _ _ _) fit1_water))) = None
  /\ (exists k,
        internal (concScalings _ _ _ (snd (scale (default_args _ _ _) fit1_water)))
        = Some k).
Proof.
  assert (H : scale (default_args _ _ _) fit1_water
              = (Ok tt, snd (scale (default_args _ _ _) fit1_water)))
    by (vm_compute; reflexivity).
  destruct (calculateConcScaling_replaces _ _ _ _ _ _ _ _ mean fitted (fun x => x)
              frequency internal_scale quant_info quant_info_T2 water_scale tt
              (default_args _ _ _) fit1_water _ H)
    as (Hi & _ & _ & Hn & _).
  split; [vm_compute; reflexivity|]. split; [exact H|].
  split; [exact (proj1 (Hn eq_refl))|]. split; [exact (proj2 (Hn eq_refl))|exact Hi].
Defined.

(** C5, on the scenario: NAA, 10 raw, is [10 * (1/5)] relative to
    Cr+PCr. *)
Lemma getConc_scaling_composition_witness :
  loaded _ _ _ fit1
  /\ scaling_factor (concScalings _ _ _ fit1) "internal" = Some (PrimFloat.div 1 5)
  /\ exists raw scaled,
       getConc _ _ _ "raw" (Some "NAA") (fn_mean mean) fit1 = (Ok raw, fit1)
       /\ getConc _ _ _ "internal" (Some "NAA") (fn_mean mean) fit1 = (Ok scaled, fit1)
       /\ scaled_by (PrimFloat.div 1 5) raw scaled
       /\ raw = Item (Scalar 10)
       /\ scaled = Item (Scalar (PrimFloat.mul 10 (PrimFloat.div 1 5))).
Proof.
  assert (H1 : loaded _ _ _ fit1) by loaded_by_computation.
  assert (H2 : forall m, Some "NAA" = Some m -> inb m (metabs _ _ _ fit1) = true).
  { intros m [= <-]. reflexivity. }
  assert (H3 : is_scaling_key "internal" = true) by reflexivity.
  assert (H4 : scaling_factor (concScalings _ _ _ fit1) "internal"
               = Some (PrimFloat.div 1 5)) by (vm_compute; reflexivity).
  destruct (getConc_scaling_composition _ _ _ fit1 "internal" _
              (Some "NAA") (fn_mean mean) H1 H2 H3 H4) as (raw & scaled & A & B & C).
  assert (E : getConc _ _ _ "raw" (Some "NAA") (fn_mean mean) fit1
              = (Ok (Item (Scalar 10)), fit1)) by (vm_compute; reflexivity).
  assert (Hraw : raw = Item (Scalar 10)).
  { rewrite E in A. now injection A as <-. }
  split; [exact H1|]. split; [exact H4|].
  exists raw, scaled. split; [exact A|]. split; [exact B|]. split; [exact C|].
  split; [exact Hraw|].
  rewrite Hraw in C. destruct scaled as [[y|b]|ws]; cbn in C; try contradiction.
  now rewrite C.
Defined.

Example getConc_NAA :
  fst (getConc _ _ _ "raw" (Some "NAA") (fn_mean mean) fit1) = Ok (Item (Scalar 10))
  /\ fst (getConc _ _ _ "internal" (Some "NAA") (fn_mean mean) fit1)
     = Ok (Item (Scalar 2)).
Proof. by_computation. Qed.

(** C6, the claim as stated fails: molarity is unset, yet asking for it
    with a name that is not in the list raises the unknown-metabolite
    error, not the scaling one. *)
Lemma getConc_unknown_metabolite_first :
  molarity (concScalings _ _ _ fit1) = None
  /\ inb "XYZ" (metabs _ _ _ fit1) = false
  /\ getConc _ _ _ "molarity" (Some "XYZ") (fn_mean mean) fit1
     = (Raise (not_recognised "XYZ"), fit1)
  /\ not_recognised "XYZ" <> scaling_not_computed "molarity".
Proof.
  split; [vm_compute; reflexivity|]. split; [vm_compute; reflexivity|].
  split; [vm_compute; reflexivity|]. vm_compute. discriminate.
Qed.

(** C6 as amended, on the scenario (Scenario C of the specification:
    molarity was never computed). *)
Lemma getConc_errors_witness :
  loaded _ _ _ fit1
  /\ scaling_factor (concScalings _ _ _ fit1) "molarity" = None
  /\ getConc _ _ _ "molarity" None (fn_mean mean) fit1
     = (Raise (scaling_not_computed "molarity"), fit1)
  /\ getConc _ _ _ "molarity" (Some "NAA") None fit1
     = (Raise (scaling_not_computed "molarity"), fit1).
Proof.
  assert (H1 : loaded _ _ _ fit1) by loaded_by_computation.
  assert (H2 : scaling_factor (concScalings _ _ _ fit1) "molarity" = None)
    by (vm_compute; reflexivity).
  split; [exact H1|]. split; [exact H2|]. split.
  - refine (proj1 (proj2 (getConc_errors _ _ _ fit1 "molarity" None (fn_mean mean)))
              H1 _ eq_refl H2).
    intros m Hm. discriminate Hm.
  - refine (proj1 (proj2 (getConc_errors _ _ _ fit1 "molarity" (Some "NAA") None))
              H1 _ eq_refl H2).
    intros m [= <-]. reflexivity.
Defined.

(** C7, on the scenario: the second group of the list names XYZ, which is
    not in the metabolite list. [combine] raises the error only once it
    reaches that group, after the first group has been applied: the object
    has the column, the name and the CRLB entry of 'Cr+PCr', while the
    metabolite count and the percent-SD vector are the ones of before. *)
Theorem combine_partial_application :
  inb "XYZ" (metabs _ _ _ fit1) = false
  /\ fst (comb [["Cr"; "PCr"]; ["Cr"; "XYZ"]] fit1) = Raise (not_found "XYZ")
  /\ metabs _ _ _ (snd (comb [["Cr"; "PCr"]; ["Cr"; "XYZ"]] fit1))
     = ["Cr"; "PCr"; "NAA"; "Cr+PCr"]
  /\ metabs _ _ _ fit1 = ["Cr"; "PCr"; "NAA"]
  /\ assoc_get "Cr+PCr"
       (columns (fitResults _ _ _ (snd (comb [["Cr"; "PCr"]; ["Cr"; "XYZ"]] fit1))))
     = Some [5%float]
  /\ assoc_get "Cr+PCr" (columns (fitResults _ _ _ fit1)) = None
  /\ crlb _ _ _ (snd (comb [["Cr"; "PCr"]; ["Cr"; "XYZ"]] fit1))
     = crlb _ _ _ fit1 ++ [10%float]
  /\ numMetabs _ _ _ (snd (comb [["Cr"; "PCr"]; ["Cr"; "XYZ"]] fit1)) = 3
  /\ perc_SD _ _ _ (snd (comb [["Cr"; "PCr"]; ["Cr"; "XYZ"]] fit1)) = perc_SD _ _ _ fit1.
Proof. by_computation. Qed.

(** With the unknown name in the first group nothing is written. *)
Example combine_unknown_first :
  comb [["Cr"; "XYZ"]; ["Cr"; "PCr"]] fit1 = (Raise (not_found "XYZ"), fit1).
Proof. vm_compute. reflexivity. Qed.

(** C8. After [combine] has returned, the schema has no entry for the
    combined name: 'Cr+PCr' is in the metabolite list and is a column of
    the table, the schema [params_names] is the one of before, nine names
    for ten columns; and [to_file] with 'parameters', which writes the
    schema beside the means of the table's columns, raises a ValueError
    where it wrote the nine rows before the call. *)
Theorem combine_leaves_schema_behind :
  comb [["Cr"; "PCr"]] fit1 = (Ok tt, fit1_combined)
  /\ inb "Cr+PCr" (metabs _ _ _ fit1_combined) = true
  /\ inb "Cr+PCr" (df_names (fitResults _ _ _ fit1_combined)) = true
  /\ inb "Cr+PCr" (params_names _ _ _ fit1_combined) = false
  /\ params_names _ _ _ fit1_combined = params_names _ _ _ fit1
  /\ length (params_names _ _ _ fit1_combined) = 9
  /\ length (columns (fitResults _ _ _ fit1_combined)) = 10
  /\ fst (to_file _ _ _ mean "parameters" fit1_combined)
     = Raise (ValueError "Length of values does not match length of index")
  /\ fst (to_file _ _ _ mean "parameters" fit1)
     = Ok (mkOut 9
             [("Name", map CStr (params_names _ _ _ fit1));
              ("Value", num_cells (df_mean mean (fitResults _ _ _ fit1)))]).
Proof. by_computation. Qed.

Example parameters_view :
  fst (to_file _ _ _ mean "parameters" fit1)
  = Ok (mkOut 9
          [("Name", map CStr ["Cr"; "PCr"; "NAA"; "gamma_0"; "eps_0"; "Phi0"; "Phi1";
                              "B_real_0"; "B_imag_0"]);
           ("Value", num_cells [2; 3; 10; 20; 0.5; 1; 1; 0; 0]%float)]).
Proof. vm_compute. reflexivity. Qed.

(** C9, on the scenario: [getPhaseParams] with [function=None] scales the
    arrays it took from the table in place, and so writes to the table: the
    Phi0 and Phi1 columns, 1 before the call, hold the scaled values after
    it, and a second call returns other values than the first. *)
Theorem getPhaseParams_writes_table :
  assoc_get "Phi0" (columns (fitResults _ _ _ fit1)) = Some [1%float]
  /\ assoc_get "Phi1" (columns (fitResults _ _ _ fit1)) = Some [1%float]
  /\ fst (getPhaseParams _ _ _ "degrees" "seconds" None fit1)
     = Ok (Arr [deg_factor], Arr [sec_factor])
  /\ assoc_get "Phi0"
       (columns (fitResults _ _ _ (snd (getPhaseParams _ _ _ "degrees" "seconds" None fit1))))
     = Some [deg_factor]
  /\ assoc_get "Phi1"
       (columns (fitResults _ _ _ (snd (getPhaseParams _ _ _ "degrees" "seconds" None fit1))))
     = Some [sec_factor]
  /\ PrimFloat.eqb deg_factor 1 = false
  /\ PrimFloat.eqb sec_factor 1 = false
  /\ fst (getPhaseParams _ _ _ "degrees" "seconds" None
            (snd (getPhaseParams _ _ _ "degrees" "seconds" None fit1)))
     = Ok (Arr [PrimFloat.mul deg_factor deg_factor],
           Arr [PrimFloat.mul sec_factor sec_factor]).
Proof. by_computation. Qed.

(** With a [function] the same call leaves the object as it is. *)
Example getPhaseParams_mean :
  getPhaseParams _ _ _ "degrees" "seconds" (fn_mean mean) fit1
  = (Ok (Scalar deg_factor, Scalar sec_factor), fit1).
Proof. vm_compute. reflexivity. Qed.

(** An invalid [phi1] is found after Phi0 has been scaled in the table. *)
Example getPhaseParams_raises_after_writing :
  fst (getPhaseParams _ _ _ "degrees" "minutes" None fit1)
  = Raise (ValueError "phi1 must be seconds or deg_per_ppm or deg_per_hz ")
  /\ assoc_get "Phi0"
       (columns (fitResults _ _ _ (snd (getPhaseParams _ _ _ "degrees" "minutes" None fit1))))
     = Some [deg_factor].
Proof. by_computation. Qed.

(** C10, on a basis with the names 'Full', 'NAA' and 'naa': the mode
    'Full' is the full model although 'Full' is a stored name, and 'NaA',
    which differs from 'NAA' in letter case only and is not stored, is an
    invalid mode. *)
Lemma predictedFID_mode_matching_witness :
  inb "Full" (metabs _ _ _ odd_names) = true
  /\ select_mode "Full" false (metabs _ _ _ odd_names) = Ok (FullModel false)
  /\ inb "NAA" (metabs _ _ _ odd_names) = true
  /\ select_mode "NaA" false (metabs _ _ _ odd_names) = Raise invalid_mode
  /\ select_mode "NaA" false (metabs _ _ _ odd_names) <> Ok (BasisSelect "NAA" false).
Proof.
  destruct (predictedFID_mode_matching unit fit_request fit_request unit unit fitted
              (fun x => x) tt odd_names "Full" false) as ([F _] & _).
  { reflexivity. }
  destruct (predictedFID_mode_matching unit fit_request fit_request unit unit fitted
              (fun x => x) tt odd_names "NaA" false) as (_ & _ & N).
  destruct (N "NAA") as [N1 N2]; try reflexivity; try discriminate.
  destruct (N2 eq_refl) as [N3 _].
  split; [reflexivity|]. split; [exact F|]. split; [reflexivity|].
  split; [exact N3|exact N1].
Defined.

(** A mode that is itself a stored name selects that name, and no other. *)
Example predictedFID_exact_name :
  select_mode "naa" false (metabs _ _ _ odd_names) = Ok (BasisSelect "naa" false)
  /\ select_mode "bASELINE" true (metabs _ _ _ odd_names) = Ok BaselineOnly.
Proof. by_computation. Qed.


(** ** Further properties, on the scenario *)

(** Stand-ins for Python's complex numbers: a pair of floats. *)
Definition cplx (re im : float) : float * float := (re, im).
Definition cplx_abs (z : float * float) : float :=
  PrimFloat.sqrt (PrimFloat.add (PrimFloat.mul (fst z) (fst z))
                                (PrimFloat.mul (snd z) (snd z))).
Definition cplx_div (z : float * float) (d : float) : float * float :=
  (PrimFloat.div (fst z) d, PrimFloat.div (snd z) d).

Abbreviation baselineParams :=
  (getBaselineParams fit_request unit unit mean (float * float) cplx cplx_abs cplx_div).

Lemma fit1_loads : load samples fresh = (Ok tt, fit1).
Proof. vm_compute. reflexivity. Qed.

Lemma fit1_combines : comb [["Cr"; "PCr"]] fit1 = (Ok tt, fit1_combined).
Proof. vm_compute. reflexivity. Qed.

(** X1, on the scenario. The table of the scenario: one row, the nine schema columns. *)
Lemma loadResults_table_witness :
  load samples fresh = (Ok tt, fit1)
  /\ df_names (fitResults _ _ _ fit1) = params_names _ _ _ fresh
  /\ nrows (fitResults _ _ _ fit1) = length (rows_of samples)
  /\ (forall j n, params_names _ _ _ fresh !! j = Some n ->
        columns (fitResults _ _ _ fit1) !! j
        = Some (n, map (fun r => nth j r fzero) (rows_of samples))
        /\ params _ _ _ fit1 !! j
           = Some (mean (map (fun r => nth j r fzero) (rows_of samples))))
  /\ length (params _ _ _ fit1) = length (params_names _ _ _ fresh)
  /\ (forall i x, crlb _ _ _ fit1 !! i = Some x ->
        x = nth i (nth i (cov _ _ _ fit1) []) fzero).
Proof.
  exact (conj fit1_loads (on_load loadResults_table tt samples fresh fit1 fit1_loads)).
Defined.

(** X2, on the scenario. Two samples where the schema has nine names. *)
Lemma loadResults_shape_error_witness :
  In [1; 2]%float (rows_of (Fit1D [1; 2]%float))
  /\ length [1; 2]%float <> length (params_names _ _ _ fresh)
  /\ exists msg, load (Fit1D [1; 2]%float) fresh = (Raise (ValueError msg), fresh).
Proof.
  assert (H1 : In [1; 2]%float (rows_of (Fit1D [1; 2]%float))) by (left; reflexivity).
  assert (H2 : length [1; 2]%float <> length (params_names _ _ _ fresh))
    by (vm_compute; discriminate).
  exact (conj H1 (conj H2 (on_load loadResults_shape_error tt (Fit1D [1; 2]%float)
                             fresh [1; 2]%float H1 H2))).
Defined.

(** X3, on the scenario. Cr and PCr are both in the basis of the scenario. *)
Lemma loadResults_auto_scaling_witness :
  load samples fresh = (Ok tt, fit1)
  /\ inb "Cr" (metabs _ _ _ fresh) && inb "PCr" (metabs _ _ _ fresh) = true
  /\ is_Some (internal (concScalings _ _ _ fit1))
  /\ internalRef (concScalings _ _ _ fit1) = Some "Cr+PCr"
  /\ molarity (concScalings _ _ _ fit1) = None
  /\ molality (concScalings _ _ _ fit1) = None
  /\ referenceMetab _ _ _ fit1 = Some ["Cr"; "PCr"].
Proof.
  assert (Hc : inb "Cr" (metabs _ _ _ fresh) && inb "PCr" (metabs _ _ _ fresh) = true)
    by (vm_compute; reflexivity).
  destruct (on_load loadResults_auto_scaling tt samples fresh fit1 fit1_loads) as [A _].
  exact (conj fit1_loads (conj Hc (A Hc))).
Defined.

(** X4, on the scenario. *)
Lemma perc_SD_range_witness :
  (load samples fresh = (Ok tt, fit1) \/ comb [] fresh = (Ok tt, fit1))
  /\ forall i x, perc_SD _ _ _ fit1 !! i = Some x ->
       PrimFloat.is_nan x = false /\ PrimFloat.ltb f999 x = false.
Proof.
  assert (H : load samples fresh = (Ok tt, fit1) \/ comb [] fresh = (Ok tt, fit1))
    by (left; exact fit1_loads).
  exact (conj H (on_load perc_SD_range inner inner tt samples [] fresh fit1 H)).
Defined.

(** X5, on the scenario. *)
Lemma combine_appends_names_witness :
  comb [["Cr"; "PCr"]] fit1 = (Ok tt, fit1_combined)
  /\ metabs _ _ _ fit1_combined = metabs _ _ _ fit1 ++ map join_plus [["Cr"; "PCr"]]
  /\ numMetabs _ _ _ fit1_combined = length (metabs _ _ _ fit1) + length [["Cr"; "PCr"]]
  /\ length (crlb _ _ _ fit1_combined)
     = length (crlb _ _ _ fit1) + length [["Cr"; "PCr"]].
Proof.
  exact (conj fit1_combines
           (on_combine combine_appends_names [["Cr"; "PCr"]] fit1 fit1_combined
                       fit1_combines)).
Defined.

(** X7, on the scenario. *)
Lemma getConc_after_combine_witness :
  loaded _ _ _ fit1
  /\ getConc _ _ _ "raw" None (fn_mean mean) fit1_combined
     = (Ok (Stack (map (fun c => Scalar (mean c))
                       (columns_of (fitResults _ _ _ fit1_combined)
                                   (metabs _ _ _ fit1_combined)))), fit1_combined).
Proof.
  destruct (on_combine getConc_after_combine [["Cr"; "PCr"]] (fn_mean mean) fit1
                       fit1_loaded) as [_ [B _]].
  exact (conj fit1_loaded B).
Defined.

Lemma fit1_combined_loaded : loaded _ _ _ fit1_combined.
Proof. loaded_by_computation. Qed.

(** X8, on the scenario. The group of Cr and PCr, combined a second time. *)
Lemma combine_existing_name_raises_witness :
  loaded _ _ _ fit1_combined
  /\ Forall (fun m => exists i, index_of m (metabs _ _ _ fit1_combined) = Some i
                                /\ i < length (cov _ _ _ fit1_combined)) ["Cr"; "PCr"]
  /\ is_Some (assoc_get (join_plus ["Cr"; "PCr"])
                        (columns (fitResults _ _ _ fit1_combined)))
  /\ length (crlb _ _ _ fit1_combined) = length (columns (fitResults _ _ _ fit1_combined))
  /\ 2 <= length (columns (fitResults _ _ _ fit1_combined))
  /\ exists msg s1,
       comb [["Cr"; "PCr"]] fit1_combined = (Raise (ValueError msg), s1)
       /\ metabs _ _ _ s1 = metabs _ _ _ fit1_combined ++ [join_plus ["Cr"; "PCr"]]
       /\ numMetabs _ _ _ s1 = S (length (metabs _ _ _ fit1_combined))
       /\ length (crlb _ _ _ s1) = S (length (crlb _ _ _ fit1_combined))
       /\ length (columns (fitResults _ _ _ s1))
          = length (columns (fitResults _ _ _ fit1_combined))
       /\ perc_SD _ _ _ s1 = perc_SD _ _ _ fit1_combined.
Proof.
  assert (H2 : Forall (fun m => exists i,
                         index_of m (metabs _ _ _ fit1_combined) = Some i
                         /\ i < length (cov _ _ _ fit1_combined)) ["Cr"; "PCr"]).
  { apply List.Forall_cons; [exists 0; split; [reflexivity|vm_compute; lia]|].
    apply List.Forall_cons; [exists 1; split; [reflexivity|vm_compute; lia]|].
    apply List.Forall_nil. }
  assert (H3 : is_Some (assoc_get (join_plus ["Cr"; "PCr"])
                                  (columns (fitResults _ _ _ fit1_combined))))
    by (eexists; vm_compute; reflexivity).
  assert (H4 : length (crlb _ _ _ fit1_combined)
               = length (columns (fitResults _ _ _ fit1_combined)))
    by (vm_compute; reflexivity).
  assert (H5 : 2 <= length (columns (fitResults _ _ _ fit1_combined)))
    by (vm_compute; lia).
  exact (conj fit1_combined_loaded
           (conj H2 (conj H3 (conj H4 (conj H5
              (on_combine combine_existing_name_raises fit1_combined ["Cr"; "PCr"]
                          fit1_combined_loaded H2 H3 H4 H5)))))).
Defined.

(** The object after the pass of [combine] over the group of Cr and PCr. *)
Definition fit1_grouped : Res := snd (combine_group _ _ _ inner inner ["Cr"; "PCr"] fit1).

(** X9, on the scenario.
    'Cr+PCr' is entry 3 of the metabolite list; entry 3 of the schema is
    'gamma_0'. *)
Lemma combined_name_position_witness :
  loaded _ _ _ fit1
  /\ params_names _ _ _ fit1 = schema (metabs _ _ _ fit1) 1 0
  /\ inb (join_plus ["Cr"; "PCr"]) (metabs _ _ _ fit1) = false
  /\ combine_group _ _ _ inner inner ["Cr"; "PCr"] fit1 = (Ok tt, fit1_grouped)
  /\ In (join_plus ["Cr"; "PCr"]) ["Cr+PCr"; "NAA"]
  /\ index_of (join_plus ["Cr"; "PCr"]) (metabs _ _ _ fit1_grouped)
     = Some (length (metabs _ _ _ fit1))
  /\ params_names _ _ _ fit1_grouped !! length (metabs _ _ _ fit1) = Some "gamma_0"
  /\ indicator (length (cov _ _ _ fit1))
               (positions (metabs _ _ _ fit1_grouped) ["Cr+PCr"; "NAA"])
     !! length (metabs _ _ _ fit1) = Some fone.
Proof.
  assert (H1 : params_names _ _ _ fit1 = schema (metabs _ _ _ fit1) 1 0)
    by (vm_compute; reflexivity).
  assert (H2 : 0 < 1) by lia.
  assert (H3 : inb (join_plus ["Cr"; "PCr"]) (metabs _ _ _ fit1) = false)
    by (vm_compute; reflexivity).
  assert (H4 : combine_group _ _ _ inner inner ["Cr"; "PCr"] fit1 = (Ok tt, fit1_grouped))
    by (vm_compute; reflexivity).
  assert (H5 : In (join_plus ["Cr"; "PCr"]) ["Cr+PCr"; "NAA"]) by (left; reflexivity).
  assert (H6 : Forall (fun m => exists i,
                         index_of m (metabs _ _ _ fit1_grouped) = Some i
                         /\ i < length (cov _ _ _ fit1)) ["Cr+PCr"; "NAA"]).
  { apply List.Forall_cons; [exists 3; split; [reflexivity|vm_compute; lia]|].
    apply List.Forall_cons; [exists 2; split; [reflexivity|vm_compute; lia]|].
    apply List.Forall_nil. }
  destruct (combined_name_position _ _ _ inner inner fit1 fit1_grouped ["Cr"; "PCr"]
              ["Cr+PCr"; "NAA"] 1 0 fit1_loaded H1 H2 H3 H4 H5 H6) as (A & B & C & _).
  exact (conj fit1_loaded (conj H1 (conj H3 (conj H4 (conj H5 (conj A (conj B C))))))).
Defined.

(** A call with water data whose water reference, 'Glu', is not in the
    basis, and with NAA as internal reference. *)
Definition glu_args : ScalingArgs fit_request unit unit :=
  mkArgs _ _ _ ["NAA"] (Some (FullModel false)) (Some tt) (Some 0.03125%float)
         None "Glu" 5 (2%float, 5%float) false.

Lemma glu_raises : scale glu_args fit1 = (Raise invalid_mode, snd (scale glu_args fit1)).
Proof. vm_compute. reflexivity. Qed.

(** X10, on the scenario.
    The labels name NAA; the stored factor is still the one for Cr+PCr. *)
Lemma calculateConcScaling_raise_keeps_scalings_witness :
  scale glu_args fit1 = (Raise invalid_mode, snd (scale glu_args fit1))
  /\ concScalings _ _ _ (snd (scale glu_args fit1)) = concScalings _ _ _ fit1
  /\ internalRef (concScalings _ _ _ fit1) = Some "Cr+PCr"
  /\ intrefstr _ _ _ (snd (scale glu_args fit1)) = Some "NAA"
  /\ referenceMetab _ _ _ (snd (scale glu_args fit1)) = Some ["NAA"].
Proof.
  destruct (on_scale calculateConcScaling_raise_keeps_scalings tt glu_args fit1
                     (snd (scale glu_args fit1)) invalid_mode glu_raises)
    as (A & B & C & _).
  split; [exact glu_raises|]. split; [exact A|].
  split; [vm_compute; reflexivity|]. split; [exact B|exact C].
Defined.

(** X11, on the scenario. *)
Lemma calculateConcScaling_unknown_water_reference_witness :
  loaded _ _ _ fit1
  /\ water_supplied _ _ _ glu_args = true
  /\ inb (a_waterReferenceMetab _ _ _ glu_args) (metabs _ _ _ fit1) = false
  /\ fst (scale glu_args fit1) = Raise invalid_mode
  /\ concScalings _ _ _ (snd (scale glu_args fit1)) = concScalings _ _ _ fit1.
Proof.
  assert (H1 : water_supplied _ _ _ glu_args = true) by reflexivity.
  assert (H2 : String.eqb (lower (a_waterReferenceMetab _ _ _ glu_args)) "full" = false)
    by reflexivity.
  assert (H3 : String.eqb (lower (a_waterReferenceMetab _ _ _ glu_args)) "baseline"
               = false) by reflexivity.
  assert (H4 : inb (a_waterReferenceMetab _ _ _ glu_args) (metabs _ _ _ fit1) = false)
    by (vm_compute; reflexivity).
  assert (H5 : forall conc,
             is_Ok (internal_scale (a_referenceMetab _ _ _ glu_args) conc
                                   (metabs _ _ _ fit1)) = true).
  { intros conc. vm_compute. reflexivity. }
  exact (conj fit1_loaded (conj H1 (conj H4
           (on_scale calculateConcScaling_unknown_water_reference tt glu_args fit1
                     fit1_loaded H1 H2 H3 H4 H5)))).
Defined.

(** X12, on the scenario.
    The concentrations frame of the scenario: names, raw means, the means
    relative to Cr+PCr, and the first three percent-SD entries. *)
Lemma to_file_concentrations_witness :
  loaded _ _ _ fit1
  /\ numMetabs _ _ _ fit1 = length (metabs _ _ _ fit1)
  /\ length (metabs _ _ _ fit1) <= length (perc_SD _ _ _ fit1)
  /\ to_file _ _ _ mean "concentrations" fit1
     = (Ok (mkOut 3
              [("Metab", [CStr "Cr"; CStr "PCr"; CStr "NAA"]);
               ("Raw conc", [CVal (Scalar 2); CVal (Scalar 3); CVal (Scalar 10)]);
               ("/Cr+PCr", [CVal (Scalar (PrimFloat.mul 2 (PrimFloat.div 1 5)));
                            CVal (Scalar (PrimFloat.mul 3 (PrimFloat.div 1 5)));
                            CVal (Scalar (PrimFloat.mul 10 (PrimFloat.div 1 5)))]);
               ("%CRLB", [CVal (Scalar 100);
                          CVal (Scalar (PrimFloat.mul (PrimFloat.div 2 3) 100));
                          CVal (Scalar 20)])]), fit1).
Proof.
  assert (H2 : numMetabs _ _ _ fit1 = length (metabs _ _ _ fit1))
    by (vm_compute; reflexivity).
  assert (H3 : length (metabs _ _ _ fit1) <= length (perc_SD _ _ _ fit1))
    by (vm_compute; lia).
  split; [exact fit1_loaded|]. split; [exact H2|]. split; [exact H3|].
  rewrite (to_file_concentrations _ _ _ mean fit1 fit1_loaded H2 H3).
  vm_compute. reflexivity.
Defined.

(** X14, on the scenario. *)
Lemma loadResults_derived_witness :
  load samples fresh = (Ok tt, fit1)
  /\ pred _ _ _ fit1 = Some (FullModel false)
  /\ baseline _ _ _ fit1 = Some BaselineOnly
  /\ hzperppm _ _ _ fit1 = PrimFloat.div 123000000 1000000
  /\ mcmc_cov _ _ _ fit1 = None.
Proof.
  destruct (on_load loadResults_derived tt samples fresh fit1 fit1_loads)
    as (A & B & C & _ & D & _).
  split; [exact fit1_loads|]. split; [exact A|]. split; [exact B|].
  split; [exact C|]. apply D. vm_compute. discriminate.
Defined.

Lemma fit1_groups : g _ _ _ fit1 = 1.
Proof. vm_compute. reflexivity. Qed.

(** X15, on the scenario. One sample and one group: a 1 x 1 array. *)
Lemma getShiftParams_samples_witness :
  loaded _ _ _ fit1
  /\ (forall i, i < g _ _ _ fit1 ->
        is_Some (assoc_get ("eps_" +:+ pretty i) (columns (fitResults _ _ _ fit1))))
  /\ shift_factor "PPM" (hzperppm _ _ _ fit1)
     = Some (PrimFloat.div 1 (PrimFloat.mul (PrimFloat.mul 2 np_pi) 123))
  /\ exists rows,
       getShiftParams _ _ _ "PPM" None fit1 = (Ok (Stack rows), fit1)
       /\ length rows = nrows (fitResults _ _ _ fit1)
       /\ forall r i col x,
            i < g _ _ _ fit1 ->
            assoc_get ("eps_" +:+ pretty i) (columns (fitResults _ _ _ fit1)) = Some col ->
            col !! r = Some x ->
            exists a, rows !! r = Some (Arr a) /\ length a = g _ _ _ fit1
                      /\ a !! i
                         = Some (PrimFloat.mul x
                                   (PrimFloat.div 1
                                      (PrimFloat.mul (PrimFloat.mul 2 np_pi) 123))).
Proof.
  assert (H2 : forall i, i < g _ _ _ fit1 ->
                 is_Some (assoc_get ("eps_" +:+ pretty i)
                                    (columns (fitResults _ _ _ fit1)))).
  { intros i Hi. rewrite fit1_groups in Hi.
    destruct i as [|i]; [|lia]. eexists. vm_compute. reflexivity. }
  assert (H3 : shift_factor "PPM" (hzperppm _ _ _ fit1)
               = Some (PrimFloat.div 1 (PrimFloat.mul (PrimFloat.mul 2 np_pi) 123)))
    by (vm_compute; reflexivity).
  exact (conj fit1_loaded (conj H2 (conj H3
           (getShiftParams_samples _ _ _ fit1 "PPM" _ fit1_loaded H2 H3)))).
Defined.

(** The same fit with the model 'voigt', and with a model of another name. *)
Definition voigt_fit : Res :=
  snd (load samples
         (snd (init fit_request unit unit "voigt" "Newton" ["Cr"; "PCr"; "NAA"] None 0
                    tt tt))).
Definition gaussian_fit : Res :=
  snd (load samples
         (snd (init fit_request unit unit "gaussian" "Newton" ["Cr"; "PCr"; "NAA"] None 0
                    tt tt))).

(** X16, on the scenario. *)
Lemma getLineShapeParams_by_model_witness :
  model _ _ _ fit1 = "lorentzian"
  /\ getLineShapeParams _ _ _ "Hz" (fn_mean mean) fit1
     = (Ok (Some (Stack [Scalar (PrimFloat.mul 20 (PrimFloat.div 1 np_pi))])), fit1)
  /\ getLineShapeParams _ _ _ "furlongs" (fn_mean mean) fit1
     = (Raise (ValueError "Units must be Hz or ppm."), fit1)
  /\ getLineShapeParams _ _ _ "Hz" (fn_mean mean) voigt_fit
     = (Raise (PyException "TO DO."), voigt_fit)
  /\ getLineShapeParams _ _ _ "furlongs" None gaussian_fit = (Ok None, gaussian_fit).
Proof.
  assert (H1 : model _ _ _ fit1 = "lorentzian") by (vm_compute; reflexivity).
  assert (H2 : forall i, i < g _ _ _ fit1 ->
                 is_Some (assoc_get ("gamma_" +:+ pretty i)
                                    (columns (fitResults _ _ _ fit1)))).
  { intros i Hi. rewrite fit1_groups in Hi.
    destruct i as [|i]; [|lia]. eexists. vm_compute. reflexivity. }
  split; [exact H1|]. split; [|split; [|split]].
  - unfold fn_mean.
    rewrite (proj1 (getLineShapeParams_by_model _ _ _ fit1 "Hz"
                      (fun c => Scalar (mean c))) H1 H2).
    vm_compute. reflexivity.
  - unfold fn_mean.
    rewrite (proj1 (getLineShapeParams_by_model _ _ _ fit1 "furlongs"
                      (fun c => Scalar (mean c))) H1 H2).
    vm_compute. reflexivity.
  - apply (proj1 (proj2 (getLineShapeParams_by_model _ _ _ voigt_fit "Hz"
                           (fun c => Scalar (mean c)))) ).
    vm_compute. reflexivity.
  - apply (proj2 (proj2 (getLineShapeParams_by_model _ _ _ gaussian_fit "furlongs"
                           (fun c => Scalar (mean c))))).
    + vm_compute. discriminate.
    + vm_compute. discriminate.
Defined.

(** X17, on the scenario. Both units are invalid: the zero-order one is reported. *)
Lemma getPhaseParams_phi0_checked_first_witness :
  is_Some (assoc_get "Phi0" (columns (fitResults _ _ _ fit1)))
  /\ is_Some (assoc_get "Phi1" (columns (fitResults _ _ _ fit1)))
  /\ getPhaseParams _ _ _ "turns" "minutes" None fit1
     = (Raise (ValueError "phi0 must be degrees or radians"), fit1).
Proof.
  assert (H0 : is_Some (assoc_get "Phi0" (columns (fitResults _ _ _ fit1))))
    by (eexists; vm_compute; reflexivity).
  assert (H1 : is_Some (assoc_get "Phi1" (columns (fitResults _ _ _ fit1))))
    by (eexists; vm_compute; reflexivity).
  exact (conj H0 (conj H1
           (getPhaseParams_phi0_checked_first _ _ _ fit1 "turns" "minutes" None
              H0 H1 eq_refl eq_refl))).
Defined.

(** X18, on the scenario. *)
Lemma getPhaseParams_phi1_checked_after_write_witness :
  assoc_get "Phi0" (columns (fitResults _ _ _ fit1)) = Some [1%float]
  /\ is_Some (assoc_get "Phi1" (columns (fitResults _ _ _ fit1)))
  /\ getPhaseParams _ _ _ "Degrees" "minutes" None fit1
     = (Raise (ValueError "phi1 must be seconds or deg_per_ppm or deg_per_hz "),
        set_fitResults _ _ _
          (df_setitem "Phi0" (map (fun x => PrimFloat.mul x deg_factor) [1%float])
                      (fitResults _ _ _ fit1)) fit1).
Proof.
  assert (H0 : assoc_get "Phi0" (columns (fitResults _ _ _ fit1)) = Some [1%float])
    by (vm_compute; reflexivity).
  assert (H1 : is_Some (assoc_get "Phi1" (columns (fitResults _ _ _ fit1))))
    by (eexists; vm_compute; reflexivity).
  exact (conj H0 (conj H1
           (getPhaseParams_phi1_checked_after_write _ _ _ fit1 "Degrees" "minutes"
              [1%float] H0 H1 eq_refl eq_refl eq_refl eq_refl))).
Defined.

(** X19, on the scenario.
    Beside 'Cr+PCr', row 3 of the concentrations frame, stands entry 3 of
    the percent-SD vector of before the call, the one of 'gamma_0'; the
    entry computed for 'Cr+PCr' is the last of the new vector, entry 9. *)
Lemma combine_percent_SD_positions_witness :
  compute_perc_SD (crlb _ _ _ fit1) (df_mean mean (fitResults _ _ _ fit1))
  = Ok (perc_SD _ _ _ fit1)
  /\ length (crlb _ _ _ fit1) = length (columns (fitResults _ _ _ fit1))
  /\ 2 <= length (columns (fitResults _ _ _ fit1))
  /\ comb [["Cr"; "PCr"]] fit1 = (Ok tt, fit1_combined)
  /\ firstn (numMetabs _ _ _ fit1_combined) (perc_SD _ _ _ fit1_combined)
     = firstn 4 (perc_SD _ _ _ fit1)
  /\ params_names _ _ _ fit1 !! 3 = Some "gamma_0"
  /\ metabs _ _ _ fit1_combined !! 3 = Some "Cr+PCr"
  /\ length (perc_SD _ _ _ fit1_combined) = 10.
Proof.
  assert (H1 : compute_perc_SD (crlb _ _ _ fit1) (df_mean mean (fitResults _ _ _ fit1))
               = Ok (perc_SD _ _ _ fit1)) by (vm_compute; reflexivity).
  assert (H2 : length (crlb _ _ _ fit1) = length (columns (fitResults _ _ _ fit1)))
    by (vm_compute; reflexivity).
  assert (H3 : 2 <= length (columns (fitResults _ _ _ fit1))) by (vm_compute; lia).
  destruct (on_combine combine_percent_SD_positions [["Cr"; "PCr"]] fit1 fit1_combined
                       H1 H2 H3 fit1_combines) as (_ & _ & C).
  split; [exact H1|]. split; [exact H2|]. split; [exact H3|].
  split; [exact fit1_combines|]. split; [apply C; vm_compute; lia|].
  by_computation.
Defined.

(** X20, on the scenario. *)
Lemma loadResults_returns_witness :
  Forall (fun r => length r = length (params_names _ _ _ fresh)) (rows_of samples)
  /\ (forall m, In m (metabs _ _ _ fresh) -> In m (params_names _ _ _ fresh))
  /\ exists s', load samples fresh = (Ok tt, s').
Proof.
  assert (Hn : length (params_names _ _ _ fresh) = 9) by (vm_compute; reflexivity).
  assert (H1 : Forall (fun r => length r = length (params_names _ _ _ fresh))
                      (rows_of samples)).
  { apply List.Forall_cons; [vm_compute; reflexivity|apply List.Forall_nil]. }
  assert (H2 : forall p, length p = length (params_names _ _ _ fresh) ->
             let c := lap_cov (model _ _ _ fresh) (base_poly _ _ _ fresh)
                              (metab_groups _ _ _ fresh) (g _ _ _ fresh)
                              (ppmlim _ _ _ fresh) tt p in
             length c = length (params_names _ _ _ fresh)
             /\ Forall (fun r => length r = length (params_names _ _ _ fresh)) c).
  { intros p Hp. cbv zeta. unfold lap_cov. rewrite length_map, length_seq. split.
    - exact Hp.
    - apply Forall_forall. intros r Hr. apply list_elem_of_In, in_map_iff in Hr.
      destruct Hr as (i & <- & _). now rewrite length_map, length_seq. }
  assert (H3 : forall m, In m (metabs _ _ _ fresh) -> In m (params_names _ _ _ fresh)).
  { intros m Hm. vm_compute in Hm |- *. tauto. }
  assert (H4 : inb "Cr" (metabs _ _ _ fresh) && inb "PCr" (metabs _ _ _ fresh) = true ->
               forall conc,
                 is_Ok (internal_scale ["Cr"; "PCr"] conc (metabs _ _ _ fresh)) = true).
  { intros _ conc. vm_compute. reflexivity. }
  exact (conj H1 (conj H3 (on_load loadResults_returns tt samples fresh H1 H2 H3 H4))).
Defined.

(** X22, on the scenario. *)
Lemma to_file_other_views_witness :
  to_file _ _ _ mean "qc" fit1 = (Ok (mkOut 0 []), fit1)
  /\ to_file _ _ _ mean "Concentrations" fit1 = (Ok (mkOut 0 []), fit1)
  /\ snd (to_file _ _ _ mean "parameters" fit1_combined) = fit1_combined.
Proof.
  split; [|split].
  - apply (proj2 (to_file_other_views _ _ _ mean fit1 "qc")); discriminate.
  - apply (proj2 (to_file_other_views _ _ _ mean fit1 "Concentrations")); discriminate.
  - exact (proj1 (to_file_other_views _ _ _ mean fit1_combined "parameters")).
Defined.

Lemma fresh_groups : @None (list nat) <> Some [].
Proof. discriminate. Qed.

(** X23, on the scenario. *)
Lemma accessors_find_their_columns_witness :
  @None (list nat) <> Some []
  /\ load samples fresh = (Ok tt, fit1)
  /\ (exists vs, getShiftParams _ _ _ "Hz" (fn_mean mean) fit1 = (Ok (Stack vs), fit1)
                 /\ length vs = numGroups None)
  /\ (exists p, getPhaseParams _ _ _ "radians" "deg_per_ppm" (fn_mean mean) fit1
                = (Ok p, fit1))
  /\ (exists bp, baselineParams true true fit1 = (Ok bp, fit1) /\ length bp = 1 * (0 + 1)).
Proof.
  destruct (on_load accessors_find_their_columns (float * float)%type cplx cplx_abs
                    cplx_div "lorentzian" "Newton" ["Cr"; "PCr"; "NAA"] None 0 tt tt tt
                    samples fit1 (fun c => Scalar (mean c)) fresh_groups fit1_loads)
    as (A & _ & C & D).
  split; [exact fresh_groups|]. split; [exact fit1_loads|].
  split; [apply A; eexists; vm_compute; reflexivity|].
  split; [apply C; reflexivity|]. exact (D true true).
Defined.

(** X24, on the scenario.
    The means of B_real_0 and B_imag_0, both 0, are the last two point
    estimates. *)
Lemma getBaselineParams_params_tail_witness :
  @None (list nat) <> Some []
  /\ NoDup (schema ["Cr"; "PCr"; "NAA"] (numGroups None) 0)
  /\ load samples fresh = (Ok tt, fit1)
  /\ baselineParams false false fit1
     = (Ok (map (PyFloat _) (skipn (3 + 2 * 1 + 2) (params _ _ _ fit1))), fit1)
  /\ skipn (3 + 2 * 1 + 2) (params _ _ _ fit1) = [0; 0]%float
  /\ baselineParams true false fit1 = (Ok [PyComplex _ (cplx 0 0)], fit1).
Proof.
  assert (H2 : NoDup (schema ["Cr"; "PCr"; "NAA"] (numGroups None) 0)).
  { assert (B : bool_decide (NoDup (schema ["Cr"; "PCr"; "NAA"] (numGroups None) 0))
                = true) by (vm_compute; reflexivity).
    exact (bool_decide_eq_true_1 _ B). }
  destruct (on_load getBaselineParams_params_tail (float * float)%type cplx cplx_abs
                    cplx_div "lorentzian" "Newton" ["Cr"; "PCr"; "NAA"] None 0 tt tt tt
                    samples fit1 fresh_groups H2 fit1_loads)
    as (_ & A & _ & C).
  split; [exact fresh_groups|]. split; [exact H2|]. split; [exact fit1_loads|].
  split; [exact A|]. split; [vm_compute; reflexivity|].
  rewrite C. vm_compute. reflexivity.
Defined.

End Scenario.
